(** * Atlas Codex: scrapling service and crawl worker

    A shallow embedding of
      - [packages/core/src/scrapling-service.py]: [get_domain_hash], the
        [/scrape] handler with its adaptive selector store, and the
        endpoints that read and update the store;
      - [workers/browser-worker.py]: the breadth-first loop of [crawl_site]
        and the options and the result of [scrape_page].

    Conventions.  A Python [str] is a Rocq [string], one [ascii] per code
    point (code points below 256).  A [dict] indexed by strings is a
    [gmap string _]; the request's [selectors] keep their insertion order
    as a list of items.  Library and network calls that the code makes are
    the variables of the sections below; every call is also appended to a
    trace, so that statements about what the code does or does not call
    can be read off it. *)

From Stdlib Require Import ZArith List String Ascii Bool Lia PrimFloat.
From stdpp Require Import base option list gmap strings.

Set Warnings "-inexact-float".
Local Open Scope Z_scope.

(** ** Exceptions *)

(** The outcome of a call that may raise; an exception is held as its
    [str(e)], the only thing the handlers read from it. *)
Inductive result (A : Type) : Type :=
| Raise (msg : string)
| Ok (a : A).
Arguments Raise {A} msg.
Arguments Ok {A} a.

(** ** [hashlib.md5] (RFC 1321) *)

Module MD5.

Definition mask32 (x : Z) : Z := Z.land x 0xFFFFFFFF.
Definition add32 (x y : Z) : Z := mask32 (x + y).
Definition not32 (x : Z) : Z := Z.lxor x 0xFFFFFFFF.
Definition rotl32 (x c : Z) : Z :=
  mask32 (Z.lor (Z.shiftl x c) (Z.shiftr x (32 - c))).

Definition S_table : list Z :=
  [ 7; 12; 17; 22; 7; 12; 17; 22; 7; 12; 17; 22; 7; 12; 17; 22;
    5; 9; 14; 20; 5; 9; 14; 20; 5; 9; 14; 20; 5; 9; 14; 20;
    4; 11; 16; 23; 4; 11; 16; 23; 4; 11; 16; 23; 4; 11; 16; 23;
    6; 10; 15; 21; 6; 10; 15; 21; 6; 10; 15; 21; 6; 10; 15; 21 ].

Definition K_table : list Z :=
  [ 0xd76aa478; 0xe8c7b756; 0x242070db; 0xc1bdceee;
    0xf57c0faf; 0x4787c62a; 0xa8304613; 0xfd469501;
    0x698098d8; 0x8b44f7af; 0xffff5bb1; 0x895cd7be;
    0x6b901122; 0xfd987193; 0xa679438e; 0x49b40821;
    0xf61e2562; 0xc040b340; 0x265e5a51; 0xe9b6c7aa;
    0xd62f105d; 0x02441453; 0xd8a1e681; 0xe7d3fbc8;
    0x21e1cde6; 0xc33707d6; 0xf4d50d87; 0x455a14ed;
    0xa9e3e905; 0xfcefa3f8; 0x676f02d9; 0x8d2a4c8a;
    0xfffa3942; 0x8771f681; 0x6d9d6122; 0xfde5380c;
    0xa4beea44; 0x4bdecfa9; 0xf6bb4b60; 0xbebfbc70;
    0x289b7ec6; 0xeaa127fa; 0xd4ef3085; 0x04881d05;
    0xd9d4d039; 0xe6db99e5; 0x1fa27cf8; 0xc4ac5665;
    0xf4292244; 0x432aff97; 0xab9423a7; 0xfc93a039;
    0x655b59c3; 0x8f0ccc92; 0xffeff47d; 0x85845dd1;
    0x6fa87e4f; 0xfe2ce6e0; 0xa3014314; 0x4e0811a1;
    0xf7537e82; 0xbd3af235; 0x2ad7d2bb; 0xeb86d391 ].

(** The four chaining words A, B, C, D. *)
Record digest_state := DS { dA : Z; dB : Z; dC : Z; dD : Z }.

Definition init_state : digest_state :=
  DS 0x67452301 0xefcdab89 0x98badcfe 0x10325476.

(** The round function and the index of the message word of step [i]. *)
Definition round_fg (i : nat) (b c d : Z) : Z * nat :=
  if (i <? 16)%nat then (Z.lor (Z.land b c) (Z.land (not32 b) d), i)
  else if (i <? 32)%nat then
    (Z.lor (Z.land d b) (Z.land (not32 d) c), ((5 * i + 1) mod 16)%nat)
  else if (i <? 48)%nat then
    (Z.lxor (Z.lxor b c) d, ((3 * i + 5) mod 16)%nat)
  else (Z.lxor c (Z.lor b (not32 d)), ((7 * i) mod 16)%nat).

Definition step (M : list Z) (st : digest_state) (i : nat) : digest_state :=
  let '(f, g) := round_fg i (dB st) (dC st) (dD st) in
  let f' := add32 (add32 (add32 f (dA st)) (nth i K_table 0)) (nth g M 0) in
  DS (dD st) (add32 (dB st) (rotl32 f' (nth i S_table 0))) (dB st) (dC st).

Definition process_block (st : digest_state) (M : list Z) : digest_state :=
  let st' := fold_left (step M) (seq 0 64) st in
  DS (add32 (dA st) (dA st')) (add32 (dB st) (dB st'))
     (add32 (dC st) (dC st')) (add32 (dD st) (dD st')).

(** Little-endian bytes of a word of [n] bytes. *)
Fixpoint le_bytes (n : nat) (x : Z) : list Z :=
  match n with
  | O => []
  | S n' => Z.land x 0xFF :: le_bytes n' (Z.shiftr x 8)
  end.

(** Padding: a 1 bit, zeros up to 56 modulo 64, the bit length on 8 bytes. *)
Definition pad (msg : list Z) : list Z :=
  let len := Z.of_nat (length msg) in
  msg ++ [0x80] ++ repeat 0 (Z.to_nat ((55 - len) mod 64))
      ++ le_bytes 8 (Z.land (8 * len) 0xFFFFFFFFFFFFFFFF).

Fixpoint words_of_bytes (bs : list Z) : list Z :=
  match bs with
  | b0 :: b1 :: b2 :: b3 :: rest =>
      (b0 + Z.shiftl b1 8 + Z.shiftl b2 16 + Z.shiftl b3 24)
        :: words_of_bytes rest
  | _ => []
  end.

Fixpoint blocks (fuel : nat) (ws : list Z) : list (list Z) :=
  match fuel, ws with
  | S fuel', _ :: _ => firstn 16 ws :: blocks fuel' (skipn 16 ws)
  | _, _ => []
  end.

Definition digest (msg : list Z) : list Z :=
  let ws := words_of_bytes (pad msg) in
  let st := fold_left process_block (blocks (length ws) ws) init_state in
  le_bytes 4 (dA st) ++ le_bytes 4 (dB st)
    ++ le_bytes 4 (dC st) ++ le_bytes 4 (dD st).

Definition hex_digit (n : Z) : ascii :=
  if n <? 10 then ascii_of_N (Z.to_N (48 + n)) else ascii_of_N (Z.to_N (87 + n)).

Fixpoint hex_of_bytes (bs : list Z) : string :=
  match bs with
  | [] => EmptyString
  | b :: rest =>
      String (hex_digit (Z.shiftr b 4))
        (String (hex_digit (Z.land b 0xF)) (hex_of_bytes rest))
  end.

Definition hexdigest (msg : list Z) : string := hex_of_bytes (digest msg).

End MD5.

(** ** [str.encode()]: UTF-8 *)

Definition utf8_char (c : ascii) : list Z :=
  let n := Z.of_N (N_of_ascii c) in
  if n <? 128 then [n]
  else [Z.lor 0xC0 (Z.shiftr n 6); Z.lor 0x80 (Z.land n 0x3F)].

Fixpoint encode (s : string) : list Z :=
  match s with
  | EmptyString => []
  | String c r => utf8_char c ++ encode r
  end.

Example md5_empty :
  MD5.hexdigest (encode EmptyString) = "d41d8cd98f00b204e9800998ecf8427e"%string.
Proof. vm_compute. reflexivity. Qed.

Example md5_abc :
  MD5.hexdigest (encode "abc") = "900150983cd24fb0d6963f7d28e17f72"%string.
Proof. vm_compute. reflexivity. Qed.

Example md5_a64 :
  MD5.hexdigest (encode "aaaaaaaaaaaaaaaaaaaaaaaaaaaaaaaaaaaaaaaaaaaaaaaaaaaaaaaaaaaaaaaa")
  = "014842d480b571495a4a0363793f7367"%string.
Proof. vm_compute. reflexivity. Qed.

(** ** [urllib.parse.urlparse(url).netloc] *)

Definition code (c : ascii) : Z := Z.of_N (N_of_ascii c).

Fixpoint str_forallb (f : ascii -> bool) (s : string) : bool :=
  match s with
  | EmptyString => true
  | String c r => f c && str_forallb f r
  end.

Fixpoint str_existsb (f : ascii -> bool) (s : string) : bool :=
  match s with
  | EmptyString => false
  | String c r => f c || str_existsb f r
  end.

Fixpoint str_filter (f : ascii -> bool) (s : string) : string :=
  match s with
  | EmptyString => EmptyString
  | String c r => if f c then String c (str_filter f r) else str_filter f r
  end.

(** [c in s] for a character [c]. *)
Definition char_in (c : ascii) (s : string) : bool := str_existsb (Ascii.eqb c) s.

Definition is_alpha (c : ascii) : bool :=
  ((65 <=? code c) && (code c <=? 90)) || ((97 <=? code c) && (code c <=? 122)).
Definition is_digit (c : ascii) : bool := (48 <=? code c) && (code c <=? 57).
(** [scheme_chars]: letters, digits and [+-.]. *)
Definition is_scheme_char (c : ascii) : bool :=
  is_alpha c || is_digit c || char_in c "+-.".
(** [_WHATWG_C0_CONTROL_OR_SPACE]. *)
Definition is_c0_or_space (c : ascii) : bool := code c <=? 32.
(** [_UNSAFE_URL_BYTES_TO_REMOVE]: tab, carriage return, line feed. *)
Definition is_unsafe (c : ascii) : bool :=
  (code c =? 9) || (code c =? 13) || (code c =? 10).
(** The delimiters that end the authority in [_splitnetloc]. *)
Definition is_delim (c : ascii) : bool := char_in c "/?#".

Fixpoint lstrip (s : string) : string :=
  match s with
  | String c r => if is_c0_or_space c then lstrip r else s
  | EmptyString => s
  end.

Definition remove_unsafe (s : string) : string :=
  str_filter (fun c => negb (is_unsafe c)) s.

(** [i = url.find(':')] as the pair [(url[:i], url[i+1:])]. *)
Fixpoint partition_colon (s : string) : option (string * string) :=
  match s with
  | EmptyString => None
  | String c r =>
      if Ascii.eqb c ":" then Some (EmptyString, r)
      else match partition_colon r with
           | Some (a, b) => Some (String c a, b)
           | None => None
           end
  end.

(** The url once a leading scheme and its colon are split off. *)
Definition drop_scheme (url : string) : string :=
  match partition_colon url with
  | Some (String c _ as pre, rest) =>
      if is_alpha c && str_forallb is_scheme_char pre then rest else url
  | _ => url
  end.

Fixpoint until_delim (s : string) : string :=
  match s with
  | EmptyString => EmptyString
  | String c r => if is_delim c then EmptyString else String c (until_delim r)
  end.

(** [_splitnetloc(url, 2)[0]] when [url[:2] == '//'], and [''] otherwise. *)
Definition split_netloc (url : string) : string :=
  match url with
  | String "/" (String "/" r) => until_delim r
  | _ => EmptyString
  end.

Definition is_ascii_str (s : string) : bool :=
  str_forallb (fun c => code c <? 128) s.

Section Urlparse.

(** Two checks of [urlsplit] stay abstract: [_check_bracketed_netloc], which
    validates an authority holding both brackets ([Some msg] when it raises
    [ValueError(msg)]), and [unicodedata.normalize('NFKC', _)]. *)
Variable check_bracketed_netloc : string -> option string.
Variable normalize_NFKC : string -> string.

Definition checknetloc (netloc : string) : result unit :=
  if String.eqb netloc EmptyString || is_ascii_str netloc then Ok tt
  else
    let n := str_filter (fun c => negb (char_in c "@:#?")) netloc in
    let netloc2 := normalize_NFKC n in
    if String.eqb n netloc2 then Ok tt
    else if str_existsb (fun c => char_in c "/?#@:") netloc2
         then Raise ("netloc '" ++ netloc ++
                     "' contains invalid characters under NFKC normalization")
         else Ok tt.

Definition check_brackets (netloc : string) : result unit :=
  let lb := char_in "[" netloc in
  let rb := char_in "]" netloc in
  if (lb && negb rb) || (rb && negb lb) then Raise "Invalid IPv6 URL"
  else if lb && rb then
    match check_bracketed_netloc netloc with
    | Some msg => Raise msg
    | None => Ok tt
    end
  else Ok tt.

Definition urlparse_netloc (url : string) : result string :=
  let url := remove_unsafe (lstrip url) in
  let netloc := split_netloc (drop_scheme url) in
  match check_brackets netloc with
  | Raise msg => Raise msg
  | Ok _ =>
      match checknetloc netloc with
      | Raise msg => Raise msg
      | Ok _ => Ok netloc
      end
  end.

(** ** [get_domain_hash] *)

Definition get_domain_hash (url : string) : result string :=
  match urlparse_netloc url with
  | Raise msg => Raise msg
  | Ok domain => Ok (MD5.hexdigest (encode domain))
  end.

End Urlparse.

(** Checks that accept every authority, for closed examples. *)
Definition accept_brackets : string -> option string := fun _ => None.
Definition nfkc_id : string -> string := fun s => s.

Example netloc_ex1 :
  urlparse_netloc accept_brackets nfkc_id "  https://example.com:8080/x?y#z"
  = Ok "example.com:8080"%string.
Proof. reflexivity. Qed.

Example netloc_ex2 :
  urlparse_netloc accept_brackets nfkc_id "example.com/path" = Ok EmptyString.
Proof. reflexivity. Qed.

Example netloc_ex3 :
  urlparse_netloc accept_brackets nfkc_id "http://u:p@Host/" = Ok "u:p@Host"%string.
Proof. reflexivity. Qed.

Example netloc_ex4 :
  urlparse_netloc accept_brackets nfkc_id "http://[::1/" = Raise "Invalid IPv6 URL"%string.
Proof. reflexivity. Qed.

Example get_domain_hash_ex :
  get_domain_hash accept_brackets nfkc_id "https://example.com/a"
  = Ok "5ababd603b22780302dd8d83498e5172"%string.
Proof. vm_compute. reflexivity. Qed.

(** ** The scrapling service: data *)

(** A value of [extracted_data]: the text of a single match, or the texts
    of several in document order.  An error is stored as a text too. *)
Inductive value : Type :=
| VStr (s : string)
| VList (l : list string).

Record AdaptiveSelector := {
  original : string;
  adapted : option string;
  confidence : float;
  last_updated : string
}.

(** The page the fetcher returns.  [css selector kw] is
    [page.css(selector)] when [kw = None] and
    [page.css(selector, auto_save=b)] when [kw = Some b]; it gives the
    [.text] of each matched element, or raises. *)
Record Page := {
  html : string;
  title : string;
  status_code : option Z;
  css : string -> option bool -> result (list string)
}.

Record ScraplingRequest := {
  url : string;
  strategy : string;
  selectors : option (list (string * string));
  auto_save : bool;
  javascript : bool;
  timeout : Z;
  headers : option (list (string * string))
}.

Inductive meta_value : Type :=
| MStr (s : string)
| MInt (n : Z)
| MBool (b : bool).

(** [response_time] is kept in microseconds ([total_seconds()] is this
    number over 10^6). *)
Record ScraplingResponse := {
  success : bool;
  data : option (gmap string value);
  content : option string;
  metadata : list (string * meta_value);
  adaptive_selectors : option (gmap string string);
  cost : float;
  response_time : Z;
  error : option string
}.

(** The fetcher built for a strategy, and one call of its [fetch]. *)
Inductive fetcher : Type :=
| StealthyFetcher (extra_headers : list (string * string))
| AsyncFetcher
| Fetcher.

(** [fc_render_js] is the [render_js] keyword: [None] when it is not
    passed. *)
Record fetch_call := {
  fc_fetcher : fetcher;
  fc_url : string;
  fc_timeout : Z;
  fc_render_js : option bool
}.

Inductive event : Type :=
| EFetch (c : fetch_call)
| ECss (selector : string) (kw : option bool)
| EStoreGet (domain_hash : string)
| ESelectorGet (key : string)
| EStorePut (domain_hash key : string).

(** The module-level [adaptive_store], the clock (the number of
    [datetime.now()] calls so far), the trace of calls, and the two
    dictionaries local to one [scrape]. *)
Record state := {
  adaptive_store : gmap string (gmap string AdaptiveSelector);
  ticks : nat;
  trace : list event;
  extracted_data : gmap string value;
  adaptive_used : gmap string string
}.

Definition set_store (f : gmap string (gmap string AdaptiveSelector) ->
                          gmap string (gmap string AdaptiveSelector))
    (s : state) : state :=
  {| adaptive_store := f (adaptive_store s); ticks := ticks s; trace := trace s;
     extracted_data := extracted_data s; adaptive_used := adaptive_used s |}.
Definition tick (s : state) : state :=
  {| adaptive_store := adaptive_store s; ticks := S (ticks s); trace := trace s;
     extracted_data := extracted_data s; adaptive_used := adaptive_used s |}.
Definition log (e : event) (s : state) : state :=
  {| adaptive_store := adaptive_store s; ticks := ticks s;
     trace := trace s ++ [e];
     extracted_data := extracted_data s; adaptive_used := adaptive_used s |}.
Definition set_data (f : gmap string value -> gmap string value) (s : state) : state :=
  {| adaptive_store := adaptive_store s; ticks := ticks s; trace := trace s;
     extracted_data := f (extracted_data s); adaptive_used := adaptive_used s |}.
Definition set_used (f : gmap string string -> gmap string string) (s : state) : state :=
  {| adaptive_store := adaptive_store s; ticks := ticks s; trace := trace s;
     extracted_data := extracted_data s; adaptive_used := f (adaptive_used s) |}.

(** ** A state and exception monad *)

Definition M (A : Type) : Type := state -> result A * state.

Global Instance M_ret : MRet M := fun A a s => (Ok a, s).
Global Instance M_bind : MBind M := fun A B f m s =>
  match m s with
  | (Ok a, s') => f a s'
  | (Raise msg, s') => (Raise msg, s')
  end.

(** [try: body except Exception as e: handler(str(e))]. *)
Definition try_except {A} (body : M A) (handler : string -> M A) : M A :=
  fun s =>
    match body s with
    | (Ok a, s') => (Ok a, s')
    | (Raise msg, s') => handler msg s'
    end.

Definition modify (f : state -> state) : M unit := fun s => (Ok tt, f s).
Definition gets {A} (f : state -> A) : M A := fun s => (Ok (f s), s).
Definition lift {A} (r : result A) : M A := fun s => (r, s).

Fixpoint for_each {A} (xs : list A) (body : A -> M unit) : M unit :=
  match xs with
  | [] => mret tt
  | x :: rest => body x ;; for_each rest body
  end.

(** ** The scrapling service: [scrape] *)

(** What [domain_selectors = adaptive_store.get(domain_hash, {})] is bound
    to: the very dictionary stored under [domain_hash], which later writes
    to the store mutate, or a fresh empty one that nothing else refers to. *)
Inductive selectors_ref : Type :=
| StoreEntry
| FreshDict.

(** The entry stored for a site and a field. *)
Definition entry_of (st : gmap string (gmap string AdaptiveSelector))
    (h k : string) : option AdaptiveSelector :=
  st !! h ≫= (fun d => d !! k).

(** What a lookup of [key] in [domain_selectors] reads, given the store. *)
Definition ds_read (r : selectors_ref)
    (st : gmap string (gmap string AdaptiveSelector)) (h k : string)
  : option AdaptiveSelector :=
  match r with
  | StoreEntry => entry_of st h k
  | FreshDict => None
  end.

(** A single match gives its text, several give the list of texts. *)
Definition shape (elements : list string) : value :=
  match elements with
  | [text] => VStr text
  | _ => VList elements
  end.

Definition truthy {A} (l : list A) : bool :=
  match l with [] => false | _ => true end.
Definition truthy_str (s : string) : bool :=
  match s with EmptyString => false | _ => true end.

(** [cost = 0.0001], [+= 0.0004] for stealth, [+= 0.0002] for javascript. *)
Definition estimate_cost (strategy : string) (javascript : bool) : float :=
  let cost := 0.0001%float in
  let cost := if String.eqb strategy "stealth" then (cost + 0.0004)%float else cost in
  let cost := if javascript then (cost + 0.0002)%float else cost in
  cost.

Section Service.

(** The fetch capability: building the fetcher and calling its [fetch]. *)
Variable fetch : fetch_call -> result Page.
(** [datetime.now()] at its n-th call, in microseconds, and [isoformat]. *)
Variable clock : nat -> Z.
Variable isoformat : Z -> string.
Variable check_bracketed_netloc : string -> option string.
Variable normalize_NFKC : string -> string.

Definition now : M Z := fun s => (Ok (clock (ticks s)), tick s).

Definition page_css (page : Page) (selector : string) (kw : option bool)
  : M (list string) :=
  fun s => (css page selector kw, log (ECss selector kw) s).

Definition do_fetch (c : fetch_call) : M Page :=
  fun s => (fetch c, log (EFetch c) s).

(** [adaptive_store.get(domain_hash, {})]. *)
Definition store_get (domain_hash : string) : M selectors_ref :=
  fun s =>
    (Ok (match adaptive_store s !! domain_hash with
         | Some _ => StoreEntry
         | None => FreshDict
         end),
     log (EStoreGet domain_hash) s).

(** [domain_selectors.get(key)] and [domain_selectors[key]]. *)
Definition selectors_get (r : selectors_ref) (domain_hash key : string)
  : M (option AdaptiveSelector) :=
  fun s =>
    (Ok (ds_read r (adaptive_store s) domain_hash key),
     log (ESelectorGet key) s).

(** The store update of lines 119-127. *)
Definition store_put (domain_hash key : string) (selector adapted_sel : string)
  : M unit :=
  modify (fun s =>
            match adaptive_store s !! domain_hash with
            | Some _ => s
            | None => set_store (insert domain_hash ∅) s
            end) ;;
  t ← now ;
  modify (fun s =>
            log (EStorePut domain_hash key)
              (set_store
                 (fun st =>
                    <[domain_hash :=
                        <[key := {| original := selector;
                                    adapted := Some adapted_sel;
                                    confidence := 0.95%float;
                                    last_updated := isoformat t |}]>
                          (default ∅ (st !! domain_hash))]> st)
                 s)).

(** The body of the [try] of one loop iteration (lines 100-127). *)
Definition field_try (page : Page) (request : ScraplingRequest)
    (domain_hash : string) (domain_selectors : selectors_ref)
    (key selector : string) : M unit :=
  elements ← page_css page selector (Some (auto_save request)) ;
  elements ←
    (if truthy elements then mret elements
     else
       entry ← selectors_get domain_selectors domain_hash key ;
       match entry with
       | None => mret elements
       | Some _ =>
           entry ← selectors_get domain_selectors domain_hash key ;
           match entry ≫= adapted with
           | Some adaptive_selector =>
               if truthy_str adaptive_selector then
                 elements ← page_css page adaptive_selector None ;
                 modify (set_used (insert key adaptive_selector)) ;;
                 mret elements
               else mret elements
           | None => mret elements
           end
       end) ;
  if truthy elements then
    modify (set_data (insert key (shape elements))) ;;
    used ← gets (fun s => adaptive_used s !! key) ;
    match used with
    | Some adapted_sel =>
        if auto_save request
        then store_put domain_hash key selector adapted_sel
        else mret tt
    | None => mret tt
    end
  else mret tt.

(** One loop iteration: the [try] and its [except] (lines 99-129). *)
Definition extract_field (page : Page) (request : ScraplingRequest)
    (domain_hash : string) (domain_selectors : selectors_ref)
    (item : string * string) : M unit :=
  try_except
    (field_try page request domain_hash domain_selectors item.1 item.2)
    (fun e => modify (set_data (insert item.1 (VStr ("Error: " ++ e))))).

Definition make_call (request : ScraplingRequest) : fetch_call :=
  if String.eqb (strategy request) "stealth" then
    {| fc_fetcher := StealthyFetcher (default [] (headers request));
       fc_url := url request; fc_timeout := timeout request;
       fc_render_js := if javascript request then Some true else None |}
  else if String.eqb (strategy request) "async" then
    {| fc_fetcher := AsyncFetcher; fc_url := url request;
       fc_timeout := timeout request; fc_render_js := None |}
  else
    {| fc_fetcher := Fetcher; fc_url := url request;
       fc_timeout := timeout request; fc_render_js := None |}.

Definition has_selectors (request : ScraplingRequest) : bool :=
  match selectors request with
  | Some items => truthy items
  | None => false
  end.

(** The response of lines 141-157. *)
Definition success_response (request : ScraplingRequest) (page : Page)
    (extracted : gmap string value) (used : gmap string string)
    (elapsed : Z) : ScraplingResponse :=
  {| success := true;
     data := if decide (extracted = ∅) then None else Some extracted;
     content := if has_selectors request then None else Some (html page);
     metadata :=
       [ ("url"%string, MStr (url request));
         ("strategy"%string, MStr (strategy request));
         ("title"%string, MStr (title page));
         ("status_code"%string, MInt (default 200 (status_code page)));
         ("content_length"%string, MInt (Z.of_nat (String.length (html page))));
         ("adaptive_enabled"%string, MBool (auto_save request)) ];
     adaptive_selectors := if decide (used = ∅) then None else Some used;
     cost := estimate_cost (strategy request) (javascript request);
     response_time := elapsed;
     error := None |}.

(** The response of lines 161-170. *)
Definition failure_response (request : ScraplingRequest) (e : string)
    (elapsed : Z) : ScraplingResponse :=
  {| success := false;
     data := None;
     content := None;
     metadata := [ ("url"%string, MStr (url request));
                   ("strategy"%string, MStr (strategy request)) ];
     adaptive_selectors := None;
     cost := 0%float;
     response_time := elapsed;
     error := Some e |}.

(** The body of the outer [try] (lines 69-157). *)
Definition scrape_try (request : ScraplingRequest) (start_time : Z)
  : M ScraplingResponse :=
  page ← do_fetch (make_call request) ;
  modify (set_data (fun _ => ∅)) ;;
  modify (set_used (fun _ => ∅)) ;;
  (if has_selectors request then
     domain_hash ← lift (get_domain_hash check_bracketed_netloc normalize_NFKC
                           (url request)) ;
     domain_selectors ← store_get domain_hash ;
     for_each (default [] (selectors request))
       (extract_field page request domain_hash domain_selectors)
   else mret tt) ;;
  t ← now ;
  extracted ← gets extracted_data ;
  used ← gets adaptive_used ;
  mret (success_response request page extracted used (t - start_time)).

(** The handler of [POST /scrape]. *)
Definition scrape (request : ScraplingRequest) : M ScraplingResponse :=
  start_time ← now ;
  try_except (scrape_try request start_time)
    (fun e =>
       t ← now ;
       mret (failure_response request e (t - start_time))).

End Service.

(** ** Reasoning about one field of a request *)

(** The stored replacement selector that the loop would try: present and
    not empty. *)
Definition stored_adapted (entry : option AdaptiveSelector) : option string :=
  match entry ≫= adapted with
  | Some a => if truthy_str a then Some a else None
  | None => None
  end.

(** A summary of one iteration for a field that starts absent from both
    local dictionaries: the value left in [extracted_data] and the selector
    left in [adaptive_selectors]. *)
Definition field_outcome (page : Page) (asv : bool)
    (entry : option AdaptiveSelector) (selector : string)
  : option value * option string :=
  match css page selector (Some asv) with
  | Raise m => (Some (VStr ("Error: " ++ m)), None)
  | Ok els =>
      if truthy els then (Some (shape els), None)
      else
        match stored_adapted entry with
        | None => (None, None)
        | Some a =>
            match css page a None with
            | Raise m => (Some (VStr ("Error: " ++ m)), None)
            | Ok els' =>
                if truthy els' then (Some (shape els'), Some a)
                else (None, Some a)
            end
        end
  end.

(** The events one iteration for [key] may add to the trace. *)
Definition field_event (h key : string) (e : event) : Prop :=
  match e with
  | ECss _ _ => True
  | ESelectorGet k => k = key
  | EStorePut h' k => h' = h /\ k = key
  | _ => False
  end.

(** The store once the mapping [a] is written for [(h, key)]. *)
Definition put_entry (st : gmap string (gmap string AdaptiveSelector))
    (h key : string) (a : AdaptiveSelector)
  : gmap string (gmap string AdaptiveSelector) :=
  <[h := <[key := a]> (default ∅ (st !! h))]> st.

Lemma entry_of_put st h key a h' k :
  k ≠ key -> entry_of (put_entry st h key a) h' k = entry_of st h' k.
Proof.
  intros Hk. unfold entry_of, put_entry.
  destruct (decide (h = h')) as [->|Hh].
  - rewrite lookup_insert_eq. simpl. rewrite lookup_insert_ne by done.
    destruct (st !! h'); simpl; [done | apply lookup_empty].
  - by rewrite lookup_insert_ne.
Qed.

Lemma entry_of_put_eq st h key a :
  entry_of (put_entry st h key a) h key = Some a.
Proof.
  unfold entry_of, put_entry. rewrite lookup_insert_eq. simpl.
  apply lookup_insert_eq.
Qed.

Lemma entry_of_put_site st h key a h' k :
  h' ≠ h -> entry_of (put_entry st h key a) h' k = entry_of st h' k.
Proof. intros Hh. unfold entry_of, put_entry. by rewrite lookup_insert_ne. Qed.

Section FieldLemmas.

Variable clock : nat -> Z.
Variable isoformat : Z -> string.

(** The two steps of the store update amount to one [put_entry]. *)
Lemma store_put_run h key sel a s :
  store_put clock isoformat h key sel a s
  = (Ok tt,
     {| adaptive_store :=
          put_entry (adaptive_store s) h key
            {| original := sel; adapted := Some a; confidence := 0.95%float;
               last_updated := isoformat (clock (ticks s)) |};
        ticks := S (ticks s);
        trace := trace s ++ [EStorePut h key];
        extracted_data := extracted_data s;
        adaptive_used := adaptive_used s |}).
Proof.
  unfold store_put, modify, now, mbind, M_bind, put_entry, log, tick, set_store.
  simpl. destruct (adaptive_store s !! h) eqn:E; simpl.
  - by rewrite E.
  - rewrite lookup_insert_eq. simpl. by rewrite insert_insert_eq.
Qed.

Local Opaque store_put.

Ltac goal_case :=
  match goal with
  | |- context [match ?x with _ => _ end] =>
      lazymatch x with
      | context [match _ with _ => _ end] => fail
      | _ => destruct x eqn:?
      end
  end.

Ltac unfold_m :=
  unfold extract_field, field_try, try_except, page_css,
    selectors_get, modify, gets, now, lift, mbind, M_bind, mret, M_ret,
    log, tick, set_data, set_used, set_store in *;
  simpl in *.

Ltac field_split page req sel ds s h key :=
  let a := fresh "a" in
  let asel := fresh "asel" in
  let E := fresh "Hentry" in
  destruct (css page sel (Some (auto_save req))) as [?|[|? ?]] eqn:?; simpl;
  [ | destruct (ds_read ds (adaptive_store s) h key) as [a|] eqn:E; simpl;
      rewrite ?E; simpl;
      [ destruct (adapted a) as [asel|] eqn:?; simpl;
        [ destruct (truthy_str asel) eqn:?; simpl;
          [ destruct (css page asel None) as [?|[|? ?]] eqn:?; simpl | ] | ] | ] | ].

Ltac field_finish :=
  repeat (simpl; rewrite ?lookup_insert_eq, ?store_put_run; try goal_case);
  intros; simplify_eq; simpl in *;
  rewrite ?lookup_insert_eq, ?entry_of_put_eq; try done; try congruence.

Lemma extract_field_ok page req h ds item s r s' :
  extract_field clock isoformat page req h ds item s = (r, s') -> r = Ok tt.
Proof.
  destruct item as [key sel]. intros H. revert H. unfold_m.
  field_split page req sel ds s h key; field_finish.
Qed.

(** An iteration leaves every other field as it was: in both local
    dictionaries and in the store. *)
Lemma extract_field_frame page req h ds item s r s' k :
  extract_field clock isoformat page req h ds item s = (r, s') ->
  k ≠ item.1 ->
  extracted_data s' !! k = extracted_data s !! k
  /\ adaptive_used s' !! k = adaptive_used s !! k
  /\ (forall h', entry_of (adaptive_store s') h' k = entry_of (adaptive_store s) h' k).
Proof.
  destruct item as [key sel]. intros H Hk. revert H. unfold_m.
  field_split page req sel ds s h key; field_finish;
    rewrite ?lookup_insert_ne by done;
    (split; [done | split; [done |]]); intros h';
    rewrite ?entry_of_put by done; done.
Qed.

(** An iteration leaves the entries of every other site as they were. *)
Lemma extract_field_site page req h ds item s r s' h' k :
  extract_field clock isoformat page req h ds item s = (r, s') ->
  h' ≠ h ->
  entry_of (adaptive_store s') h' k = entry_of (adaptive_store s) h' k.
Proof.
  destruct item as [key sel]. intros H Hh. revert H. unfold_m.
  field_split page req sel ds s h key; field_finish;
    rewrite ?entry_of_put_site by done; done.
Qed.

Lemma extract_field_ticks page req h ds item s r s' :
  extract_field clock isoformat page req h ds item s = (r, s') ->
  (ticks s <= ticks s')%nat.
Proof.
  destruct item as [key sel]. intros H. revert H. unfold_m.
  field_split page req sel ds s h key; field_finish; lia.
Qed.

Lemma extract_field_trace page req h ds item s r s' :
  extract_field clock isoformat page req h ds item s = (r, s') ->
  exists evs, trace s' = trace s ++ evs /\ Forall (field_event h item.1) evs.
Proof.
  destruct item as [key sel]. intros H. revert H. unfold_m.
  field_split page req sel ds s h key; field_finish;
    rewrite <- ?app_assoc; eexists; (split; [reflexivity |]);
    repeat constructor.
Qed.

(** The iteration for a field that is absent from both local dictionaries
    leaves there what [field_outcome] says. *)
Lemma extract_field_own page req h ds key sel s r s' :
  extract_field clock isoformat page req h ds (key, sel) s = (r, s') ->
  extracted_data s !! key = None ->
  adaptive_used s !! key = None ->
  extracted_data s' !! key
    = (field_outcome page (auto_save req) (ds_read ds (adaptive_store s) h key) sel).1
  /\ adaptive_used s' !! key
    = (field_outcome page (auto_save req) (ds_read ds (adaptive_store s) h key) sel).2.
Proof.
  intros H Hd Hu. revert H.
  unfold field_outcome, stored_adapted. unfold_m.
  field_split page req sel ds s h key; rewrite ?Hu; field_finish.
Qed.

(** When the replacement selector matched and [auto_save] is set, the
    store holds the new mapping, stamped with the clock read during the
    iteration. *)
Lemma extract_field_saved page req h ds key sel s r s' a els :
  extract_field clock isoformat page req h ds (key, sel) s = (r, s') ->
  css page sel (Some (auto_save req)) = Ok [] ->
  stored_adapted (ds_read ds (adaptive_store s) h key) = Some a ->
  css page a None = Ok els ->
  truthy els = true ->
  auto_save req = true ->
  entry_of (adaptive_store s') h key
    = Some {| original := sel; adapted := Some a; confidence := 0.95%float;
              last_updated := isoformat (clock (ticks s)) |}
  /\ ticks s' = S (ticks s).
Proof.
  intros H Hc Hs Ha Ht Hsave. revert H Hs.
  destruct els as [|e els]; [done |].
  unfold stored_adapted. unfold_m.
  field_split page req sel ds s h key; rewrite ?Hsave; field_finish.
Qed.

(** Without a match, without a replacement, or without [auto_save], the
    iteration writes nothing to the store and does not read the clock. *)
Lemma extract_field_unsaved page req h ds key sel s r s' :
  extract_field clock isoformat page req h ds (key, sel) s = (r, s') ->
  adaptive_used s !! key = None ->
  (field_outcome page (auto_save req) (ds_read ds (adaptive_store s) h key) sel).1 = None
  \/ (field_outcome page (auto_save req) (ds_read ds (adaptive_store s) h key) sel).2 = None
  \/ auto_save req = false ->
  adaptive_store s' = adaptive_store s /\ ticks s' = ticks s.
Proof.
  intros H Hu Hcase. revert H Hcase.
  unfold field_outcome, stored_adapted. unfold_m.
  field_split page req sel ds s h key; rewrite ?Hu; field_finish;
    match goal with
    | H : _ \/ _ |- _ => destruct H as [?|[?|?]]; congruence
    end.
Qed.

(** A requested selector that matches is the only call of the iteration. *)
Lemma extract_field_direct page req h ds key sel s r s' els :
  extract_field clock isoformat page req h ds (key, sel) s = (r, s') ->
  adaptive_used s !! key = None ->
  css page sel (Some (auto_save req)) = Ok els ->
  truthy els = true ->
  trace s' = trace s ++ [ECss sel (Some (auto_save req))].
Proof.
  intros H Hu Hc Ht. revert H. destruct els as [|e els]; [done |].
  unfold_m. rewrite Hc. simpl. rewrite Hu.
  intros H. by simplify_eq.
Qed.

End FieldLemmas.

(** A replacement selector is reported only after the requested selector
    matched nothing and the stored one was applied without raising. *)
Lemma field_outcome_used page asv entry sel a :
  (field_outcome page asv entry sel).2 = Some a ->
  exists els els',
    css page sel (Some asv) = Ok els /\ truthy els = false
    /\ stored_adapted entry = Some a
    /\ css page a None = Ok els'
    /\ (field_outcome page asv entry sel).1
       = if truthy els' then Some (shape els') else None.
Proof.
  unfold field_outcome.
  destruct (css page sel (Some asv)) as [m|els] eqn:Hc; simpl; [done |].
  destruct (truthy els) eqn:Ht; simpl; [done |].
  destruct (stored_adapted entry) as [b|]; simpl; [| done].
  destruct (css page b None) as [m|els'] eqn:Hc'; simpl; [done |].
  destruct (truthy els') eqn:Ht'; simpl; intros; simplify_eq;
    exists els, els'; rewrite Ht'; done.
Qed.

(** ** Reasoning about the loop over the requested fields *)

(** Two states agree on a field: its value, its reported selector, and its
    stored mappings. *)
Definition same_field (k : string) (s1 s2 : state) : Prop :=
  extracted_data s2 !! k = extracted_data s1 !! k
  /\ adaptive_used s2 !! k = adaptive_used s1 !! k
  /\ (forall h', entry_of (adaptive_store s2) h' k
               = entry_of (adaptive_store s1) h' k).

Lemma same_field_refl k s : same_field k s s.
Proof. by repeat split. Qed.

Lemma same_field_trans k s1 s2 s3 :
  same_field k s1 s2 -> same_field k s2 s3 -> same_field k s1 s3.
Proof.
  intros (Hd1 & Hu1 & He1) (Hd2 & Hu2 & He2). repeat split.
  - by rewrite Hd2.
  - by rewrite Hu2.
  - intros h'. by rewrite He2.
Qed.

Section LoopLemmas.

Variable clock : nat -> Z.
Variable isoformat : Z -> string.
Variable page : Page.
Variable req : ScraplingRequest.
Variable h : string.
Variable ds : selectors_ref.

Local Abbreviation body := (extract_field clock isoformat page req h ds).

Lemma for_each_cons item rest s :
  for_each (item :: rest) body s = for_each rest body (body item s).2.
Proof.
  simpl. unfold mbind, M_bind.
  destruct (body item s) as [r s1] eqn:Hb.
  by rewrite (extract_field_ok _ _ _ _ _ _ _ _ _ _ Hb).
Qed.

Lemma for_each_ok items s r s' :
  for_each items body s = (r, s') -> r = Ok tt.
Proof.
  revert s. induction items as [|item rest IH]; intros s.
  - simpl. unfold mret, M_ret. by intros; simplify_eq.
  - rewrite for_each_cons. apply IH.
Qed.

Lemma for_each_frame items s r s' k :
  for_each items body s = (r, s') -> k ∉ items.*1 -> same_field k s s'.
Proof.
  revert s. induction items as [|item rest IH]; intros s.
  - simpl. unfold mret, M_ret. intros; simplify_eq. apply same_field_refl.
  - rewrite for_each_cons. intros Hrun Hk.
    rewrite fmap_cons, not_elem_of_cons in Hk. destruct Hk as [Hk1 Hk2].
    destruct (body item s) as [r1 s1] eqn:Hb. simpl in Hrun.
    eapply same_field_trans; [| by eapply IH].
    by eapply extract_field_frame.
Qed.

Lemma for_each_site items s r s' h' k :
  for_each items body s = (r, s') -> h' ≠ h ->
  entry_of (adaptive_store s') h' k = entry_of (adaptive_store s) h' k.
Proof.
  revert s. induction items as [|item rest IH]; intros s.
  - simpl. unfold mret, M_ret. by intros; simplify_eq.
  - rewrite for_each_cons. intros Hrun Hh.
    destruct (body item s) as [r1 s1] eqn:Hb. simpl in Hrun.
    rewrite (IH _ Hrun Hh). by eapply extract_field_site.
Qed.

Lemma for_each_ticks items s r s' :
  for_each items body s = (r, s') -> (ticks s <= ticks s')%nat.
Proof.
  revert s. induction items as [|item rest IH]; intros s.
  - simpl. unfold mret, M_ret. by intros; simplify_eq.
  - rewrite for_each_cons. intros Hrun.
    destruct (body item s) as [r1 s1] eqn:Hb. simpl in Hrun.
    etrans; [by eapply extract_field_ticks | by eapply IH].
Qed.

Lemma for_each_trace items s r s' :
  for_each items body s = (r, s') ->
  exists evs, trace s' = trace s ++ evs
    /\ Forall (fun e => exists k, k ∈ items.*1 /\ field_event h k e) evs.
Proof.
  revert s. induction items as [|item rest IH]; intros s.
  - simpl. unfold mret, M_ret. intros; simplify_eq.
    exists []. by rewrite app_nil_r.
  - rewrite for_each_cons. intros Hrun.
    destruct (body item s) as [r1 s1] eqn:Hb. simpl in Hrun.
    destruct (extract_field_trace _ _ _ _ _ _ _ _ _ _ Hb) as (evs1 & Ht1 & Hf1).
    destruct (IH _ Hrun) as (evs2 & Ht2 & Hf2).
    exists (evs1 ++ evs2). split.
    + by rewrite Ht2, Ht1, app_assoc.
    + apply Forall_app. split.
      * eapply Forall_impl; [exact Hf1 |]. intros e He.
        exists item.1. split; [rewrite fmap_cons; apply elem_of_cons; by left | done].
      * eapply Forall_impl; [exact Hf2 |]. intros e (k & Hk & He).
        exists k. split; [rewrite fmap_cons; apply elem_of_cons; by right | done].
Qed.

Lemma field_event_other k key e :
  field_event h k e -> k ≠ key -> e ≠ ESelectorGet key.
Proof. destruct e; simpl; congruence. Qed.

(** With distinct field names, the loop runs the iteration of each item
    once, from a state that agrees with the initial one on that field, and
    what follows leaves the field alone. *)
Lemma for_each_focus items s r s' key sel :
  NoDup items.*1 -> (key, sel) ∈ items ->
  for_each items body s = (r, s') ->
  exists s1 s2 evs1 evs2,
    body (key, sel) s1 = (Ok tt, s2)
    /\ same_field key s s1 /\ same_field key s2 s'
    /\ trace s1 = trace s ++ evs1 /\ trace s' = trace s2 ++ evs2
    /\ Forall (fun e => e ≠ ESelectorGet key) evs1
    /\ Forall (fun e => e ≠ ESelectorGet key) evs2
    /\ (ticks s <= ticks s1)%nat /\ (ticks s2 <= ticks s')%nat.
Proof.
  revert s. induction items as [|item rest IH]; intros s Hnd Hin.
  - by apply elem_of_nil in Hin.
  - rewrite fmap_cons in Hnd. apply NoDup_cons in Hnd as [Hfresh Hnd].
    rewrite for_each_cons. intros Hrun.
    destruct (body item s) as [r1 sa] eqn:Hb. simpl in Hrun.
    assert (r1 = Ok tt) as -> by (by eapply extract_field_ok).
    apply elem_of_cons in Hin as [<-|Hin].
    + destruct (for_each_trace _ _ _ _ Hrun) as (evs2 & Ht2 & Hf2).
      exists s, sa, [], evs2. simpl in Hfresh.
      repeat split; try done.
      * by eapply for_each_frame.
      * by eapply for_each_frame.
      * by eapply for_each_frame.
      * by rewrite app_nil_r.
      * eapply Forall_impl; [exact Hf2 |]. intros e (k & Hk & He).
        eapply field_event_other; [exact He |]. by intros ->.
      * by eapply for_each_ticks.
    + assert (item.1 ≠ key) as Hne.
      { intros Heq. apply Hfresh. rewrite Heq.
        apply (list_elem_of_fmap_2 fst) in Hin. exact Hin. }
      destruct (IH _ Hnd Hin Hrun)
        as (s1 & s2 & evs1 & evs2 & Hrun1 & Hs1 & Hs2 & Ht1 & Ht2 & Hf1 & Hf2 & Hk1 & Hk2).
      destruct (extract_field_trace _ _ _ _ _ _ _ _ _ _ Hb) as (evs0 & Ht0 & Hf0).
      exists s1, s2, (evs0 ++ evs1), evs2.
      split; [done |]. split.
      { eapply same_field_trans; [| exact Hs1].
        by eapply extract_field_frame. }
      split; [done |]. split; [by rewrite Ht1, Ht0, app_assoc |].
      split; [done |]. split.
      { apply Forall_app. split; [| done].
        eapply Forall_impl; [exact Hf0 |]. intros e He.
        by eapply field_event_other. }
      split; [done |]. split; [| done].
      etrans; [by eapply extract_field_ticks | done].
Qed.

End LoopLemmas.

(** ** Reasoning about [scrape] *)

(** The state in which the loop over the fields starts. *)
Definition loop_start (req : ScraplingRequest) (make : fetch_call) (h : string)
    (s : state) : state :=
  log (EStoreGet h)
    (set_used (fun _ => ∅) (set_data (fun _ => ∅) (log (EFetch make) (tick s)))).

(** What [domain_selectors] is bound to for the whole loop. *)
Definition loop_ref (h : string) (s : state) : selectors_ref :=
  match adaptive_store s !! h with
  | Some _ => StoreEntry
  | None => FreshDict
  end.

Section ScrapeLemmas.

Variable fetch : fetch_call -> result Page.
Variable clock : nat -> Z.
Variable isoformat : Z -> string.
Variable check_bracketed_netloc : string -> option string.
Variable normalize_NFKC : string -> string.

Local Abbreviation run_scrape :=
  (scrape fetch clock isoformat check_bracketed_netloc normalize_NFKC).
Local Abbreviation domain_hash_of :=
  (get_domain_hash check_bracketed_netloc normalize_NFKC).

Ltac unfold_scrape :=
  unfold scrape, scrape_try, try_except, do_fetch, store_get, now,
    modify, gets, lift, mbind, M_bind, mret, M_ret; simpl.

Lemma scrape_fetch_raise req s msg :
  fetch (make_call req) = Raise msg ->
  run_scrape req s
  = (Ok (failure_response req msg (clock (S (ticks s)) - clock (ticks s))),
     tick (log (EFetch (make_call req)) (tick s))).
Proof. intros Hf. unfold_scrape. by rewrite Hf. Qed.

Lemma scrape_hash_raise req s page msg :
  fetch (make_call req) = Ok page ->
  has_selectors req = true ->
  domain_hash_of (url req) = Raise msg ->
  run_scrape req s
  = (Ok (failure_response req msg (clock (S (ticks s)) - clock (ticks s))),
     tick (set_used (fun _ => ∅)
             (set_data (fun _ => ∅) (log (EFetch (make_call req)) (tick s))))).
Proof. intros Hf Hs Hh. unfold_scrape. by rewrite Hf, Hs, Hh. Qed.

Lemma scrape_no_selectors req s page :
  fetch (make_call req) = Ok page ->
  has_selectors req = false ->
  run_scrape req s
  = (Ok (success_response req page ∅ ∅ (clock (S (ticks s)) - clock (ticks s))),
     tick (set_used (fun _ => ∅)
             (set_data (fun _ => ∅) (log (EFetch (make_call req)) (tick s))))).
Proof. intros Hf Hs. unfold_scrape. by rewrite Hf, Hs. Qed.

Lemma scrape_selectors req s page items h :
  fetch (make_call req) = Ok page ->
  selectors req = Some items ->
  items ≠ [] ->
  domain_hash_of (url req) = Ok h ->
  exists s_end,
    for_each items (extract_field clock isoformat page req h (loop_ref h s))
      (loop_start req (make_call req) h s) = (Ok tt, s_end)
    /\ run_scrape req s
       = (Ok (success_response req page (extracted_data s_end)
                (adaptive_used s_end) (clock (ticks s_end) - clock (ticks s))),
          tick s_end).
Proof.
  intros Hf Hsel Hne Hh.
  destruct (for_each items (extract_field clock isoformat page req h (loop_ref h s))
              (loop_start req (make_call req) h s)) as [r s_end] eqn:Hloop.
  assert (r = Ok tt) as -> by (by eapply for_each_ok).
  exists s_end. split; [done |].
  assert (has_selectors req = true) as Hhas.
  { unfold has_selectors. rewrite Hsel. by destruct items. }
  unfold_scrape. rewrite Hf, Hhas, Hh. simpl. rewrite Hsel. simpl.
  unfold loop_start, loop_ref in Hloop. simpl in Hloop.
  by rewrite Hloop.
Qed.

(** The value and the reported selector of a field, read off a response. *)
Definition data_of (resp : ScraplingResponse) (k : string) : option value :=
  data resp ≫= (fun d => d !! k).
Definition adapted_of (resp : ScraplingResponse) (k : string) : option string :=
  adaptive_selectors resp ≫= (fun d => d !! k).

Lemma data_of_success req page d u t k :
  data_of (success_response req page d u t) k = d !! k.
Proof.
  unfold data_of. simpl. destruct (decide (d = ∅)) as [->|]; simpl; [| done].
  by rewrite lookup_empty.
Qed.

Lemma adapted_of_success req page d u t k :
  adapted_of (success_response req page d u t) k = u !! k.
Proof.
  unfold adapted_of. simpl. destruct (decide (u = ∅)) as [->|]; simpl; [| done].
  by rewrite lookup_empty.
Qed.

Lemma ds_read_loop_ref h s st key :
  (forall h', entry_of st h' key = entry_of (adaptive_store s) h' key) ->
  ds_read (loop_ref h s) st h key = entry_of (adaptive_store s) h key.
Proof.
  intros He. unfold loop_ref, ds_read.
  destruct (adaptive_store s !! h) eqn:Hs; [apply He |].
  unfold entry_of. by rewrite Hs.
Qed.

(** The run of a request, focused on one of its fields. *)
Lemma scrape_field req s page items h key sel :
  fetch (make_call req) = Ok page ->
  selectors req = Some items ->
  NoDup items.*1 ->
  (key, sel) ∈ items ->
  domain_hash_of (url req) = Ok h ->
  exists s_end s1 s2 evs1 evs2,
    run_scrape req s
    = (Ok (success_response req page (extracted_data s_end)
             (adaptive_used s_end) (clock (ticks s_end) - clock (ticks s))),
       tick s_end)
    /\ extract_field clock isoformat page req h (loop_ref h s) (key, sel) s1
       = (Ok tt, s2)
    /\ extracted_data s1 !! key = None
    /\ adaptive_used s1 !! key = None
    /\ ds_read (loop_ref h s) (adaptive_store s1) h key
       = entry_of (adaptive_store s) h key
    /\ same_field key s2 s_end
    /\ trace s1 = trace s ++ [EFetch (make_call req); EStoreGet h] ++ evs1
    /\ trace s_end = trace s2 ++ evs2
    /\ Forall (fun e => e ≠ ESelectorGet key) evs1
    /\ Forall (fun e => e ≠ ESelectorGet key) evs2
    /\ (ticks s < ticks s1)%nat /\ (ticks s2 <= ticks s_end)%nat
    /\ (forall h', entry_of (adaptive_store s1) h' key
                 = entry_of (adaptive_store s) h' key).
Proof.
  intros Hf Hsel Hnd Hin Hh.
  assert (items ≠ []) as Hne by (intros ->; by apply elem_of_nil in Hin).
  destruct (scrape_selectors req s page items h Hf Hsel Hne Hh)
    as (s_end & Hloop & Hrun).
  destruct (for_each_focus _ _ _ _ _ _ _ _ _ _ _ _ Hnd Hin Hloop)
    as (s1 & s2 & evs1 & evs2 & Hb & Hs1 & Hs2 & Ht1 & Ht2 & Hf1 & Hf2 & Hk1 & Hk2).
  destruct Hs1 as (Hd1 & Hu1 & He1).
  exists s_end, s1, s2, evs1, evs2.
  split; [done |]. split; [done |].
  split; [rewrite Hd1; apply lookup_empty |].
  split; [rewrite Hu1; apply lookup_empty |].
  split; [apply ds_read_loop_ref; intros h'; by rewrite He1 |].
  split; [done |].
  split; [rewrite Ht1; simpl; by rewrite <- !app_assoc |].
  split; [done |]. split; [done |]. split; [done |].
  split; [simpl in Hk1; lia |]. split; [done |].
  intros h'. by rewrite He1.
Qed.

(** What a field ends up with in the response: [field_outcome] on the
    mapping stored when the request arrived. *)
Lemma scrape_field_outcome req s page items h key sel :
  fetch (make_call req) = Ok page ->
  selectors req = Some items ->
  NoDup items.*1 ->
  (key, sel) ∈ items ->
  domain_hash_of (url req) = Ok h ->
  exists resp s',
    run_scrape req s = (Ok resp, s')
    /\ success resp = true
    /\ data_of resp key
       = (field_outcome page (auto_save req)
            (entry_of (adaptive_store s) h key) sel).1
    /\ adapted_of resp key
       = (field_outcome page (auto_save req)
            (entry_of (adaptive_store s) h key) sel).2.
Proof.
  intros Hf Hsel Hnd Hin Hh.
  destruct (scrape_field req s page items h key sel Hf Hsel Hnd Hin Hh)
    as (s_end & s1 & s2 & evs1 & evs2 & Hrun & Hb & Hd & Hu & Hr & Hs2 & _).
  destruct (extract_field_own _ _ _ _ _ _ _ _ _ _ _ Hb Hd Hu) as [Hd2 Hu2].
  destruct Hs2 as (Hd3 & Hu3 & _).
  eexists _, _. split; [exact Hrun |]. split; [done |].
  rewrite data_of_success, adapted_of_success, Hd3, Hu3, Hd2, Hu2, Hr.
  done.
Qed.

Lemma has_selectors_items req :
  has_selectors req = true ->
  exists items, selectors req = Some items /\ items ≠ [].
Proof.
  unfold has_selectors. destruct (selectors req) as [[|item items]|]; try done.
  intros _. by eexists.
Qed.

(** Every run of the handler returns a response, of one of two shapes; the
    fetch is the first call it makes, and the only fetch. *)
Lemma scrape_cases req s :
  exists resp s' evs,
    run_scrape req s = (Ok resp, s')
    /\ trace s' = trace s ++ EFetch (make_call req) :: evs
    /\ Forall (fun e => forall c, e ≠ EFetch c) evs
    /\ ((exists msg t, resp = failure_response req msg t)
        \/ (exists page t,
              fetch (make_call req) = Ok page
              /\ resp = success_response req page (extracted_data s')
                          (adaptive_used s') t
              /\ (has_selectors req = false -> extracted_data s' = ∅))).
Proof.
  destruct (fetch (make_call req)) as [msg|page] eqn:Hf.
  { eexists _, _, []. split; [exact (scrape_fetch_raise _ _ _ Hf) |].
    split; [done |]. split; [done |]. left. by eexists _, _. }
  destruct (has_selectors req) eqn:Hs; cycle 1.
  { eexists _, _, []. split; [exact (scrape_no_selectors _ _ _ Hf Hs) |].
    split; [done |]. split; [done |]. right. by eexists _, _. }
  destruct (domain_hash_of (url req)) as [msg|h] eqn:Hh.
  { eexists _, _, []. split; [exact (scrape_hash_raise _ _ _ _ Hf Hs Hh) |].
    split; [done |]. split; [done |]. left. by eexists _, _. }
  destruct (has_selectors_items req Hs) as (items & Hsel & Hne).
  destruct (scrape_selectors req s page items h Hf Hsel Hne Hh)
    as (s_end & Hloop & Hrun).
  destruct (for_each_trace _ _ _ _ _ _ _ _ _ _ Hloop) as (evs & Ht & Hev).
  eexists _, _, (EStoreGet h :: evs). split; [exact Hrun |].
  split; [simpl; rewrite Ht; simpl; by rewrite <- !app_assoc |].
  split.
  { constructor; [done |]. eapply Forall_impl; [exact Hev |].
    intros e (k & _ & He) c ->. done. }
  right. eexists _, _. split; [done |]. split; [done | congruence].
Qed.

End ScrapeLemmas.

(** A run whose result is known has some final state. *)
Lemma run_fst {A} (m : M A) (s : state) (r : A) :
  (m s).1 = Ok r -> exists s', m s = (Ok r, s').
Proof. destruct (m s) as [r' s']. simpl. intros ->. by exists s'. Qed.

(** ** A concrete page, fetcher and clock for closed examples *)

(** A page with no [h1], one [h2], two [p], and a selector that raises. *)
Definition demo_css (selector : string) (kw : option bool) : result (list string) :=
  if String.eqb selector "h2" then Ok ["Hello"%string]
  else if String.eqb selector "p" then Ok ["first"%string; "second"%string]
  else if String.eqb selector "a[" then Raise "invalid selector"
  else Ok [].

Definition demo_page : Page :=
  {| html := "<html><h2>Hello</h2><p>first</p><p>second</p></html>";
     title := "Demo";
     status_code := Some 200;
     css := demo_css |}.

Definition demo_fetch (c : fetch_call) : result Page := Ok demo_page.
Definition demo_clock (n : nat) : Z := 1000 * Z.of_nat n.
Definition demo_isoformat (t : Z) : string :=
  if t =? 2000 then "1970-01-01T00:00:00.002000" else "1970-01-01T00:00:00".

Definition demo_request (items : list (string * string)) (save : bool)
  : ScraplingRequest :=
  {| url := "https://example.com/a";
     strategy := "standard";
     selectors := Some items;
     auto_save := save;
     javascript := false;
     timeout := 30000;
     headers := None |}.

Definition demo_hash : string := "5ababd603b22780302dd8d83498e5172".

Definition empty_state : state :=
  {| adaptive_store := ∅; ticks := 0; trace := [];
     extracted_data := ∅; adaptive_used := ∅ |}.

(** A store in which the site of the demo url maps [title] to [adapted_sel]. *)
Definition stored_state (adapted_sel : string) : state :=
  {| adaptive_store :=
       {[ demo_hash :=
            {[ "title"%string :=
                 {| original := "h1"; adapted := Some adapted_sel;
                    confidence := 0.5%float; last_updated := "1969" |} ]} ]};
     ticks := 0; trace := [];
     extracted_data := ∅; adaptive_used := ∅ |}.

Definition demo_scrape :=
  scrape demo_fetch demo_clock demo_isoformat accept_brackets nfkc_id.

Example demo_scrape_direct :
  (demo_scrape (demo_request [("title", "h2")] true) empty_state).1
  = Ok (success_response (demo_request [("title", "h2")] true) demo_page
          {[ "title"%string := VStr "Hello" ]} ∅ 1000).
Proof. vm_compute. reflexivity. Qed.

(** ** The selector resolution claims *)

Section FieldClaims.

Variable fetch : fetch_call -> result Page.
Variable clock : nat -> Z.
Variable isoformat : Z -> string.
Variable check_bracketed_netloc : string -> option string.
Variable normalize_NFKC : string -> string.

Local Abbreviation run_scrape :=
  (scrape fetch clock isoformat check_bracketed_netloc normalize_NFKC).
Local Abbreviation domain_hash_of :=
  (get_domain_hash check_bracketed_netloc normalize_NFKC).

(** C1: when the requested selector of a field matches nothing and the
    mapping stored for the site and the field has a non-empty adapted
    selector that matches, the response carries the matches of the adapted
    selector (the text of the match when there is one, the list of the
    texts of the matches when there are several) and lists the adapted
    selector for the field; with [auto_save] the store then
    maps the field to a mapping whose [original] is the requested selector,
    whose [adapted] is the selector used, whose confidence is 0.95 and
    whose timestamp is the clock read during the request. *)
Theorem C1_adapted_selector_replayed_and_saved
    req s page items h key sel a asel els :
  fetch (make_call req) = Ok page ->
  selectors req = Some items ->
  NoDup items.*1 ->
  (key, sel) ∈ items ->
  domain_hash_of (url req) = Ok h ->
  css page sel (Some (auto_save req)) = Ok [] ->
  entry_of (adaptive_store s) h key = Some a ->
  adapted a = Some asel ->
  asel ≠ EmptyString ->
  css page asel None = Ok els ->
  els ≠ [] ->
  exists resp s',
    run_scrape req s = (Ok resp, s')
    /\ success resp = true
    /\ data_of resp key
       = Some (match els with
               | [text] => VStr text
               | _ => VList els
               end)
    /\ adapted_of resp key = Some asel
    /\ (auto_save req = true ->
        exists n, (ticks s < n)%nat /\ (n < ticks s')%nat
          /\ entry_of (adaptive_store s') h key
             = Some {| original := sel; adapted := Some asel;
                       confidence := 0.95%float;
                       last_updated := isoformat (clock n) |}).
Proof.
  intros Hf Hsel Hnd Hin Hh Hc He Ha Hasel Hc' Hels.
  assert (truthy els = true) as Ht by (by destruct els).
  assert (stored_adapted (entry_of (adaptive_store s) h key) = Some asel) as Hst.
  { unfold stored_adapted. rewrite He. simpl. rewrite Ha. by destruct asel. }
  destruct (scrape_field fetch clock isoformat check_bracketed_netloc
              normalize_NFKC req s page items h key sel Hf Hsel Hnd Hin Hh)
    as (s_end & s1 & s2 & evs1 & evs2 & Hrun & Hb & Hd & Hu & Hr & Hs2
        & _ & _ & _ & _ & Hk1 & Hk2 & _).
  destruct (extract_field_own _ _ _ _ _ _ _ _ _ _ _ Hb Hd Hu) as [Hd2 Hu2].
  rewrite Hr in Hd2, Hu2. unfold field_outcome in Hd2, Hu2.
  rewrite Hc, Hst, Hc', Ht in Hd2, Hu2. simpl in Hd2, Hu2.
  pose proof Hs2 as (Hd3 & Hu3 & He3).
  eexists _, _. split; [exact Hrun |]. split; [done |].
  rewrite data_of_success, adapted_of_success, Hd3, Hu3.
  split; [done |]. split; [done |].
  intros Hsave. rewrite <- Hr in Hst.
  destruct (extract_field_saved _ _ _ _ _ _ _ _ _ _ _ _ _ Hb Hc Hst Hc' Ht Hsave)
    as [Hsaved Htick].
  exists (ticks s1). split; [lia |]. split; [simpl; lia |].
  simpl. by rewrite He3.
Qed.

(** C2: when the requested selector of a field matches, the response
    carries its matches, the field is not listed among the adapted
    selectors, the lookup of the field in the stored mappings never
    happens, and the mappings stored for the field are left as they
    were. *)
Theorem C2_matching_selector_used_as_is
    req s page items h key sel els :
  fetch (make_call req) = Ok page ->
  selectors req = Some items ->
  NoDup items.*1 ->
  (key, sel) ∈ items ->
  domain_hash_of (url req) = Ok h ->
  css page sel (Some (auto_save req)) = Ok els ->
  els ≠ [] ->
  exists resp s' evs,
    run_scrape req s = (Ok resp, s')
    /\ success resp = true
    /\ data_of resp key = Some (shape els)
    /\ adapted_of resp key = None
    /\ trace s' = trace s ++ evs
    /\ (ECss sel (Some (auto_save req)) ∈ evs)
    /\ (ESelectorGet key ∉ evs)
    /\ (forall h', entry_of (adaptive_store s') h' key
                 = entry_of (adaptive_store s) h' key).
Proof.
  intros Hf Hsel Hnd Hin Hh Hc Hels.
  assert (truthy els = true) as Ht by (by destruct els).
  destruct (scrape_field fetch clock isoformat check_bracketed_netloc
              normalize_NFKC req s page items h key sel Hf Hsel Hnd Hin Hh)
    as (s_end & s1 & s2 & evs1 & evs2 & Hrun & Hb & Hd & Hu & Hr & Hs2
        & Ht1 & Ht2 & Hf1 & Hf2 & Hk1 & Hk2 & He1).
  destruct (extract_field_own _ _ _ _ _ _ _ _ _ _ _ Hb Hd Hu) as [Hd2 Hu2].
  unfold field_outcome in Hd2, Hu2. rewrite Hc, Ht in Hd2, Hu2.
  simpl in Hd2, Hu2.
  pose proof (extract_field_direct _ _ _ _ _ _ _ _ _ _ _ _ Hb Hu Hc Ht) as Hdir.
  destruct (extract_field_unsaved _ _ _ _ _ _ _ _ _ _ _ Hb Hu) as [Hst _].
  { right. left. unfold field_outcome. by rewrite Hc, Ht. }
  destruct Hs2 as (Hd3 & Hu3 & He3).
  eexists _, _,
    ([EFetch (make_call req); EStoreGet h] ++ evs1
       ++ [ECss sel (Some (auto_save req))] ++ evs2).
  split; [exact Hrun |]. split; [done |].
  rewrite data_of_success, adapted_of_success, Hd3, Hu3.
  split; [done |]. split; [done |]. split.
  { simpl. rewrite Ht2, Hdir, Ht1. simpl. by rewrite <- !app_assoc. }
  split.
  { rewrite !elem_of_app. right. right. left. by apply list_elem_of_singleton. }
  split.
  { rewrite !not_elem_of_app. repeat split.
    - intros Hx. apply elem_of_cons in Hx as [Hx|Hx]; [done |].
      apply list_elem_of_singleton in Hx. done.
    - intros Hx. by eapply (proj1 (Forall_forall _ _) Hf1) in Hx.
    - intros Hx. apply list_elem_of_singleton in Hx. done.
    - intros Hx. by eapply (proj1 (Forall_forall _ _) Hf2) in Hx. }
  intros h'. simpl. by rewrite He3, Hst, He1.
Qed.

End FieldClaims.

Lemma C1_witness :
  exists resp s',
    demo_scrape (demo_request [("title", "h1")] true) (stored_state "h2")
    = (Ok resp, s')
    /\ success resp = true
    /\ data_of resp "title" = Some (VStr "Hello")
    /\ adapted_of resp "title" = Some "h2"%string
    /\ (true = true ->
        exists n, (0 < n)%nat /\ (n < ticks s')%nat
          /\ entry_of (adaptive_store s') demo_hash "title"
             = Some {| original := "h1"; adapted := Some "h2"%string;
                       confidence := 0.95%float;
                       last_updated := demo_isoformat (demo_clock n) |}).
Proof.
  eapply (C1_adapted_selector_replayed_and_saved
            demo_fetch demo_clock demo_isoformat accept_brackets nfkc_id
            (demo_request [("title", "h1")] true) (stored_state "h2")
            demo_page [("title", "h1")] demo_hash "title" "h1"
            {| original := "h1"; adapted := Some "h2"%string;
               confidence := 0.5%float; last_updated := "1969" |}
            "h2" ["Hello"%string]).
  - reflexivity.
  - reflexivity.
  - simpl. apply NoDup_singleton.
  - apply list_elem_of_singleton. reflexivity.
  - vm_compute. reflexivity.
  - reflexivity.
  - vm_compute. reflexivity.
  - reflexivity.
  - discriminate.
  - reflexivity.
  - discriminate.
Defined.

Lemma C2_witness :
  exists resp s' evs,
    demo_scrape (demo_request [("title", "h2")] true) (stored_state "p")
    = (Ok resp, s')
    /\ success resp = true
    /\ data_of resp "title" = Some (shape ["Hello"%string])
    /\ adapted_of resp "title" = None
    /\ trace s' = [] ++ evs
    /\ (ECss "h2" (Some true) ∈ evs)
    /\ (ESelectorGet "title" ∉ evs)
    /\ (forall h', entry_of (adaptive_store s') h' "title"
                 = entry_of (adaptive_store (stored_state "p")) h' "title").
Proof.
  eapply (C2_matching_selector_used_as_is
            demo_fetch demo_clock demo_isoformat accept_brackets nfkc_id
            (demo_request [("title", "h2")] true) (stored_state "p")
            demo_page [("title", "h2")] demo_hash "title" "h2").
  - reflexivity.
  - reflexivity.
  - simpl. apply NoDup_singleton.
  - apply list_elem_of_singleton. reflexivity.
  - vm_compute. reflexivity.
  - reflexivity.
  - discriminate.
Defined.

(** The claim of C3 as it is written: a field is reported as adapted only
    when the adapted selector matched. *)
Definition reported_only_on_match (page : Page) (resp : ScraplingResponse)
    (key : string) : Prop :=
  forall a, adapted_of resp key = Some a ->
    exists els, css page a None = Ok els /\ els ≠ [].

(** The request with another dictionary of selectors. *)
Definition with_selectors (req : ScraplingRequest)
    (items : list (string * string)) : ScraplingRequest :=
  {| url := url req; strategy := strategy req; selectors := Some items;
     auto_save := auto_save req; javascript := javascript req;
     timeout := timeout req; headers := headers req |}.

Section FieldFailureClaims.

Variable fetch : fetch_call -> result Page.
Variable clock : nat -> Z.
Variable isoformat : Z -> string.
Variable check_bracketed_netloc : string -> option string.
Variable normalize_NFKC : string -> string.

Local Abbreviation run_scrape :=
  (scrape fetch clock isoformat check_bracketed_netloc normalize_NFKC).
Local Abbreviation domain_hash_of :=
  (get_domain_hash check_bracketed_netloc normalize_NFKC).

(** C3, amended: a field is listed among the adapted selectors exactly when
    its requested selector matched nothing and a stored, non-empty adapted
    selector was then applied without raising, whether or not that one
    matched; the value of the field is then what the adapted selector
    gave: nothing when it matched nothing, the text of its match when it
    matched once, the list of the texts of its matches otherwise.  When
    neither selector matches, the field is absent from the
    data, the request succeeds without error, and the mappings stored for
    the field are left as they were. *)
Theorem C3_adaptation_reported_when_applied
    req s page items h key sel :
  fetch (make_call req) = Ok page ->
  selectors req = Some items ->
  NoDup items.*1 ->
  (key, sel) ∈ items ->
  domain_hash_of (url req) = Ok h ->
  exists resp s',
    run_scrape req s = (Ok resp, s')
    /\ success resp = true /\ error resp = None
    /\ (forall a,
          adapted_of resp key = Some a
          <-> (css page sel (Some (auto_save req)) = Ok []
               /\ stored_adapted (entry_of (adaptive_store s) h key) = Some a
               /\ exists els', css page a None = Ok els'))
    /\ (forall a els',
          adapted_of resp key = Some a -> css page a None = Ok els' ->
          data_of resp key = match els' with
                             | [] => None
                             | [text] => Some (VStr text)
                             | _ => Some (VList els')
                             end)
    /\ (css page sel (Some (auto_save req)) = Ok [] ->
        (forall a, stored_adapted (entry_of (adaptive_store s) h key) = Some a ->
                   css page a None = Ok []) ->
        data_of resp key = None
        /\ adapted_of resp key
           = stored_adapted (entry_of (adaptive_store s) h key)
        /\ (forall h', entry_of (adaptive_store s') h' key
                     = entry_of (adaptive_store s) h' key)).
Proof.
  intros Hf Hsel Hnd Hin Hh.
  destruct (scrape_field fetch clock isoformat check_bracketed_netloc
              normalize_NFKC req s page items h key sel Hf Hsel Hnd Hin Hh)
    as (s_end & s1 & s2 & evs1 & evs2 & Hrun & Hb & Hd & Hu & Hr & Hs2
        & _ & _ & _ & _ & _ & _ & He1).
  destruct (extract_field_own _ _ _ _ _ _ _ _ _ _ _ Hb Hd Hu) as [Hd2 Hu2].
  rewrite Hr in Hd2, Hu2.
  destruct Hs2 as (Hd3 & Hu3 & He3).
  eexists _, _. split; [exact Hrun |]. split; [done |]. split; [done |].
  rewrite data_of_success, adapted_of_success, Hd3, Hu3, Hd2, Hu2.
  split; [| split].
  - intros a. split.
    + intros Ha.
      destruct (field_outcome_used _ _ _ _ _ Ha)
        as (els & els' & Hc & Ht & Hst & Hc' & Hv).
      destruct els; [| done]. split; [done |]. split; [done |]. by exists els'.
    + intros (Hc & Hst & els' & Hc'). unfold field_outcome.
      rewrite Hc. simpl. rewrite Hst, Hc'. by destruct (truthy els').
  - intros a els' Ha Hc'.
    destruct (field_outcome_used _ _ _ _ _ Ha)
      as (els & els'' & _ & _ & _ & Hc'' & Hv).
    rewrite Hc' in Hc''. injection Hc'' as <-. rewrite Hv.
    by destruct els' as [|? [|? ?]].
  - intros Hc Hnone.
    assert ((field_outcome page (auto_save req)
               (entry_of (adaptive_store s) h key) sel).1 = None
            /\ (field_outcome page (auto_save req)
                  (entry_of (adaptive_store s) h key) sel).2
               = stored_adapted (entry_of (adaptive_store s) h key))
      as [Hv Hw].
    { unfold field_outcome. rewrite Hc. simpl.
      destruct (stored_adapted (entry_of (adaptive_store s) h key)) as [a|] eqn:Hst;
        [| done].
      by rewrite (Hnone a eq_refl). }
    split; [done |]. split; [done |].
    destruct (extract_field_unsaved _ _ _ _ _ _ _ _ _ _ _ Hb Hu) as [Hst _].
    { left. by rewrite Hr. }
    intros h'. simpl. by rewrite He3, Hst, He1.
Qed.

(** C6: when applying the selector of a field raises, on the requested
    selector or on the stored adapted one, the request still succeeds, the
    field holds the error text, and every other field holds the value and
    the adapted selector it gets when it is requested alone. *)
Theorem C6_selector_failure_stays_in_its_field
    req s page items h key sel msg :
  fetch (make_call req) = Ok page ->
  selectors req = Some items ->
  NoDup items.*1 ->
  (key, sel) ∈ items ->
  domain_hash_of (url req) = Ok h ->
  css page sel (Some (auto_save req)) = Raise msg
  \/ (css page sel (Some (auto_save req)) = Ok []
      /\ exists a, stored_adapted (entry_of (adaptive_store s) h key) = Some a
                   /\ css page a None = Raise msg) ->
  exists resp s',
    run_scrape req s = (Ok resp, s')
    /\ success resp = true /\ error resp = None
    /\ data_of resp key = Some (VStr ("Error: " ++ msg))
    /\ (forall key' sel', (key', sel') ∈ items -> key' ≠ key ->
          exists resp1 s1,
            run_scrape (with_selectors req [(key', sel')]) s = (Ok resp1, s1)
            /\ success resp1 = true
            /\ data_of resp key' = data_of resp1 key'
            /\ adapted_of resp key' = adapted_of resp1 key').
Proof.
  intros Hf Hsel Hnd Hin Hh Hraise.
  destruct (scrape_field_outcome fetch clock isoformat check_bracketed_netloc
              normalize_NFKC req s page items h key sel Hf Hsel Hnd Hin Hh)
    as (resp & s' & Hrun & Hok & Hd & Hu).
  exists resp, s'. split; [done |]. split; [done |].
  split.
  { destruct (scrape_cases fetch clock isoformat check_bracketed_netloc
                normalize_NFKC req s)
      as (resp0 & s0 & evs & Hrun0 & _ & _ & [(m & t & ->)|(pg & t & _ & -> & _)]);
      rewrite Hrun in Hrun0; simplify_eq; done. }
  split.
  { rewrite Hd. unfold field_outcome.
    destruct Hraise as [-> | (-> & a & -> & ->)]; done. }
  intros key' sel' Hin' Hne.
  destruct (scrape_field_outcome fetch clock isoformat check_bracketed_netloc
              normalize_NFKC req s page items h key' sel' Hf Hsel Hnd Hin' Hh)
    as (resp2 & s2 & Hrun2 & _ & Hd2 & Hu2).
  rewrite Hrun in Hrun2. simplify_eq.
  destruct (scrape_field_outcome fetch clock isoformat check_bracketed_netloc
              normalize_NFKC (with_selectors req [(key', sel')]) s page
              [(key', sel')] h key' sel')
    as (resp1 & s1 & Hrun1 & Hok1 & Hd1 & Hu1);
    [done | done | apply NoDup_singleton | by apply list_elem_of_singleton
     | done |].
  exists resp1, s1. split; [done |]. split; [done |].
  simpl in Hd1, Hu1. by rewrite Hd2, Hu2, Hd1, Hu1.
Qed.

End FieldFailureClaims.

Example demo_scrape_unmatched :
  (demo_scrape (demo_request [("title", "h1")] true) (stored_state "h3")).1
  = Ok (success_response (demo_request [("title", "h1")] true) demo_page
          ∅ {[ "title"%string := "h3"%string ]} 1000).
Proof. vm_compute. reflexivity. Qed.

(** C3, counterexample: the page has neither [h1] nor [h3]; the field is
    listed with the stored selector [h3] although [h3] matched nothing. *)
Lemma C3_counterexample :
  exists resp s',
    demo_scrape (demo_request [("title", "h1")] true) (stored_state "h3")
    = (Ok resp, s')
    /\ data_of resp "title" = None
    /\ ~ reported_only_on_match demo_page resp "title".
Proof.
  destruct (run_fst (demo_scrape (demo_request [("title", "h1")] true))
              (stored_state "h3") _ demo_scrape_unmatched) as [s' Hrun].
  eexists _, s'. split; [exact Hrun |]. clear Hrun.
  split; [vm_compute; reflexivity |].
  intros Hclaim. destruct (Hclaim "h3"%string) as (els & Hc & Hne).
  - vm_compute. reflexivity.
  - vm_compute in Hc. injection Hc as Hels. apply Hne. symmetry. exact Hels.
Qed.

Lemma C3_witness :
  exists resp s',
    demo_scrape (demo_request [("title", "h1")] true) (stored_state "h3")
    = (Ok resp, s')
    /\ success resp = true /\ error resp = None
    /\ (forall a,
          adapted_of resp "title" = Some a
          <-> (demo_css "h1" (Some true) = Ok []
               /\ stored_adapted
                    (entry_of (adaptive_store (stored_state "h3")) demo_hash
                       "title")
                  = Some a
               /\ exists els', demo_css a None = Ok els'))
    /\ (forall a els',
          adapted_of resp "title" = Some a -> demo_css a None = Ok els' ->
          data_of resp "title" = match els' with
                                 | [] => None
                                 | [text] => Some (VStr text)
                                 | _ => Some (VList els')
                                 end)
    /\ (demo_css "h1" (Some true) = Ok [] ->
        (forall a,
           stored_adapted
             (entry_of (adaptive_store (stored_state "h3")) demo_hash "title")
           = Some a ->
           demo_css a None = Ok []) ->
        data_of resp "title" = None
        /\ adapted_of resp "title"
           = stored_adapted
               (entry_of (adaptive_store (stored_state "h3")) demo_hash "title")
        /\ (forall h', entry_of (adaptive_store s') h' "title"
                     = entry_of (adaptive_store (stored_state "h3")) h' "title")).
Proof.
  eapply (C3_adaptation_reported_when_applied
            demo_fetch demo_clock demo_isoformat accept_brackets nfkc_id
            (demo_request [("title", "h1")] true) (stored_state "h3")
            demo_page [("title", "h1")] demo_hash "title" "h1").
  - reflexivity.
  - reflexivity.
  - simpl. apply NoDup_singleton.
  - apply list_elem_of_singleton. reflexivity.
  - vm_compute. reflexivity.
Defined.

Lemma C6_witness :
  exists resp s',
    demo_scrape (demo_request [("links", "a["); ("title", "h2")] true) empty_state
    = (Ok resp, s')
    /\ success resp = true /\ error resp = None
    /\ data_of resp "links" = Some (VStr ("Error: " ++ "invalid selector"))
    /\ (forall key' sel',
          (key', sel') ∈ [("links", "a["); ("title", "h2")]%string ->
          key' ≠ "links"%string ->
          exists resp1 s1,
            demo_scrape
              (with_selectors
                 (demo_request [("links", "a["); ("title", "h2")] true)
                 [(key', sel')]) empty_state
            = (Ok resp1, s1)
            /\ success resp1 = true
            /\ data_of resp key' = data_of resp1 key'
            /\ adapted_of resp key' = adapted_of resp1 key').
Proof.
  eapply (C6_selector_failure_stays_in_its_field
            demo_fetch demo_clock demo_isoformat accept_brackets nfkc_id
            (demo_request [("links", "a["); ("title", "h2")] true) empty_state
            demo_page [("links", "a["); ("title", "h2")]%string demo_hash
            "links" "a[" "invalid selector").
  - reflexivity.
  - reflexivity.
  - simpl. apply NoDup_cons. split; [| apply NoDup_singleton].
    intros Hx. apply list_elem_of_singleton in Hx. discriminate.
  - apply elem_of_cons. left. reflexivity.
  - vm_compute. reflexivity.
  - left. reflexivity.
Defined.

(** ** The response envelope, fetch failures and the cost *)

Lemma estimate_cost_javascript strategy :
  estimate_cost strategy true = (estimate_cost strategy false + 0.0002)%float.
Proof. unfold estimate_cost. by destruct (String.eqb strategy "stealth"). Qed.

Lemma make_call_no_render req :
  strategy req ≠ "stealth"%string -> fc_render_js (make_call req) = None.
Proof.
  intros Hs. unfold make_call.
  destruct (String.eqb_spec (strategy req) "stealth"); [done |].
  by destruct (String.eqb (strategy req) "async").
Qed.

(** A field gets a value, or an error text, exactly when its requested
    selector raises or matches, or matches nothing while the stored adapted
    selector raises or matches. *)
Lemma field_outcome_produces page asv entry sel :
  is_Some (field_outcome page asv entry sel).1
  <-> ((exists m, css page sel (Some asv) = Raise m)
       \/ (exists els, css page sel (Some asv) = Ok els /\ els ≠ [])
       \/ (css page sel (Some asv) = Ok []
           /\ exists a, stored_adapted entry = Some a
                /\ ((exists m, css page a None = Raise m)
                    \/ (exists els, css page a None = Ok els /\ els ≠ [])))).
Proof.
  unfold field_outcome.
  destruct (css page sel (Some asv)) as [m|[|e els]] eqn:Hc; simpl.
  - split; [intros _; left; by exists m | intros _; by eexists].
  - destruct (stored_adapted entry) as [a|] eqn:Hs; simpl; cycle 1.
    { split; [intros [x Hx]; discriminate |].
      intros [[m Hm]|[(els & He & Hne)|(_ & a & Ha & _)]]; [done | | done].
      injection He as <-. done. }
    destruct (css page a None) as [m|[|e els]] eqn:Hc'; simpl.
    + split; [intros _ | intros _; by eexists].
      right. right. split; [done |]. exists a. split; [done |]. left. by exists m.
    + split; [intros [x Hx]; discriminate |].
      intros [[m Hm]|[(els & He & Hne)|(_ & a' & Ha' & Hrest)]]; [done | |].
      * injection He as <-. done.
      * injection Ha' as <-. rewrite Hc' in Hrest.
        destruct Hrest as [[m Hm]|(els & He & Hne)]; [done |].
        injection He as <-. done.
    + split; [intros _ | intros _; by eexists].
      right. right. split; [done |]. exists a. split; [done |]. right.
      by exists (e :: els).
  - split; [intros _ | intros _; by eexists].
    right. left. by exists (e :: els).
Qed.

Section EnvelopeClaims.

Variable fetch : fetch_call -> result Page.
Variable clock : nat -> Z.
Variable isoformat : Z -> string.
Variable check_bracketed_netloc : string -> option string.
Variable normalize_NFKC : string -> string.

Local Abbreviation run_scrape :=
  (scrape fetch clock isoformat check_bracketed_netloc normalize_NFKC).
Local Abbreviation domain_hash_of :=
  (get_domain_hash check_bracketed_netloc normalize_NFKC).

(** The data of a request with selectors: each requested field holds what
    its iteration left, and no other field holds anything. *)
Lemma scrape_requested_data req s page items h :
  fetch (make_call req) = Ok page ->
  selectors req = Some items ->
  items ≠ [] ->
  NoDup items.*1 ->
  domain_hash_of (url req) = Ok h ->
  exists d u t s',
    run_scrape req s = (Ok (success_response req page d u t), s')
    /\ has_selectors req = true
    /\ (forall key sel, (key, sel) ∈ items ->
          d !! key = (field_outcome page (auto_save req)
                        (entry_of (adaptive_store s) h key) sel).1)
    /\ (forall k, k ∉ items.*1 -> d !! k = None).
Proof.
  intros Hf Hsel Hne Hnd Hh.
  destruct (scrape_selectors fetch clock isoformat check_bracketed_netloc
              normalize_NFKC req s page items h Hf Hsel Hne Hh)
    as (s_end & Hloop & Hrun).
  eexists _, _, _, _. split; [exact Hrun |]. split.
  { unfold has_selectors. rewrite Hsel. by destruct items. }
  split.
  - intros key sel Hin.
    destruct (scrape_field_outcome fetch clock isoformat check_bracketed_netloc
                normalize_NFKC req s page items h key sel Hf Hsel Hnd Hin Hh)
      as (resp1 & s1 & Hrun1 & _ & Hd1 & _).
    rewrite Hrun in Hrun1. injection Hrun1 as <- _.
    by rewrite data_of_success in Hd1.
  - intros k Hk.
    destruct (for_each_frame _ _ _ _ _ _ _ _ _ _ k Hloop Hk) as (Hd & _).
    rewrite Hd. simpl. apply lookup_empty.
Qed.

(** C4, amended: every run returns a response.  When [success] is true,
    [error] is absent and at most one of [data] and [content] is present:
    [content] is present exactly when no selectors were requested, and is
    then the page as fetched; [data] is present exactly when one of the
    requested fields got a value or an error text, that is, when its
    requested selector raised or matched, or matched nothing while the
    stored adapted selector raised or matched; so a request with selectors
    none of which matched has both absent.  When [success] is false,
    [error] is present and [data] and [content] are absent. *)
Theorem C4_response_envelope req s :
  exists resp s',
    run_scrape req s = (Ok resp, s')
    /\ (success resp = true ->
        error resp = None
        /\ (is_Some (content resp) <-> has_selectors req = false)
        /\ (is_Some (data resp) <-> extracted_data s' ≠ ∅)
        /\ (is_Some (data resp) -> has_selectors req = true)
        /\ ~ (is_Some (data resp) /\ is_Some (content resp)))
    /\ (success resp = false ->
        is_Some (error resp) /\ data resp = None /\ content resp = None)
    /\ (forall page,
          fetch (make_call req) = Ok page -> has_selectors req = false ->
          success resp = true
          /\ data resp = None /\ content resp = Some (html page))
    /\ (forall page items h,
          fetch (make_call req) = Ok page ->
          selectors req = Some items -> items ≠ [] -> NoDup items.*1 ->
          get_domain_hash check_bracketed_netloc normalize_NFKC (url req)
          = Ok h ->
          success resp = true
          /\ content resp = None
          /\ (is_Some (data resp) <->
              exists key sel,
                (key, sel) ∈ items
                /\ ((exists m, css page sel (Some (auto_save req)) = Raise m)
                    \/ (exists els,
                          css page sel (Some (auto_save req)) = Ok els
                          /\ els ≠ [])
                    \/ (css page sel (Some (auto_save req)) = Ok []
                        /\ exists a,
                             stored_adapted
                               (entry_of (adaptive_store s) h key) = Some a
                             /\ ((exists m, css page a None = Raise m)
                                 \/ (exists els,
                                       css page a None = Ok els
                                       /\ els ≠ [])))))).
Proof.
  destruct (scrape_cases fetch clock isoformat check_bracketed_netloc
              normalize_NFKC req s)
    as (resp & s' & evs & Hrun & _ & _ & Hshape).
  exists resp, s'. split; [done |].
  split; [| split; [| split]].
  - destruct Hshape as [(m & t & ->)|(pg & t & _ & -> & Hno)]; [done |].
    simpl. intros _.
    assert (is_Some (if decide (extracted_data s' = ∅) then None
                     else Some (extracted_data s'))
            <-> extracted_data s' ≠ ∅) as Hdata.
    { destruct (decide (extracted_data s' = ∅)) as [He|He].
      - split; [intros [x Hx]; discriminate | intros Hn; by destruct Hn].
      - split; [intros _; exact He | intros _; by eexists]. }
    assert (is_Some (if has_selectors req then None else Some (html pg))
            <-> has_selectors req = false) as Hcontent.
    { destruct (has_selectors req).
      - split; [intros [x Hx]; discriminate | discriminate].
      - split; [reflexivity | intros _; by eexists]. }
    split; [done |]. split; [done |]. split; [done |].
    split.
    + intros Hd. apply Hdata in Hd.
      destruct (has_selectors req) eqn:Hs; [done |]. by destruct Hd; apply Hno.
    + intros [Hd Hc]. apply Hdata in Hd. apply Hcontent in Hc. by apply Hd, Hno.
  - destruct Hshape as [(m & t & ->)|(pg & t & _ & -> & Hno)]; [| done].
    simpl. intros _. by split; [eexists |].
  - intros page Hf Hs.
    rewrite (scrape_no_selectors fetch clock isoformat check_bracketed_netloc
               normalize_NFKC req s page Hf Hs) in Hrun.
    injection Hrun as <- _. simpl. by rewrite Hs.
  - intros page items h Hf Hsel Hne Hnd Hh.
    destruct (scrape_requested_data req s page items h Hf Hsel Hne Hnd Hh)
      as (d & u & t & s'' & Hrun' & Hhas & Hreq & Hother).
    rewrite Hrun in Hrun'. injection Hrun' as -> _. simpl. rewrite Hhas.
    split; [done |]. split; [done |]. split.
    + intros Hd. destruct (decide (d = ∅)) as [He|He];
        [destruct Hd as [x Hx]; discriminate |].
      apply map_choose in He as (k & v & Hk).
      destruct (decide (k ∈ items.*1)) as [Hin|Hnot]; cycle 1.
      { rewrite (Hother k Hnot) in Hk. discriminate. }
      apply list_elem_of_fmap in Hin as ([key sel] & -> & Hin). simpl in Hk.
      exists key, sel. split; [done |].
      apply field_outcome_produces. rewrite <- (Hreq key sel Hin). by eexists.
    + intros (key & sel & Hin & Hprod).
      apply field_outcome_produces in Hprod as [v Hv].
      rewrite <- (Hreq key sel Hin) in Hv.
      destruct (decide (d = ∅)) as [He|He]; [| by eexists].
      rewrite He, lookup_empty in Hv. discriminate.
Qed.

(** C5, amended: when the fetch raises, the response has [success] false,
    [error] equal to the message of the exception (which may be empty),
    [data] and [content] absent and [cost] 0; and on every input the
    handler returns a response rather than raising. *)
Theorem C5_fetch_failure_is_reported req s msg :
  fetch (make_call req) = Raise msg ->
  (exists resp s',
     run_scrape req s = (Ok resp, s')
     /\ success resp = false
     /\ error resp = Some msg
     /\ data resp = None /\ content resp = None
     /\ cost resp = 0%float)
  /\ (forall req0 s0, exists resp s', run_scrape req0 s0 = (Ok resp, s')).
Proof.
  intros Hf. split.
  - eexists _, _. split; [by apply scrape_fetch_raise |]. done.
  - intros req0 s0.
    destruct (scrape_cases fetch clock isoformat check_bracketed_netloc
                normalize_NFKC req0 s0) as (resp & s' & _ & Hrun & _).
    by exists resp, s'.
Qed.

(** C10, amended: with [javascript] set and a strategy other than stealth,
    the one fetch call of the request carries no [render_js] keyword.  The
    request succeeds exactly when the fetch returns a page and, if
    selectors are requested, the site identity of the url can be computed;
    a successful response reports the cost with the 0.0002 weight added,
    and a failed one reports the cost 0, without the weight. *)
Theorem C10_javascript_charged_without_rendering req s :
  javascript req = true ->
  strategy req ≠ "stealth"%string ->
  exists resp s' evs,
    run_scrape req s = (Ok resp, s')
    /\ trace s' = trace s ++ EFetch (make_call req) :: evs
    /\ Forall (fun e => forall c, e ≠ EFetch c) evs
    /\ fc_render_js (make_call req) = None
    /\ (success resp = true <->
        exists page,
          fetch (make_call req) = Ok page
          /\ (has_selectors req = true ->
              exists h,
                get_domain_hash check_bracketed_netloc normalize_NFKC
                  (url req) = Ok h))
    /\ (success resp = true ->
        cost resp = (estimate_cost (strategy req) false + 0.0002)%float
        /\ cost resp = (0.0001 + 0.0002)%float)
    /\ (success resp = false -> cost resp = 0%float).
Proof.
  intros Hjs Hst.
  destruct (scrape_cases fetch clock isoformat check_bracketed_netloc
              normalize_NFKC req s)
    as (resp & s' & evs & Hrun & Ht & Hev & Hshape).
  exists resp, s', evs. split; [done |]. split; [done |]. split; [done |].
  split; [by apply make_call_no_render |].
  split.
  - destruct (fetch (make_call req)) as [msg|page] eqn:Hf.
    { rewrite (scrape_fetch_raise fetch clock isoformat check_bracketed_netloc
                 normalize_NFKC req s msg Hf) in Hrun.
      injection Hrun as <- _. simpl.
      split; [done | intros (page & Hp & _); discriminate]. }
    destruct (has_selectors req) eqn:Hs; cycle 1.
    { rewrite (scrape_no_selectors fetch clock isoformat check_bracketed_netloc
                 normalize_NFKC req s page Hf Hs) in Hrun.
      injection Hrun as <- _. simpl.
      split; [intros _ | done]. exists page. split; [done | discriminate]. }
    destruct (domain_hash_of (url req)) as [msg|h] eqn:Hh.
    { rewrite (scrape_hash_raise fetch clock isoformat check_bracketed_netloc
                 normalize_NFKC req s page msg Hf Hs Hh) in Hrun.
      injection Hrun as <- _. simpl.
      split; [done |]. intros (page' & _ & Hid).
      destruct (Hid eq_refl) as [h Hx]. discriminate. }
    destruct (has_selectors_items req Hs) as (items & Hsel & Hne).
    destruct (scrape_selectors fetch clock isoformat check_bracketed_netloc
                normalize_NFKC req s page items h Hf Hsel Hne Hh)
      as (s_end & _ & Hrun').
    rewrite Hrun in Hrun'. injection Hrun' as -> _. simpl.
    split; [intros _ | done]. exists page. split; [done |]. intros _.
    by exists h.
  - destruct Hshape as [(m & t & ->)|(pg & t & _ & -> & _)];
      (split; [| done]); [done |].
    intros _. simpl. rewrite Hjs. split.
    + apply estimate_cost_javascript.
    + unfold estimate_cost.
      by destruct (String.eqb_spec (strategy req) "stealth").
Qed.

End EnvelopeClaims.

(** A fetcher that times out with an exception whose message is empty. *)
Definition timeout_fetch (c : fetch_call) : result Page := Raise EmptyString.

Definition timeout_scrape :=
  scrape timeout_fetch demo_clock demo_isoformat accept_brackets nfkc_id.

Example demo_scrape_no_match :
  (demo_scrape (demo_request [("title", "h1")] true) empty_state).1
  = Ok (success_response (demo_request [("title", "h1")] true) demo_page
          ∅ ∅ 1000).
Proof. vm_compute. reflexivity. Qed.

(** C4, counterexample: selectors are requested and none matches; the
    response is a success with neither [data] nor [content]. *)
Lemma C4_counterexample :
  exists resp s',
    demo_scrape (demo_request [("title", "h1")] true) empty_state = (Ok resp, s')
    /\ success resp = true /\ data resp = None /\ content resp = None.
Proof.
  destruct (run_fst (demo_scrape (demo_request [("title", "h1")] true))
              empty_state _ demo_scrape_no_match) as [s' Hrun].
  eexists _, s'. split; [exact Hrun |]. clear Hrun.
  vm_compute. done.
Qed.

Example timeout_scrape_response :
  (timeout_scrape (demo_request [("title", "h1")] true) empty_state).1
  = Ok (failure_response (demo_request [("title", "h1")] true) EmptyString 1000).
Proof. vm_compute. reflexivity. Qed.

(** C5, counterexample: the fetch raises an exception with an empty
    message; the response is a failure whose [error] is the empty string. *)
Lemma C5_counterexample :
  exists resp s',
    timeout_scrape (demo_request [("title", "h1")] true) empty_state
    = (Ok resp, s')
    /\ success resp = false /\ error resp = Some EmptyString.
Proof.
  destruct (run_fst (timeout_scrape (demo_request [("title", "h1")] true))
              empty_state _ timeout_scrape_response) as [s' Hrun].
  eexists _, s'. split; [exact Hrun |]. clear Hrun.
  vm_compute. done.
Qed.

Lemma C5_witness :
  (exists resp s',
     timeout_scrape (demo_request [("title", "h1")] true) empty_state
     = (Ok resp, s')
     /\ success resp = false
     /\ error resp = Some EmptyString
     /\ data resp = None /\ content resp = None
     /\ cost resp = 0%float)
  /\ (forall req0 s0, exists resp s', timeout_scrape req0 s0 = (Ok resp, s')).
Proof.
  apply (C5_fetch_failure_is_reported
           timeout_fetch demo_clock demo_isoformat accept_brackets nfkc_id
           (demo_request [("title", "h1")] true) empty_state EmptyString).
  reflexivity.
Defined.

(** A request for a rendered page with the standard strategy. *)
Definition javascript_request : ScraplingRequest :=
  {| url := "https://example.com/a"; strategy := "standard";
     selectors := None; auto_save := true; javascript := true;
     timeout := 30000; headers := None |}.

Lemma C10_witness :
  exists resp s' evs,
    demo_scrape javascript_request empty_state = (Ok resp, s')
    /\ trace s' = [] ++ EFetch (make_call javascript_request) :: evs
    /\ Forall (fun e => forall c, e ≠ EFetch c) evs
    /\ fc_render_js (make_call javascript_request) = None
    /\ (success resp = true <->
        exists page,
          demo_fetch (make_call javascript_request) = Ok page
          /\ (has_selectors javascript_request = true ->
              exists h,
                get_domain_hash accept_brackets nfkc_id
                  (url javascript_request) = Ok h))
    /\ (success resp = true ->
        cost resp = (estimate_cost "standard" false + 0.0002)%float
        /\ cost resp = (0.0001 + 0.0002)%float)
    /\ (success resp = false -> cost resp = 0%float).
Proof.
  apply (C10_javascript_charged_without_rendering
           demo_fetch demo_clock demo_isoformat accept_brackets nfkc_id
           javascript_request empty_state).
  - reflexivity.
  - discriminate.
Defined.

Example timeout_javascript_response :
  (timeout_scrape javascript_request empty_state).1
  = Ok (failure_response javascript_request EmptyString 1000).
Proof. vm_compute. reflexivity. Qed.

(** C10, counterexample: [javascript] is set, the strategy is the standard
    one and the fetch raises; the cost reported is 0, not the base cost
    with the 0.0002 weight added. *)
Lemma C10_counterexample :
  exists resp s',
    timeout_scrape javascript_request empty_state = (Ok resp, s')
    /\ javascript javascript_request = true
    /\ strategy javascript_request ≠ "stealth"%string
    /\ cost resp = 0%float
    /\ cost resp ≠ (0.0001 + 0.0002)%float.
Proof.
  destruct (run_fst (timeout_scrape javascript_request) empty_state _
              timeout_javascript_response) as [s' Hrun].
  eexists _, s'. split; [exact Hrun |]. clear Hrun.
  split; [reflexivity |]. split; [discriminate |]. split; [reflexivity |].
  simpl. intros H.
  apply (f_equal (fun x => PrimFloat.eqb x 0%float)) in H.
  vm_compute in H. discriminate.
Qed.

(** ** The site identity *)

Lemma str_filter_app f (s1 s2 : string) :
  str_filter f (s1 +:+ s2) = str_filter f s1 +:+ str_filter f s2.
Proof.
  induction s1 as [|c s1 IH]; simpl; [done |].
  destruct (f c); simpl; by rewrite IH.
Qed.

Lemma str_filter_all f (s : string) :
  str_forallb f s = true -> str_filter f s = s.
Proof.
  induction s as [|c s IH]; simpl; [done |].
  intros [Hc Hs]%andb_true_iff. rewrite Hc. by rewrite IH.
Qed.

Lemma str_forallb_impl (f g : ascii -> bool) (s : string) :
  (forall c, f c = true -> g c = true) ->
  str_forallb f s = true -> str_forallb g s = true.
Proof.
  intros Hfg. induction s as [|c s IH]; simpl; [done |].
  intros [Hc Hs]%andb_true_iff. by rewrite (Hfg c Hc), IH.
Qed.

Lemma str_forallb_filter f g (s : string) :
  str_forallb f s = true -> str_forallb f (str_filter g s) = true.
Proof.
  induction s as [|c s IH]; simpl; [done |].
  intros [Hc Hs]%andb_true_iff. destruct (g c); simpl; [rewrite Hc |]; by rewrite ?IH.
Qed.

Lemma scheme_char_safe c : is_scheme_char c = true -> negb (is_unsafe c) = true.
Proof. destruct c as [[] [] [] [] [] [] [] []]; by vm_compute. Qed.

Lemma scheme_char_not_colon c : is_scheme_char c = true -> Ascii.eqb c ":" = false.
Proof. destruct c as [[] [] [] [] [] [] [] []]; by vm_compute. Qed.

Lemma alpha_not_space c : is_alpha c = true -> is_c0_or_space c = false.
Proof. destruct c as [[] [] [] [] [] [] [] []]; by vm_compute. Qed.

Lemma delim_safe c : is_delim c = true -> negb (is_unsafe c) = true.
Proof. destruct c as [[] [] [] [] [] [] [] []]; by vm_compute. Qed.

(** A scheme: a letter, then letters, digits and [+-.]. *)
Definition valid_scheme (s : string) : bool :=
  match s with
  | String c _ => is_alpha c && str_forallb is_scheme_char s
  | EmptyString => false
  end.

(** An authority: no [/], [?] or [#]. *)
Definition valid_authority (a : string) : bool :=
  str_forallb (fun c => negb (is_delim c)) a.

(** What may follow the authority: nothing, or a path, a query or a
    fragment, which start with [/], [?] or [#]. *)
Definition valid_rest (p : string) : bool :=
  match p with
  | EmptyString => true
  | String c _ => is_delim c
  end.

Definition make_url (scheme authority rest : string) : string :=
  scheme +:+ "://" +:+ authority +:+ rest.

Lemma lstrip_scheme s r : valid_scheme s = true -> lstrip (s +:+ r) = s +:+ r.
Proof.
  destruct s as [|c s]; simpl; [done |].
  intros [Hc _]%andb_true_iff. by rewrite (alpha_not_space c Hc).
Qed.

Lemma partition_colon_scheme s r :
  str_forallb is_scheme_char s = true ->
  partition_colon (s +:+ ":" +:+ r) = Some (s, r).
Proof.
  induction s as [|c s IH]; simpl; [done |].
  intros [Hc Hs]%andb_true_iff.
  by rewrite (scheme_char_not_colon c Hc), (IH Hs).
Qed.

Lemma drop_scheme_url s r :
  valid_scheme s = true -> drop_scheme (s +:+ ":" +:+ r) = r.
Proof.
  intros Hv. unfold drop_scheme.
  destruct s as [|c s]; [done |].
  apply andb_true_iff in Hv as [Hc Hs].
  rewrite (partition_colon_scheme _ _ Hs). by rewrite Hc, Hs.
Qed.

Lemma until_delim_authority a p :
  valid_authority a = true -> valid_rest p = true ->
  until_delim (a +:+ p) = a.
Proof.
  unfold valid_authority. induction a as [|c a IH]; simpl.
  - intros _ Hp. destruct p as [|c p]; simpl; [done |]. simpl in Hp. by rewrite Hp.
  - intros [Hc Ha]%andb_true_iff Hp. apply negb_true_iff in Hc.
    by rewrite Hc, IH.
Qed.

Lemma valid_rest_remove_unsafe p :
  valid_rest p = true -> valid_rest (remove_unsafe p) = true.
Proof.
  destruct p as [|c p]; simpl; [done |]. intros Hc.
  unfold remove_unsafe. simpl. by rewrite (delim_safe c Hc).
Qed.

Lemma split_netloc_slashes r : split_netloc ("//" +:+ r) = until_delim r.
Proof. reflexivity. Qed.

(** The authority that [urlsplit] finds in a url made of a scheme, an
    authority and a rest. *)
Lemma split_netloc_make_url s a p :
  valid_scheme s = true -> valid_authority a = true -> valid_rest p = true ->
  split_netloc (drop_scheme (remove_unsafe (lstrip (make_url s a p))))
  = remove_unsafe a.
Proof.
  intros Hs Ha Hp. unfold make_url.
  rewrite (lstrip_scheme _ _ Hs).
  assert (str_forallb is_scheme_char s = true) as Hs'.
  { destruct s as [|c s]; [done |]. by apply andb_true_iff in Hs as [_ ?]. }
  unfold remove_unsafe. rewrite str_filter_app.
  rewrite (str_filter_all _ s)
    by (eapply str_forallb_impl; [apply scheme_char_safe | done]).
  change ("://" +:+ a +:+ p)%string with (":" +:+ ("//" +:+ (a +:+ p)))%string.
  rewrite str_filter_app. change (str_filter _ ":") with ":"%string.
  assert (valid_scheme s = true) as Hs'' by done.
  rewrite (drop_scheme_url _ _ Hs'').
  rewrite str_filter_app. change (str_filter _ "//") with "//"%string.
  rewrite str_filter_app, split_netloc_slashes.
  apply until_delim_authority.
  - by apply str_forallb_filter.
  - by apply valid_rest_remove_unsafe.
Qed.




(** * The crawl worker: [crawl_site] *)

(** [pattern in url]: the pattern occurs in the url. *)
Fixpoint substring_of (pattern s : string) : bool :=
  String.prefix pattern s
  || match s with
     | EmptyString => false
     | String _ r => substring_of pattern r
     end.

(** The [href] of an anchor as the page evaluates [a.href]: a string for
    an HTML anchor; for an anchor of another kind (an SVG anchor) an
    object, on which [startswith] raises, with the message held here. *)
Inductive href_value : Type :=
| HrefStr (s : string)
| HrefObject (error : string).

(** A link as [scrape_page] collects it from an anchor. *)
Record link := { href : href_value; text : string }.

(** What the crawl reads in the dictionary [scrape_page] returns. *)
Record page_data := {
  pd_status : Z;
  pd_links : option (list link)
}.

(** The options, with the defaults of [options.get]. *)
Record crawl_options := {
  maxPages : option Z;
  includePatterns : option (list string);
  excludePatterns : option (list string);
  followLinks : option bool
}.

Inductive page_result : Type :=
| PageSuccess (url : string) (data : page_data)
| PageFailed (url : string) (error : string).

Definition result_url (r : page_result) : string :=
  match r with
  | PageSuccess u _ => u
  | PageFailed u _ => u
  end.

Definition is_success (r : page_result) : bool :=
  match r with
  | PageSuccess _ _ => true
  | PageFailed _ _ => false
  end.

(** The variables of the loop, and [fetched], the urls passed to
    [scrape_page.remote] so far, oldest first. *)
Record crawl_state := {
  visited : gset string;
  to_visit : list string;
  results : list page_result;
  fetched : list string
}.

Record crawl_report := {
  totalPages : nat;
  successfulPages : nat;
  failedPages : nat;
  pages : list page_result
}.

(** The message of the first link on which the loop of lines 157-159
    raises, if there is one. *)
Fixpoint link_error (links : list link) : option string :=
  match links with
  | [] => None
  | l :: rest =>
      match href l with
      | HrefStr _ => link_error rest
      | HrefObject e => Some e
      end
  end.

Section Crawl.

(** [scrape_page.remote(url, options)]. *)
Variable remote : string -> result page_data.
Variable start_url : string.
Variable options : crawl_options.

Definition max_pages : Z := default 10 (maxPages options).
Definition include_patterns : list string := default [] (includePatterns options).
Definition exclude_patterns : list string := default [] (excludePatterns options).

Definition crawl_init : crawl_state :=
  {| visited := ∅; to_visit := [start_url]; results := []; fetched := [] |}.

(** [to_visit and len(results) < max_pages]. *)
Definition crawl_cond (st : crawl_state) : bool :=
  truthy (to_visit st) && (Z.of_nat (length (results st)) <? max_pages).

Definition excluded (url : string) : bool :=
  truthy exclude_patterns
  && existsb (fun pattern => substring_of pattern url) exclude_patterns.

Definition not_included (url : string) : bool :=
  truthy include_patterns
  && negb (existsb (fun pattern => substring_of pattern url) include_patterns).

(** Lines 158-159: one discovered link; [link['href'].startswith] raises
    when the [href] is not a string. *)
Definition add_link (st : crawl_state) (l : link) : result crawl_state :=
  match href l with
  | HrefStr h =>
      Ok (if String.prefix start_url h && negb (bool_decide (h ∈ visited st))
          then {| visited := visited st; to_visit := to_visit st ++ [h];
                  results := results st; fetched := fetched st |}
          else st)
  | HrefObject e => Raise e
  end.

(** Lines 157-159: the loop over the links, up to the first one that
    raises; what was queued before stays queued. *)
Fixpoint add_links (links : list link) (st : crawl_state)
  : crawl_state * option string :=
  match links with
  | [] => (st, None)
  | l :: rest =>
      match add_link st l with
      | Ok st' => add_links rest st'
      | Raise e => (st, Some e)
      end
  end.

(** Lines 146-166: the fetch of one page and what follows it.  The loop
    over the links is inside the [try]: when it raises, the handler
    records a failed entry for the url, after the success entry. *)
Definition crawl_fetch (url : string) (st : crawl_state) : crawl_state :=
  let st := {| visited := visited st; to_visit := to_visit st;
               results := results st; fetched := fetched st ++ [url] |} in
  match remote url with
  | Ok data =>
      let st := {| visited := visited st; to_visit := to_visit st;
                   results := results st ++ [PageSuccess url data];
                   fetched := fetched st |} in
      if default false (followLinks options) && truthy (default [] (pd_links data))
      then
        match add_links (default [] (pd_links data)) st with
        | (st, None) => st
        | (st, Some e) =>
            {| visited := visited st; to_visit := to_visit st;
               results := results st ++ [PageFailed url e];
               fetched := fetched st |}
        end
      else st
  | Raise e =>
      {| visited := visited st; to_visit := to_visit st;
         results := results st ++ [PageFailed url e];
         fetched := fetched st |}
  end.

(** Lines 133-166: one iteration of the loop. *)
Definition crawl_body (st : crawl_state) : crawl_state :=
  match to_visit st with
  | [] => st
  | url :: rest =>
      let st := {| visited := visited st; to_visit := rest;
                   results := results st; fetched := fetched st |} in
      if bool_decide (url ∈ visited st) then st
      else
        let st := {| visited := {[url]} ∪ visited st; to_visit := to_visit st;
                     results := results st; fetched := fetched st |} in
        if excluded url then st
        else if not_included url then st
        else crawl_fetch url st
  end.

(** The [while] loop, for at most [fuel] iterations. *)
Fixpoint crawl_loop (fuel : nat) (st : crawl_state) : option crawl_state :=
  if crawl_cond st then
    match fuel with
    | O => None
    | S fuel' => crawl_loop fuel' (crawl_body st)
    end
  else Some st.

Definition make_report (st : crawl_state) : crawl_report :=
  {| totalPages := length (results st);
     successfulPages := length (filter (fun r => is_success r = true) (results st));
     failedPages := length (filter (fun r => is_success r = false) (results st));
     pages := results st |}.

(** [crawl_site(start_url, options)]: the report and the urls fetched. *)
Definition crawl_site (fuel : nat) : option (crawl_report * list string) :=
  match crawl_loop fuel crawl_init with
  | Some st => Some (make_report st, fetched st)
  | None => None
  end.

(** The entry that the loop records for the call on a url (lines 149-153
    and 162-166). *)
Definition outcome (url : string) : page_result :=
  match remote url with
  | Ok data => PageSuccess url data
  | Raise e => PageFailed url e
  end.

(** The second entry for a url, recorded when the loop over the links of
    its page raises. *)
Definition link_failure (url : string) : list page_result :=
  match remote url with
  | Ok data =>
      if default false (followLinks options) && truthy (default [] (pd_links data))
      then match link_error (default [] (pd_links data)) with
           | Some e => [PageFailed url e]
           | None => []
           end
      else []
  | Raise _ => []
  end.

(** All that a fetch of a url records. *)
Definition entries (url : string) : list page_result :=
  outcome url :: link_failure url.

End Crawl.

(** ** Reasoning about the crawl loop *)

Section CrawlLemmas.

Variable remote : string -> result page_data.
Variable start_url : string.
Variable options : crawl_options.

Local Abbreviation body := (crawl_body remote start_url options).
Local Abbreviation loop := (crawl_loop remote start_url options).
Local Abbreviation cond := (crawl_cond options).
Local Abbreviation N := (max_pages options).
Local Abbreviation in_scope := (fun u => String.prefix start_url u = true).
Local Abbreviation is_string := (fun l => exists s, href l = HrefStr s).
Local Abbreviation all_entries := (flat_map (entries remote options)).

(** The loop over the links of a page queues, in order, the links in scope
    that are not yet visited, up to the first link whose [href] is not a
    string, on which it raises. *)
Lemma add_links_queue links st :
  exists added,
    (add_links start_url links st).1
    = {| visited := visited st; to_visit := to_visit st ++ added;
         results := results st; fetched := fetched st |}
    /\ (add_links start_url links st).2 = link_error links
    /\ Forall in_scope added
    /\ (forall pre l post s,
          links = pre ++ l :: post -> Forall is_string pre ->
          href l = HrefStr s -> in_scope s ->
          s ∈ visited st \/ s ∈ added).
Proof.
  revert st. induction links as [|l links IH]; intros st; simpl.
  { exists []. rewrite app_nil_r. split; [by destruct st |].
    split; [done |]. split; [done |].
    intros pre l post s Hl. by destruct pre. }
  unfold add_link. destruct (href l) as [h|e] eqn:Hh; cycle 1.
  { exists []. rewrite app_nil_r. simpl. split; [by destruct st |].
    split; [done |]. split; [done |].
    intros [|l' pre] l0 post s Hl Hpre Hs; simpl in Hl; injection Hl as Hl1 Hl2; subst.
    - congruence.
    - apply Forall_cons in Hpre as [[s' Hs'] _]. congruence. }
  match goal with
  | |- context [add_links _ links ?s0] =>
      destruct (IH s0) as (added & Hst & Herr & Hscope & Hall)
  end.
  rewrite Hst, Herr.
  destruct (String.prefix start_url h) eqn:Hp; simpl in *.
  - destruct (bool_decide (h ∈ visited st)) eqn:Hv; simpl in *.
    + apply bool_decide_eq_true in Hv.
      exists added. split; [done |]. split; [done |]. split; [done |].
      intros [|l' pre] l0 post s Hl Hpre Hs Hin; simpl in Hl;
        injection Hl as Hl1 Hl2; subst.
      * left. congruence.
      * apply Forall_cons in Hpre as [_ Hpre]. by eapply Hall.
    + exists (h :: added). split; [by rewrite <- app_assoc |].
      split; [done |]. split; [by constructor |].
      intros [|l' pre] l0 post s Hl Hpre Hs Hin; simpl in Hl;
        injection Hl as Hl1 Hl2; subst.
      * right. apply elem_of_cons. left. congruence.
      * apply Forall_cons in Hpre as [_ Hpre].
        destruct (Hall pre l0 post s eq_refl Hpre Hs Hin) as [?|?]; [by left |].
        right. apply elem_of_cons. by right.
  - exists added. split; [done |]. split; [done |]. split; [done |].
    intros [|l' pre] l0 post s Hl Hpre Hs Hin; simpl in Hl;
      injection Hl as Hl1 Hl2; subst.
    + congruence.
    + apply Forall_cons in Hpre as [_ Hpre]. by eapply Hall.
Qed.

(** A fetch records the entries of the url and appends to the queue the
    links it went through, in scope and not yet visited; nothing is
    appended, and one entry is recorded, when the call raised, when links
    are not followed or when the page has none. *)
Lemma crawl_fetch_queue url st :
  exists added,
    crawl_fetch remote start_url options url st
    = {| visited := visited st; to_visit := to_visit st ++ added;
         results := results st ++ entries remote options url;
         fetched := fetched st ++ [url] |}
    /\ Forall in_scope added
    /\ (default false (followLinks options) = true ->
        forall d pre l post s,
          remote url = Ok d -> default [] (pd_links d) = pre ++ l :: post ->
          Forall is_string pre -> href l = HrefStr s -> in_scope s ->
          s ∈ visited st \/ s ∈ added)
    /\ (default false (followLinks options) = false
        \/ (exists e, remote url = Raise e)
        \/ (exists d, remote url = Ok d /\ default [] (pd_links d) = []) ->
        added = []
        /\ entries remote options url = [outcome remote url]).
Proof.
  unfold crawl_fetch, entries, link_failure, outcome.
  destruct (remote url) as [e|d] eqn:Hr.
  { exists []. rewrite app_nil_r. split; [done |]. split; [done |].
    split; [| done]. intros _ d pre l post s Hd. discriminate. }
  remember (default [] (pd_links d)) as links eqn:Hlinks.
  destruct (default false (followLinks options)) eqn:Hfollow; simpl; cycle 1.
  { exists []. rewrite app_nil_r. split; [done |]. split; [done |].
    split; [| done]. intros Hx. discriminate. }
  destruct (truthy links) eqn:Htr; cycle 1.
  { assert (links = []) as -> by (by destruct links).
    exists []. rewrite app_nil_r. simpl. split; [done |]. split; [done |].
    split; [| done]. intros _ d' pre l post s [= <-]. rewrite <- Hlinks.
    intros Hl. by destruct pre. }
  match goal with
  | |- context [add_links _ links ?s0] =>
      destruct (add_links_queue links s0) as (added & Hst & Herr & Hscope & Hall);
      destruct (add_links start_url links s0) as [st1 err]
  end.
  simpl in Hst, Herr. subst st1 err.
  exists added. split.
  { destruct (link_error links) as [e|]; simpl; by rewrite <- ?app_assoc. }
  split; [done |]. split.
  - intros _ d' pre l post s [= <-]. rewrite <- Hlinks. apply Hall.
  - intros [Hx|[[e He]|(d' & Hd' & Hnil)]]; [done | done |].
    injection Hd' as <-. rewrite <- Hlinks in Hnil. by rewrite Hnil in Htr.
Qed.

(** An iteration either skips the url it pops (visited before, or rejected
    by a filter and marked visited now), or fetches it. *)
Lemma crawl_body_split st url rest :
  to_visit st = url :: rest ->
  (exists v,
     body st = {| visited := v; to_visit := rest;
                  results := results st; fetched := fetched st |}
     /\ url ∈ v /\ visited st ⊆ v
     /\ (forall u, u ∈ v -> u ∈ visited st
           \/ (u = url /\ (excluded options url = true
                           \/ not_included options url = true))))
  \/ ((url ∉ visited st)
      /\ excluded options url = false
      /\ not_included options url = false
      /\ body st
         = crawl_fetch remote start_url options url
             {| visited := {[url]} ∪ visited st; to_visit := rest;
                results := results st; fetched := fetched st |}).
Proof.
  intros Hq. unfold crawl_body. rewrite Hq. simpl.
  destruct (bool_decide (url ∈ visited st)) eqn:Hv.
  { apply bool_decide_eq_true in Hv. left. exists (visited st).
    split; [done |]. split; [done |]. split; [done |]. intros u Hu. by left. }
  apply bool_decide_eq_false in Hv.
  assert (forall u, u ∈ {[url]} ∪ visited st -> u ∈ visited st \/ u = url)
    as Hun.
  { intros u [Hu|Hu]%elem_of_union; [right | by left].
    by apply elem_of_singleton in Hu. }
  destruct (excluded options url) eqn:He.
  { left. exists ({[url]} ∪ visited st). split; [done |].
    split; [apply elem_of_union_l; by apply elem_of_singleton |].
    split; [intros u Hu; by apply elem_of_union_r |].
    intros u Hu. destruct (Hun u Hu) as [? | ->]; [by left |].
    right. split; [done | by left]. }
  destruct (not_included options url) eqn:Hi.
  { left. exists ({[url]} ∪ visited st). split; [done |].
    split; [apply elem_of_union_l; by apply elem_of_singleton |].
    split; [intros u Hu; by apply elem_of_union_r |].
    intros u Hu. destruct (Hun u Hu) as [? | ->]; [by left |].
    right. split; [done | by right]. }
  right. done.
Qed.

Lemma link_failure_cases url :
  link_failure remote options url = []
  \/ exists e, link_failure remote options url = [PageFailed url e].
Proof.
  unfold link_failure. destruct (remote url) as [e|d]; [by left |].
  destruct (default false (followLinks options)
            && truthy (default [] (pd_links d))); [| by left].
  destruct (link_error (default [] (pd_links d))) as [e|]; [| by left].
  right. by exists e.
Qed.

Lemma outcome_url url : result_url (outcome remote url) = url.
Proof. unfold outcome. by destruct (remote url). Qed.

(** A fetch records one or two entries, all for the url, at most one of
    them a success. *)
Lemma entries_facts url :
  (1 <= length (entries remote options url) <= 2)%nat
  /\ map result_url (entries remote options url)
     = repeat url (length (entries remote options url))
  /\ (length (filter (fun r => is_success r = true)
                (entries remote options url)) <= 1)%nat.
Proof.
  unfold entries.
  destruct (link_failure_cases url) as [-> | [e ->]]; simpl;
    rewrite outcome_url; (split; [lia |]); (split; [done |]);
    rewrite !filter_cons, ?filter_nil; repeat case_decide; simpl; try lia;
    done.
Qed.

Lemma all_entries_length us :
  (length us <= length (all_entries us) <= 2 * length us)%nat.
Proof.
  induction us as [|u us IH]; cbn [flat_map length]; [lia |].
  rewrite length_app. destruct (entries_facts u) as [? _]. lia.
Qed.


(** The urls of the entries recorded are the urls fetched. *)
Lemma all_entries_urls us u :
  u ∈ map result_url (all_entries us) <-> u ∈ us.
Proof.
  induction us as [|u0 us IH]; cbn [flat_map]; [done |].
  rewrite map_app, elem_of_app, IH, elem_of_cons.
  destruct (entries_facts u0) as (Hlen & -> & _).
  split; intros [Hu|Hu]; try (by right).
  - left. apply list_elem_of_In, repeat_spec in Hu. done.
  - left. subst u0. destruct (length (entries remote options u)); [lia |].
    simpl. apply elem_of_cons. by left.
Qed.


(** What holds of every state the loop goes through. *)
Definition crawl_inv (st : crawl_state) : Prop :=
  Z.of_nat (length (fetched st)) <= Z.max 0 N
  /\ Z.of_nat (length (results st)) <= Z.max 0 N + 1
  /\ NoDup (fetched st)
  /\ (forall u, u ∈ fetched st -> u ∈ visited st)
  /\ results st = all_entries (fetched st)
  /\ Forall (fun u => excluded options u = false) (fetched st).

Lemma crawl_cond_true st :
  cond st = true ->
  (exists url rest, to_visit st = url :: rest)
  /\ Z.of_nat (length (results st)) < N.
Proof.
  unfold crawl_cond. intros [Hq Hn]%andb_true_iff. split.
  - destruct (to_visit st) as [|url rest]; [done |]. by eexists _, _.
  - by apply Z.ltb_lt.
Qed.

Lemma crawl_body_inv st :
  cond st = true -> crawl_inv st -> crawl_inv (body st).
Proof.
  intros Hc (Hfet & Hlen & Hnd & Hvis & Hres & Hex).
  destruct (crawl_cond_true _ Hc) as [(url & rest & Hq) Hlt].
  destruct (crawl_body_split _ _ _ Hq)
    as [(v & -> & _ & Hv & _) | (Hnew & Hnot & _ & ->)].
  - unfold crawl_inv. simpl. repeat split; try done.
    intros u Hu. apply Hv. by apply Hvis.
  - destruct (crawl_fetch_queue url
                {| visited := {[url]} ∪ visited st; to_visit := rest;
                   results := results st; fetched := fetched st |})
      as (added & -> & _).
    pose proof (all_entries_length (fetched st)) as Hall.
    rewrite <- Hres in Hall.
    destruct (entries_facts url) as (Hone & _).
    unfold crawl_inv. simpl. repeat split.
    + rewrite length_app. simpl. lia.
    + rewrite length_app. lia.
    + apply NoDup_app. split; [done |]. split; [| apply NoDup_singleton].
      intros u Hu Hu'. apply list_elem_of_singleton in Hu' as ->.
      by apply Hnew, Hvis.
    + intros u [Hu|Hu]%elem_of_app.
      * apply elem_of_union_r. by apply Hvis.
      * apply list_elem_of_singleton in Hu as ->. apply elem_of_union_l.
        by apply elem_of_singleton.
    + rewrite flat_map_app. simpl. by rewrite app_nil_r, Hres.
    + apply Forall_app. split; [done |]. by constructor.
Qed.

Lemma crawl_loop_inv fuel st st' :
  crawl_inv st -> loop fuel st = Some st' -> crawl_inv st'.
Proof.
  revert st. induction fuel as [|fuel IH]; intros st Hinv; simpl.
  - destruct (cond st) eqn:Hc; [done |]. by intros [= <-].
  - destruct (cond st) eqn:Hc; [| by intros [= <-]].
    apply IH. by apply crawl_body_inv.
Qed.

Lemma crawl_init_inv : crawl_inv (crawl_init start_url).
Proof.
  unfold crawl_inv. simpl. repeat split; try done; try lia.
  - apply NoDup_nil_2.
  - intros u Hu. by apply elem_of_nil in Hu.
Qed.

(** The loop ends: each iteration either records a page, and the budget
    left shrinks, or shortens the queue. *)
Lemma crawl_loop_terminates st :
  exists fuel st', loop fuel st = Some st'.
Proof.
  remember (Z.to_nat (N - Z.of_nat (length (results st)))) as n eqn:Hn.
  remember (length (to_visit st)) as m eqn:Hm.
  revert m st Hn Hm.
  induction n as [n IHn] using lt_wf_ind.
  induction m as [m IHm] using lt_wf_ind. intros st Hn Hm.
  destruct (cond st) eqn:Hc; cycle 1.
  { exists O, st. simpl. by rewrite Hc. }
  destruct (crawl_cond_true _ Hc) as [(url & rest & Hq) Hlt].
  assert (exists fuel st', loop fuel (body st) = Some st') as (fuel & st' & Hrun).
  { destruct (crawl_body_split _ _ _ Hq)
      as [(v & Hb & _) | (_ & _ & _ & Hb)].
    - eapply (IHm (length rest)); [| by rewrite Hb | by rewrite Hb].
      rewrite Hm, Hq. simpl. lia.
    - destruct (crawl_fetch_queue url
                  {| visited := {[url]} ∪ visited st; to_visit := rest;
                     results := results st; fetched := fetched st |})
        as (added & Hf & _).
      rewrite <- Hb in Hf.
      destruct (entries_facts url) as (Hone & _).
      eapply (IHn (Z.to_nat (N - Z.of_nat (length (results (body st))))));
        [| reflexivity | reflexivity].
      rewrite Hf. simpl. rewrite length_app. lia. }
  exists (S fuel), st'. simpl. by rewrite Hc.
Qed.

End CrawlLemmas.

(** ** The crawl claims *)

Section CrawlClaims.

Variable remote : string -> result page_data.
Variable start_url : string.
Variable options : crawl_options.

Local Abbreviation run_crawl := (crawl_site remote start_url options).

Lemma crawl_site_inv fuel report urls :
  run_crawl fuel = Some (report, urls) ->
  exists st, report = make_report st /\ urls = fetched st
             /\ crawl_inv remote options st.
Proof.
  unfold crawl_site.
  destruct (crawl_loop remote start_url options fuel (crawl_init start_url))
    as [st|] eqn:Hrun; [| done].
  intros [= <- <-]. exists st. split; [done |]. split; [done |].
  eapply crawl_loop_inv; [apply crawl_init_inv | exact Hrun].
Qed.


(** C9: a url in which a pattern of [exclude_patterns] occurs is never
    passed to the fetch and never recorded in the report, whatever the
    patterns of [include_patterns] are; an iteration that pops such a url,
    not yet visited, only marks it visited. *)
Theorem C9_excluded_urls_never_fetched fuel report urls pattern u :
  run_crawl fuel = Some (report, urls) ->
  pattern ∈ exclude_patterns options ->
  substring_of pattern u = true ->
  (u ∉ urls)
  /\ (u ∉ map result_url (pages report))
  /\ (forall st rest,
        to_visit st = u :: rest -> u ∉ visited st ->
        crawl_body remote start_url options st
        = {| visited := {[u]} ∪ visited st; to_visit := rest;
             results := results st; fetched := fetched st |}).
Proof.
  intros Hrun Hp Hu.
  assert (excluded options u = true) as Hex.
  { unfold excluded. apply andb_true_iff. split.
    - destruct (exclude_patterns options); [by apply elem_of_nil in Hp | done].
    - apply existsb_exists. exists pattern. split; [| done].
      by apply list_elem_of_In. }
  destruct (crawl_site_inv _ _ _ Hrun)
    as (st & -> & -> & _ & _ & _ & _ & Hres & Hall).
  assert (u ∉ fetched st) as Hnot.
  { intros Hin. apply (proj1 (Forall_forall _ _) Hall) in Hin. congruence. }
  split; [done |]. split; [simpl; by rewrite Hres, all_entries_urls |].
  intros st0 rest Hq Hv. unfold crawl_body. rewrite Hq. simpl.
  rewrite bool_decide_eq_false_2 by done. by rewrite Hex.
Qed.

End CrawlClaims.

(** A small site: the start page links twice to [/a], to [/admin], to
    another site and to [/b]; fetching [/b] fails. *)
Definition demo_start : string := "https://site.test".

Definition demo_links : list link :=
  [ {| href := HrefStr "https://site.test/a"; text := "a" |};
    {| href := HrefStr "https://site.test/a"; text := "a again" |};
    {| href := HrefStr "https://site.test/admin"; text := "admin" |};
    {| href := HrefStr "https://other.test/x"; text := "elsewhere" |};
    {| href := HrefStr "https://site.test/b"; text := "b" |} ].

Definition demo_remote (url : string) : result page_data :=
  if String.eqb url demo_start
  then Ok {| pd_status := 200; pd_links := Some demo_links |}
  else if String.eqb url "https://site.test/b" then Raise "timeout"
  else Ok {| pd_status := 200; pd_links := None |}.

Definition demo_options : crawl_options :=
  {| maxPages := Some 5; includePatterns := Some ["site.test"%string];
     excludePatterns := Some ["/admin"%string]; followLinks := Some true |}.

Definition demo_pages : list page_result :=
  [ PageSuccess demo_start {| pd_status := 200; pd_links := Some demo_links |};
    PageSuccess "https://site.test/a" {| pd_status := 200; pd_links := None |};
    PageFailed "https://site.test/b" "timeout" ].

Definition demo_urls : list string :=
  [ demo_start; "https://site.test/a"%string; "https://site.test/b"%string ].

Example demo_crawl :
  crawl_site demo_remote demo_start demo_options 10
  = Some ({| totalPages := 3; successfulPages := 2; failedPages := 1;
             pages := demo_pages |}, demo_urls).
Proof. vm_compute. reflexivity. Qed.


(** A start page with an SVG anchor among its links, crawled with a budget
    of one page. *)
Definition svg_links : list link :=
  [ {| href := HrefStr "https://site.test/a"; text := "a" |};
    {| href := HrefObject "'dict' object has no attribute 'startswith'";
       text := "logo" |};
    {| href := HrefStr "https://site.test/b"; text := "b" |} ].

Definition svg_remote (url : string) : result page_data :=
  if String.eqb url demo_start
  then Ok {| pd_status := 200; pd_links := Some svg_links |}
  else Ok {| pd_status := 200; pd_links := None |}.

Definition svg_options (budget : Z) : crawl_options :=
  {| maxPages := Some budget; includePatterns := None;
     excludePatterns := None; followLinks := Some true |}.

Definition svg_start_pages : list page_result :=
  [ PageSuccess demo_start {| pd_status := 200; pd_links := Some svg_links |};
    PageFailed demo_start "'dict' object has no attribute 'startswith'" ].



Lemma C9_witness :
  ("https://site.test/admin"%string ∉ demo_urls)
  /\ ("https://site.test/admin"%string ∉ map result_url demo_pages)
  /\ (forall st rest,
        to_visit st = "https://site.test/admin"%string :: rest ->
        "https://site.test/admin"%string ∉ visited st ->
        crawl_body demo_remote demo_start demo_options st
        = {| visited := {["https://site.test/admin"%string]} ∪ visited st;
             to_visit := rest;
             results := results st; fetched := fetched st |}).
Proof.
  apply (C9_excluded_urls_never_fetched demo_remote demo_start demo_options
           10 {| totalPages := 3; successfulPages := 2; failedPages := 1;
                 pages := demo_pages |} demo_urls "/admin"
           "https://site.test/admin").
  - exact demo_crawl.
  - apply list_elem_of_singleton. reflexivity.
  - reflexivity.
Defined.

(** * Further properties of the service *)

(** ** The store endpoints *)

(** The answer of [GET /adaptive-selectors/{domain_hash}]; [v.dict()] of a
    mapping is the mapping. *)
Record selectors_view := {
  sv_domain_hash : string;
  sv_selectors : gmap string AdaptiveSelector;
  sv_count : nat
}.

Definition get_adaptive_selectors (domain_hash : string)
    (st : gmap string (gmap string AdaptiveSelector)) : selectors_view :=
  let selectors := default ∅ (st !! domain_hash) in
  {| sv_domain_hash := domain_hash;
     sv_selectors := selectors;
     sv_count := size selectors |}.

(** [POST /adaptive-selectors/update]: lines 189-192, on the store. *)
Definition update_adaptive_selector (domain_hash key : string)
    (selector : AdaptiveSelector)
    (st : gmap string (gmap string AdaptiveSelector))
  : gmap string (gmap string AdaptiveSelector) :=
  let st := match st !! domain_hash with
            | Some _ => st
            | None => <[domain_hash := ∅]> st
            end in
  <[domain_hash := <[key := selector]> (default ∅ (st !! domain_hash))]> st.

(** [adaptive_domains] of [GET /health]. *)
Definition health_adaptive_domains
    (st : gmap string (gmap string AdaptiveSelector)) : nat :=
  size st.

Lemma update_is_put_entry h key sel st :
  update_adaptive_selector h key sel st = put_entry st h key sel.
Proof.
  unfold update_adaptive_selector, put_entry.
  destruct (st !! h) eqn:Hs; simpl; [by rewrite Hs |].
  rewrite lookup_insert_eq. simpl. by rewrite insert_insert_eq.
Qed.

(** X1: after an update of [(domain_hash, key)], the view of that site is
    the old one with [key] mapped to the new selector, and the view of
    every other site is what it was. *)
Theorem update_then_get_round_trip h key sel st :
  sv_selectors (get_adaptive_selectors h (update_adaptive_selector h key sel st))
  = <[key := sel]> (sv_selectors (get_adaptive_selectors h st))
  /\ sv_selectors (get_adaptive_selectors h (update_adaptive_selector h key sel st))
     !! key = Some sel
  /\ (forall h', h' ≠ h ->
        get_adaptive_selectors h' (update_adaptive_selector h key sel st)
        = get_adaptive_selectors h' st).
Proof.
  rewrite update_is_put_entry. unfold get_adaptive_selectors, put_entry. simpl.
  rewrite lookup_insert_eq. simpl. split; [done |].
  split; [apply lookup_insert_eq |].
  intros h' Hh. by rewrite lookup_insert_ne.
Qed.

(** X2: an update overwrites and never duplicates: the count of the site
    grows by one when the field had no mapping and stays when it had one;
    the number of sites grows by one when the site was unknown and stays
    when it was known. *)
Theorem update_counts h key sel st :
  sv_count (get_adaptive_selectors h (update_adaptive_selector h key sel st))
  = match entry_of st h key with
    | Some _ => sv_count (get_adaptive_selectors h st)
    | None => S (sv_count (get_adaptive_selectors h st))
    end
  /\ health_adaptive_domains (update_adaptive_selector h key sel st)
     = match st !! h with
       | Some _ => health_adaptive_domains st
       | None => S (health_adaptive_domains st)
       end.
Proof.
  rewrite update_is_put_entry.
  unfold get_adaptive_selectors, health_adaptive_domains, put_entry, entry_of.
  simpl. rewrite lookup_insert_eq. simpl.
  destruct (st !! h) as [d|] eqn:Hs; simpl.
  - split.
    + destruct (d !! key) as [a|] eqn:Hk.
      * rewrite <- (insert_delete_id d key a Hk) at 2.
        rewrite <- insert_delete_eq.
        by rewrite !map_size_insert_None by apply lookup_delete_eq.
      * by rewrite map_size_insert_None.
    + rewrite <- (insert_delete_id st h d Hs) at 2.
      rewrite <- insert_delete_eq.
      by rewrite !map_size_insert_None by apply lookup_delete_eq.
  - split.
    + by rewrite map_size_insert_None by apply lookup_empty.
    + by rewrite map_size_insert_None.
Qed.

(** What the view of a site shows for a field is the entry that [scrape]
    reads for it. *)
Lemma view_is_entry_of h k st :
  sv_selectors (get_adaptive_selectors h st) !! k = entry_of st h k.
Proof.
  unfold get_adaptive_selectors, entry_of. simpl.
  destruct (st !! h); simpl; [done | apply lookup_empty].
Qed.

(** ** What a request does to the store *)

(** Two stores with the same sites, the same fields for each site, and the
    same adapted selector for each field. *)
Definition same_selectors (st st' : gmap string (gmap string AdaptiveSelector))
  : Prop :=
  dom st' = dom st
  /\ forall h k, adapted <$> entry_of st' h k = adapted <$> entry_of st h k.

Lemma same_selectors_refl st : same_selectors st st.
Proof. by split. Qed.

Lemma same_selectors_trans st1 st2 st3 :
  same_selectors st1 st2 -> same_selectors st2 st3 -> same_selectors st1 st3.
Proof.
  intros [Hd1 He1] [Hd2 He2]. split; [by rewrite Hd2 |].
  intros h k. by rewrite He2.
Qed.

(** Writing over an existing mapping with the same adapted selector. *)
Lemma same_selectors_put st h key e0 e :
  entry_of st h key = Some e0 -> adapted e = adapted e0 ->
  same_selectors st (put_entry st h key e).
Proof.
  intros He Ha. split.
  - unfold put_entry. rewrite dom_insert_L.
    assert (h ∈ dom st) as Hin.
    { apply elem_of_dom. unfold entry_of in He.
      destruct (st !! h); [by eexists | done]. }
    apply set_eq. intros x. rewrite elem_of_union, elem_of_singleton.
    split; [intros [->|?]; done | by right].
  - intros h' k. destruct (decide (k = key)) as [->|Hk].
    + destruct (decide (h' = h)) as [->|Hh].
      * rewrite entry_of_put_eq, He. simpl. by rewrite Ha.
      * by rewrite entry_of_put_site.
    + by rewrite entry_of_put.
Qed.

(** The counts that the endpoints report depend on the sites and fields
    only. *)
Lemma same_selectors_counts st st' :
  same_selectors st st' ->
  health_adaptive_domains st' = health_adaptive_domains st
  /\ forall h, sv_count (get_adaptive_selectors h st')
               = sv_count (get_adaptive_selectors h st).
Proof.
  intros [Hd He]. split.
  - unfold health_adaptive_domains. by rewrite <- !size_dom, Hd.
  - intros h. unfold get_adaptive_selectors. simpl.
    rewrite <- !size_dom. f_equal. apply set_eq. intros k.
    rewrite !elem_of_dom.
    pose proof (He h k) as Hk. unfold entry_of in Hk.
    assert (forall st0 : gmap string (gmap string AdaptiveSelector),
              default ∅ (st0 !! h) !! k = st0 !! h ≫= (fun d => d !! k)) as Hv.
    { intros st0. destruct (st0 !! h); simpl; [done | apply lookup_empty]. }
    rewrite !Hv.
    destruct (st' !! h ≫= (fun d => d !! k)),
             (st !! h ≫= (fun d => d !! k)); simpl in Hk;
      first [ done
            | split; intros _; by eexists
            | split; intros [? ?]; done ].
Qed.

Section StoreLemmas.

Variable clock : nat -> Z.
Variable isoformat : Z -> string.

Local Opaque store_put.

Ltac store_case :=
  match goal with
  | |- context [match ?x with _ => _ end] =>
      lazymatch x with
      | context [match _ with _ => _ end] => fail
      | _ => destruct x eqn:?
      end
  end.

Ltac store_unfold :=
  unfold extract_field, field_try, try_except, page_css,
    selectors_get, modify, gets, now, lift, mbind, M_bind, mret, M_ret,
    log, tick, set_data, set_used, set_store in *;
  simpl in *.

Ltac store_split page req sel ds s h key :=
  let a := fresh "a" in
  let asel := fresh "asel" in
  let E := fresh "Hentry" in
  destruct (css page sel (Some (auto_save req))) as [?|[|? ?]] eqn:?; simpl;
  [ | destruct (ds_read ds (adaptive_store s) h key) as [a|] eqn:E; simpl;
      rewrite ?E; simpl;
      [ destruct (adapted a) as [asel|] eqn:?; simpl;
        [ destruct (truthy_str asel) eqn:?; simpl;
          [ destruct (css page asel None) as [?|[|? ?]] eqn:?; simpl | ] | ] | ] | ].

Ltac store_finish :=
  repeat (simpl; rewrite ?lookup_insert_eq, ?store_put_run; try store_case);
  intros; simplify_eq; simpl in *;
  rewrite ?lookup_insert_eq, ?entry_of_put_eq; try done; try congruence.

(** One iteration writes the store at most once: over the mapping of its
    own field, with the selector it has just reported, under [auto_save]
    and after the field got its value. *)
Lemma extract_field_writes page req h ds key sel s r s' :
  extract_field clock isoformat page req h ds (key, sel) s = (r, s') ->
  (adaptive_store s' = adaptive_store s /\ ticks s' = ticks s)
  \/ (exists a,
        auto_save req = true
        /\ adaptive_used s' !! key = Some a
        /\ is_Some (extracted_data s' !! key)
        /\ adaptive_store s'
           = put_entry (adaptive_store s) h key
               {| original := sel; adapted := Some a; confidence := 0.95%float;
                  last_updated := isoformat (clock (ticks s)) |}
        /\ ticks s' = S (ticks s)).
Proof.
  intros H. revert H. store_unfold.
  store_split page req sel ds s h key; store_finish;
    first [ by left
          | right; eexists; repeat split; eauto ].
Qed.

(** One iteration adds at most its own field to the reported selectors, and
    then with the stored adapted selector that it read. *)
Lemma extract_field_used page req h ds key sel s r s' :
  extract_field clock isoformat page req h ds (key, sel) s = (r, s') ->
  adaptive_used s' = adaptive_used s
  \/ (exists a,
        adaptive_used s' = <[key := a]> (adaptive_used s)
        /\ stored_adapted (ds_read ds (adaptive_store s) h key) = Some a).
Proof.
  intros H. revert H. unfold stored_adapted. store_unfold.
  store_split page req sel ds s h key; store_finish;
    first [ by left
          | right; eexists; split; [reflexivity |]; simpl;
            repeat match goal with H : _ = _ |- _ => rewrite H end; done ].
Qed.

(** One iteration sets at most its own field in the data. *)
Lemma extract_field_data page req h ds key sel s r s' :
  extract_field clock isoformat page req h ds (key, sel) s = (r, s') ->
  extracted_data s' = extracted_data s
  \/ (exists v, extracted_data s' = <[key := v]> (extracted_data s)).
Proof.
  intros H. revert H. store_unfold.
  store_split page req sel ds s h key; store_finish;
    first [ by left | right; by eexists ].
Qed.

End StoreLemmas.

(** Every selector reported so far is the adapted selector that the store
    holds for the site and the field. *)
Definition used_stored (h : string) (s : state) : Prop :=
  forall k a, adaptive_used s !! k = Some a ->
    stored_adapted (entry_of (adaptive_store s) h k) = Some a.

(** What the loop may have done between two of its states: the store kept
    its sites, fields and adapted selectors; nothing left the two local
    dictionaries; a mapping that changed is one of the site of the request
    and of a requested field that now has a value and a reported selector;
    and nothing was written without [auto_save]. *)
Definition loop_step (h : string) (auto : bool) (keys : list string)
    (s s' : state) : Prop :=
  same_selectors (adaptive_store s) (adaptive_store s')
  /\ (forall k, is_Some (adaptive_used s !! k) -> is_Some (adaptive_used s' !! k))
  /\ (forall k, is_Some (extracted_data s !! k) -> is_Some (extracted_data s' !! k))
  /\ (forall h' k,
        entry_of (adaptive_store s') h' k = entry_of (adaptive_store s) h' k
        \/ (h' = h /\ k ∈ keys /\ auto = true
            /\ is_Some (adaptive_used s' !! k)
            /\ is_Some (extracted_data s' !! k)))
  /\ (auto = false -> adaptive_store s' = adaptive_store s).

Lemma loop_step_refl h auto keys s : loop_step h auto keys s s.
Proof.
  split; [apply same_selectors_refl |]. split; [done |]. split; [done |].
  split; [by left | done].
Qed.

Lemma loop_step_trans h auto keys s1 s2 s3 :
  loop_step h auto keys s1 s2 -> loop_step h auto keys s2 s3 ->
  loop_step h auto keys s1 s3.
Proof.
  intros (Hs1 & Hu1 & Hd1 & Hc1 & Hr1) (Hs2 & Hu2 & Hd2 & Hc2 & Hr2).
  split; [by eapply same_selectors_trans |].
  split; [intros k Hk; by apply Hu2, Hu1 |].
  split; [intros k Hk; by apply Hd2, Hd1 |].
  split.
  - intros h' k. destruct (Hc2 h' k) as [He2|Hw2]; [| by right].
    rewrite He2. destruct (Hc1 h' k) as [He1|(-> & Hk & Ha & Hu & Hd)]; [by left |].
    right. split; [done |]. split; [done |]. split; [done |].
    split; [by apply Hu2 | by apply Hd2].
  - intros Ha. by rewrite (Hr2 Ha), (Hr1 Ha).
Qed.

Lemma loop_step_mono h auto keys keys' s s' :
  keys ⊆ keys' -> loop_step h auto keys s s' -> loop_step h auto keys' s s'.
Proof.
  intros Hsub (Hs & Hu & Hd & Hc & Hr).
  split; [done |]. split; [done |]. split; [done |]. split; [| done].
  intros h' k. destruct (Hc h' k) as [He|(-> & Hk & Hrest)]; [by left |].
  right. split; [done |]. split; [by apply Hsub | done].
Qed.

Lemma stored_adapted_same st st' h k :
  same_selectors st st' ->
  stored_adapted (entry_of st' h k) = stored_adapted (entry_of st h k).
Proof.
  intros [_ He]. specialize (He h k). unfold stored_adapted.
  destruct (entry_of st' h k) as [e'|], (entry_of st h k) as [e|];
    simpl in *; try done.
  injection He as He. by rewrite He.
Qed.

Lemma stored_adapted_entry entry a :
  stored_adapted entry = Some a ->
  exists e, entry = Some e /\ adapted e = Some a.
Proof.
  unfold stored_adapted. destruct entry as [e|]; simpl; [| done].
  destruct (adapted e) as [b|] eqn:Hb; [| done].
  destruct (truthy_str b); [| done]. intros [= ->]. by exists e.
Qed.

Lemma stored_adapted_ds_read ds st h k a :
  stored_adapted (ds_read ds st h k) = Some a ->
  stored_adapted (entry_of st h k) = Some a.
Proof. by destruct ds. Qed.

Section StoreLoop.

Variable clock : nat -> Z.
Variable isoformat : Z -> string.
Variable page : Page.
Variable req : ScraplingRequest.
Variable h : string.
Variable ds : selectors_ref.

Local Abbreviation body := (extract_field clock isoformat page req h ds).

Lemma extract_field_step key sel s r s' :
  body (key, sel) s = (r, s') ->
  used_stored h s ->
  used_stored h s' /\ loop_step h (auto_save req) [key] s s'.
Proof.
  intros Hrun Hinv.
  pose proof (extract_field_writes _ _ _ _ _ _ _ _ _ _ _ Hrun) as Hw.
  pose proof (extract_field_used _ _ _ _ _ _ _ _ _ _ _ Hrun) as Hu.
  pose proof (extract_field_data _ _ _ _ _ _ _ _ _ _ _ Hrun) as Hd.
  assert (forall k a, adaptive_used s' !! k = Some a ->
            stored_adapted (entry_of (adaptive_store s) h k) = Some a) as Hnew.
  { intros k a Hk. destruct Hu as [Hu|(a0 & Hu & Hst)].
    - apply Hinv. by rewrite <- Hu.
    - rewrite Hu in Hk. destruct (decide (k = key)) as [->|Hne].
      + rewrite lookup_insert_eq in Hk. injection Hk as <-.
        by eapply stored_adapted_ds_read.
      + rewrite lookup_insert_ne in Hk by done. by apply Hinv. }
  assert (same_selectors (adaptive_store s) (adaptive_store s')) as Hsame.
  { destruct Hw as [[-> _]|(a & _ & Hk & _ & -> & _)];
      [apply same_selectors_refl |].
    destruct (stored_adapted_entry _ _ (Hnew _ _ Hk)) as (e0 & He0 & Ha0).
    by eapply same_selectors_put. }
  split.
  { intros k a Hk. rewrite (stored_adapted_same _ _ h k Hsame). by apply Hnew. }
  split; [done |]. split.
  { intros k Hk. destruct Hu as [->|(a0 & -> & _)]; [done |].
    destruct (decide (k = key)) as [->|Hne];
      [rewrite lookup_insert_eq; by eexists | by rewrite lookup_insert_ne]. }
  split.
  { intros k Hk. destruct Hd as [->|(v & ->)]; [done |].
    destruct (decide (k = key)) as [->|Hne];
      [rewrite lookup_insert_eq; by eexists | by rewrite lookup_insert_ne]. }
  split.
  - intros h' k. destruct Hw as [[-> _]|(a & Ha & Hk & Hv & -> & _)]; [by left |].
    destruct (decide (k = key)) as [->|Hne]; [| left; by apply entry_of_put].
    destruct (decide (h' = h)) as [->|Hne]; [| left; by apply entry_of_put_site].
    right. split; [done |]. split; [apply list_elem_of_singleton; done |].
    split; [done |]. split; [by eexists | done].
  - intros Hoff. destruct Hw as [[-> _]|(a & Ha & _)]; [done | congruence].
Qed.

Lemma for_each_step items s r s' :
  for_each items body s = (r, s') ->
  used_stored h s ->
  used_stored h s' /\ loop_step h (auto_save req) items.*1 s s'.
Proof.
  revert s. induction items as [|[key sel] rest IH]; intros s.
  - simpl. unfold mret, M_ret. intros [= <- <-] Hinv.
    split; [done | apply loop_step_refl].
  - rewrite for_each_cons. intros Hrun Hinv.
    destruct (body (key, sel) s) as [r1 s1] eqn:Hb. simpl in Hrun.
    destruct (extract_field_step _ _ _ _ _ Hb Hinv) as [Hinv1 Hstep1].
    destruct (IH _ Hrun Hinv1) as [Hinv2 Hstep2].
    split; [done |]. rewrite fmap_cons. simpl.
    eapply loop_step_trans; (eapply loop_step_mono; [| eassumption]).
    + intros k Hk. apply list_elem_of_singleton in Hk as ->.
      apply elem_of_cons. by left.
    + intros k Hk. apply elem_of_cons. by right.
Qed.

End StoreLoop.

Section StoreProperties.

Variable fetch : fetch_call -> result Page.
Variable clock : nat -> Z.
Variable isoformat : Z -> string.
Variable check_bracketed_netloc : string -> option string.
Variable normalize_NFKC : string -> string.

Local Abbreviation run_scrape :=
  (scrape fetch clock isoformat check_bracketed_netloc normalize_NFKC).
Local Abbreviation domain_hash_of :=
  (get_domain_hash check_bracketed_netloc normalize_NFKC).

(** A run either never enters the loop, and then leaves the store alone,
    or is a run of the loop from an empty pair of local dictionaries. *)
Lemma scrape_store_cases req s :
  exists resp s',
    run_scrape req s = (Ok resp, s')
    /\ ((adaptive_store s' = adaptive_store s
         /\ data resp = None /\ adaptive_selectors resp = None
         /\ (success resp = false \/ has_selectors req = false))
        \/ (exists page items h s_end,
              fetch (make_call req) = Ok page
              /\ selectors req = Some items
              /\ has_selectors req = true
              /\ domain_hash_of (url req) = Ok h
              /\ resp = success_response req page (extracted_data s_end)
                          (adaptive_used s_end)
                          (clock (ticks s_end) - clock (ticks s))
              /\ adaptive_store s' = adaptive_store s_end
              /\ (ticks s < ticks s_end)%nat
              /\ used_stored h s_end
              /\ loop_step h (auto_save req) items.*1
                   (loop_start req (make_call req) h s) s_end
              /\ (forall k, k ∉ items.*1 ->
                    extracted_data s_end !! k = None
                    /\ adaptive_used s_end !! k = None))).
Proof.
  destruct (fetch (make_call req)) as [msg|page] eqn:Hf.
  { eexists _, _. split; [exact (scrape_fetch_raise _ _ _ _ _ _ _ _ Hf) |].
    left. simpl. split; [done |]. split; [done |]. split; [done | by left]. }
  destruct (has_selectors req) eqn:Hs; cycle 1.
  { eexists _, _. split; [exact (scrape_no_selectors _ _ _ _ _ _ _ _ Hf Hs) |].
    left. simpl. split; [done |]. split; [done |].
    split; [done | by right]. }
  destruct (domain_hash_of (url req)) as [msg|h] eqn:Hh.
  { eexists _, _. split; [exact (scrape_hash_raise _ _ _ _ _ _ _ _ _ Hf Hs Hh) |].
    left. simpl. split; [done |]. split; [done |]. split; [done | by left]. }
  destruct (has_selectors_items req Hs) as (items & Hsel & Hne).
  destruct (scrape_selectors fetch clock isoformat check_bracketed_netloc
              normalize_NFKC req s page items h Hf Hsel Hne Hh)
    as (s_end & Hloop & Hrun).
  eexists _, _. split; [exact Hrun |]. right.
  exists page, items, h, s_end.
  destruct (for_each_step _ _ _ _ _ _ _ _ _ _ Hloop) as [Hinv Hstep].
  { intros k a Hk. simpl in Hk. by rewrite lookup_empty in Hk. }
  pose proof (for_each_ticks _ _ _ _ _ _ _ _ _ _ Hloop) as Hticks.
  simpl in Hticks.
  repeat (split; [first [done | lia] |]).
  intros k Hk.
  destruct (for_each_frame _ _ _ _ _ _ _ _ _ _ k Hloop Hk) as (Hd & Hu & _).
  rewrite Hd, Hu. simpl. by rewrite !lookup_empty.
Qed.

(** X3: a request never adds or removes a site or a field of the store, and
    never changes an adapted selector: after any request the endpoints
    report the same number of sites, the same number of fields for every
    site, and the same adapted selector for every field.  (The branch that
    creates the site's dictionary, lines 119-120, is never taken: a field
    is written only after a mapping was read for it.) *)
Theorem scrape_keeps_sites_and_fields req s :
  exists resp s',
    run_scrape req s = (Ok resp, s')
    /\ health_adaptive_domains (adaptive_store s')
       = health_adaptive_domains (adaptive_store s)
    /\ (forall h, sv_count (get_adaptive_selectors h (adaptive_store s'))
                  = sv_count (get_adaptive_selectors h (adaptive_store s)))
    /\ (forall h k,
          adapted <$> sv_selectors (get_adaptive_selectors h (adaptive_store s')) !! k
          = adapted <$> sv_selectors (get_adaptive_selectors h (adaptive_store s)) !! k).
Proof.
  destruct (scrape_store_cases req s) as (resp & s' & Hrun & Hcases).
  exists resp, s'. split; [done |].
  assert (same_selectors (adaptive_store s) (adaptive_store s')) as Hsame.
  { destruct Hcases as [(-> & _)|(page & items & h & s_end & _ & _ & _ & _ & _
                                  & -> & _ & _ & (Hsame & _) & _)];
      [apply same_selectors_refl | exact Hsame]. }
  destruct (same_selectors_counts _ _ Hsame) as [Hsites Hfields].
  split; [done |]. split; [done |].
  intros h k. rewrite !view_is_entry_of. apply Hsame.
Qed.

(** X4: where a request may write.  Without [auto_save], without selectors,
    or when the request fails, the store is left as it was.  A mapping that
    differs after the request is one of the site of the requested url and
    of a requested field, and the response then carries a value and an
    adapted selector for that field. *)
Theorem scrape_writes_confined req s :
  exists resp s',
    run_scrape req s = (Ok resp, s')
    /\ (auto_save req = false \/ has_selectors req = false
        \/ success resp = false ->
        adaptive_store s' = adaptive_store s)
    /\ (forall h k,
          entry_of (adaptive_store s') h k ≠ entry_of (adaptive_store s) h k ->
          domain_hash_of (url req) = Ok h
          /\ k ∈ (default [] (selectors req)).*1
          /\ is_Some (data_of resp k)
          /\ is_Some (adapted_of resp k)).
Proof.
  destruct (scrape_store_cases req s) as (resp & s' & Hrun & Hcases).
  exists resp, s'. split; [done |].
  destruct Hcases as [(Hst & _)|(page & items & h & s_end & _ & Hsel & Hhas & Hh
                                & -> & Hst & _ & _ & Hstep & _)].
  { split; [done |]. intros h k Hne. by rewrite Hst in Hne. }
  destruct Hstep as (_ & _ & _ & Hconf & Hoff). rewrite Hst. split.
  - intros [Hauto|[Hno|Hfail]]; [by apply Hoff | congruence | done].
  - intros h' k Hne. destruct (Hconf h' k) as [He|(-> & Hk & _ & Hu & Hd)];
      [done |].
    rewrite Hsel, data_of_success, adapted_of_success. done.
Qed.

(** X5: what a response may report.  A field with a value or an adapted
    selector in the response is a requested field, and an adapted selector
    in the response is the non-empty adapted selector that the store held
    for the site and the field when the request arrived. *)
Theorem scrape_reports_requested_and_stored req s :
  exists resp s',
    run_scrape req s = (Ok resp, s')
    /\ (forall k, is_Some (data_of resp k) \/ is_Some (adapted_of resp k) ->
          k ∈ (default [] (selectors req)).*1)
    /\ (forall k a, adapted_of resp k = Some a ->
          exists h e,
            domain_hash_of (url req) = Ok h
            /\ entry_of (adaptive_store s) h k = Some e
            /\ adapted e = Some a /\ a ≠ EmptyString).
Proof.
  destruct (scrape_store_cases req s) as (resp & s' & Hrun & Hcases).
  exists resp, s'. split; [done |].
  destruct Hcases as [(_ & Hd & Hu & _)|(page & items & h & s_end & _ & Hsel & _
                                         & Hh & -> & _ & _ & Hinv & Hstep & Hout)].
  { unfold data_of, adapted_of. rewrite Hd, Hu. simpl. split.
    - intros k [[x Hx]|[x Hx]]; discriminate.
    - intros k a Hk. discriminate. }
  split.
  - intros k. rewrite Hsel, data_of_success, adapted_of_success. simpl.
    intros Hk. destruct (decide (k ∈ items.*1)) as [Hin|Hnot]; [done |].
    destruct (Hout k Hnot) as [Hd Hu]. rewrite Hd, Hu in Hk.
    destruct Hk as [[x Hx]|[x Hx]]; discriminate.
  - intros k a. rewrite adapted_of_success. intros Hk.
    destruct Hstep as (Hsame & _).
    pose proof (Hinv k a Hk) as Hst.
    rewrite (stored_adapted_same _ _ h k Hsame) in Hst. simpl in Hst.
    destruct (stored_adapted_entry _ _ Hst) as (e & He & Ha).
    exists h, e. split; [done |]. split; [done |]. split; [done |].
    intros ->. unfold stored_adapted in Hst. rewrite He in Hst. simpl in Hst.
    by rewrite Ha in Hst.
Qed.

(** X6: the response time is the difference of two readings of the clock,
    the second one taken later; with a clock that never goes back it is
    not negative. *)
Theorem response_time_not_negative req s :
  (forall n m, (n <= m)%nat -> clock n <= clock m) ->
  exists resp s',
    scrape fetch clock isoformat check_bracketed_netloc normalize_NFKC req s
    = (Ok resp, s')
    /\ 0 <= response_time resp
    /\ exists n, (ticks s < n)%nat /\ (n < ticks s')%nat
         /\ response_time resp = clock n - clock (ticks s).
Proof.
  intros Hmono.
  assert (forall n, (ticks s < n)%nat -> 0 <= clock n - clock (ticks s)) as Hle.
  { intros n Hn. pose proof (Hmono (ticks s) n). lia. }
  destruct (fetch (make_call req)) as [msg|page] eqn:Hf.
  { eexists _, _. split; [exact (scrape_fetch_raise _ _ _ _ _ _ _ _ Hf) |].
    simpl. split; [apply Hle; lia |]. exists (S (ticks s)). by repeat split; try lia. }
  destruct (has_selectors req) eqn:Hs; cycle 1.
  { eexists _, _. split; [exact (scrape_no_selectors _ _ _ _ _ _ _ _ Hf Hs) |].
    simpl. split; [apply Hle; lia |]. exists (S (ticks s)). by repeat split; try lia. }
  destruct (domain_hash_of (url req)) as [msg|h] eqn:Hh.
  { eexists _, _. split; [exact (scrape_hash_raise _ _ _ _ _ _ _ _ _ Hf Hs Hh) |].
    simpl. split; [apply Hle; lia |]. exists (S (ticks s)). by repeat split; try lia. }
  destruct (has_selectors_items req Hs) as (items & Hsel & Hne).
  destruct (scrape_selectors fetch clock isoformat check_bracketed_netloc
              normalize_NFKC req s page items h Hf Hsel Hne Hh)
    as (s_end & Hloop & Hrun).
  pose proof (for_each_ticks _ _ _ _ _ _ _ _ _ _ Hloop) as Hticks.
  simpl in Hticks.
  eexists _, _. split; [exact Hrun |]. simpl.
  split; [apply Hle; lia |]. exists (ticks s_end). by repeat split; try lia.
Qed.

(** X7: an update followed by a request.  Once a mapping with a non-empty
    adapted selector is stored for the site of a url and a field, a request
    for that url whose selector for the field matches nothing returns the
    matches of the adapted selector (the text of the match when there is
    one, the list of the texts otherwise) and reports it.  Without [auto_save]
    the stored mapping stays the one that was put; with [auto_save] it is
    replaced: its original selector becomes the requested one and its
    confidence 0.95, whatever was put. *)
Theorem update_then_scrape req s page items h key sel manual a els :
  fetch (make_call req) = Ok page ->
  selectors req = Some items ->
  NoDup items.*1 ->
  (key, sel) ∈ items ->
  domain_hash_of (url req) = Ok h ->
  css page sel (Some (auto_save req)) = Ok [] ->
  adapted manual = Some a ->
  a ≠ EmptyString ->
  css page a None = Ok els ->
  els ≠ [] ->
  exists resp s',
    run_scrape req (set_store (update_adaptive_selector h key manual) s)
    = (Ok resp, s')
    /\ success resp = true
    /\ data_of resp key
       = Some (match els with
               | [text] => VStr text
               | _ => VList els
               end)
    /\ adapted_of resp key = Some a
    /\ exists e,
         sv_selectors (get_adaptive_selectors h (adaptive_store s')) !! key
         = Some e
         /\ adapted e = Some a
         /\ (auto_save req = false -> e = manual)
         /\ (auto_save req = true ->
             original e = sel /\ confidence e = 0.95%float).
Proof.
  intros Hf Hsel Hnd Hin Hh Hc Ha Hne Hc' Hels.
  set (s0 := set_store (update_adaptive_selector h key manual) s).
  assert (entry_of (adaptive_store s0) h key = Some manual) as He0.
  { unfold s0. simpl. rewrite update_is_put_entry. apply entry_of_put_eq. }
  assert (truthy els = true) as Ht by (by destruct els).
  assert (stored_adapted (entry_of (adaptive_store s0) h key) = Some a) as Hst.
  { unfold stored_adapted. rewrite He0. simpl. rewrite Ha. by destruct a. }
  destruct (scrape_field fetch clock isoformat check_bracketed_netloc
              normalize_NFKC req s0 page items h key sel Hf Hsel Hnd Hin Hh)
    as (s_end & s1 & s2 & evs1 & evs2 & Hrun & Hb & Hd & Hu & Hr & Hs2
        & _ & _ & _ & _ & _ & _ & He1).
  destruct (extract_field_own _ _ _ _ _ _ _ _ _ _ _ Hb Hd Hu) as [Hd2 Hu2].
  rewrite Hr in Hd2, Hu2. unfold field_outcome in Hd2, Hu2.
  rewrite Hc, Hst, Hc', Ht in Hd2, Hu2. simpl in Hd2, Hu2.
  destruct Hs2 as (Hd3 & Hu3 & He3).
  eexists _, _. split; [exact Hrun |]. split; [done |].
  rewrite data_of_success, adapted_of_success, Hd3, Hu3.
  split; [done |]. split; [done |].
  rewrite view_is_entry_of. simpl. rewrite He3.
  destruct (decide (auto_save req = true)) as [Hsave|Hsave].
  - rewrite <- Hr in Hst.
    destruct (extract_field_saved _ _ _ _ _ _ _ _ _ _ _ _ _ Hb Hc Hst Hc' Ht Hsave)
      as [Hsaved _].
    eexists. split; [exact Hsaved |]. simpl. split; [done |].
    split; [congruence | done].
  - apply not_true_is_false in Hsave.
    destruct (extract_field_unsaved _ _ _ _ _ _ _ _ _ _ _ Hb Hu) as [Hsame _];
      [by right; right |].
    exists manual. rewrite Hsame, He1. split; [done |]. split; [done |].
    split; [done | congruence].
Qed.

(** X8: a url whose site identity cannot be computed.  The page is fetched
    first; with selectors the request then fails with the message of the
    url error, and without selectors it succeeds with the raw content, the
    identity never being computed.  The store is left as it was. *)
Theorem scrape_unreadable_identity req s page msg :
  fetch (make_call req) = Ok page ->
  domain_hash_of (url req) = Raise msg ->
  exists resp s',
    run_scrape req s = (Ok resp, s')
    /\ trace s' = trace s ++ [EFetch (make_call req)]
    /\ adaptive_store s' = adaptive_store s
    /\ (has_selectors req = true ->
        success resp = false /\ error resp = Some msg
        /\ data resp = None /\ content resp = None)
    /\ (has_selectors req = false ->
        success resp = true /\ error resp = None
        /\ content resp = Some (html page)).
Proof.
  intros Hf Hh. destruct (has_selectors req) eqn:Hs.
  - eexists _, _.
    split; [exact (scrape_hash_raise _ _ _ _ _ _ _ _ _ Hf Hs Hh) |].
    simpl. split; [done |]. split; [done |]. split; [done | discriminate].
  - eexists _, _.
    split; [exact (scrape_no_selectors _ _ _ _ _ _ _ _ Hf Hs) |].
    simpl. rewrite Hs. split; [done |]. split; [done |].
    split; [discriminate | done].
Qed.

End StoreProperties.

Lemma response_time_witness :
  exists resp s',
    demo_scrape (demo_request [("title", "h2")] true) empty_state = (Ok resp, s')
    /\ 0 <= response_time resp
    /\ exists n, (0 < n)%nat /\ (n < ticks s')%nat
         /\ response_time resp = demo_clock n - demo_clock 0.
Proof.
  apply (response_time_not_negative
           demo_fetch demo_clock demo_isoformat accept_brackets nfkc_id
           (demo_request [("title", "h2")] true) empty_state).
  intros n m Hnm. unfold demo_clock. lia.
Defined.

(** A mapping as an operator would put it by hand. *)
Definition manual_selector : AdaptiveSelector :=
  {| original := "h1.title"; adapted := Some "h2"%string;
     confidence := 0.5%float; last_updated := "1969" |}.

Lemma update_then_scrape_witness :
  exists resp s',
    demo_scrape (demo_request [("title", "h1")] true)
      (set_store (update_adaptive_selector demo_hash "title" manual_selector)
         empty_state)
    = (Ok resp, s')
    /\ success resp = true
    /\ data_of resp "title" = Some (VStr "Hello")
    /\ adapted_of resp "title" = Some "h2"%string
    /\ exists e,
         sv_selectors (get_adaptive_selectors demo_hash (adaptive_store s'))
           !! "title"
         = Some e
         /\ adapted e = Some "h2"%string
         /\ (true = false -> e = manual_selector)
         /\ (true = true ->
             original e = "h1"%string /\ confidence e = 0.95%float).
Proof.
  eapply (update_then_scrape
            demo_fetch demo_clock demo_isoformat accept_brackets nfkc_id
            (demo_request [("title", "h1")] true) empty_state
            demo_page [("title", "h1")] demo_hash "title" "h1"
            manual_selector "h2" ["Hello"%string]).
  - reflexivity.
  - reflexivity.
  - simpl. apply NoDup_singleton.
  - apply list_elem_of_singleton. reflexivity.
  - vm_compute. reflexivity.
  - reflexivity.
  - reflexivity.
  - discriminate.
  - reflexivity.
  - discriminate.
Defined.

(** A request for a url whose authority opens a bracket and never closes
    it. *)
Definition bracket_request : ScraplingRequest :=
  {| url := "http://[::1/"; strategy := "standard";
     selectors := Some [("title", "h2")]%string; auto_save := true;
     javascript := false; timeout := 30000; headers := None |}.

Lemma scrape_unreadable_identity_witness :
  exists resp s',
    demo_scrape bracket_request empty_state = (Ok resp, s')
    /\ trace s' = [] ++ [EFetch (make_call bracket_request)]
    /\ adaptive_store s' = ∅
    /\ (true = true ->
        success resp = false /\ error resp = Some "Invalid IPv6 URL"%string
        /\ data resp = None /\ content resp = None)
    /\ (true = false ->
        success resp = true /\ error resp = None
        /\ content resp = Some (html demo_page)).
Proof.
  apply (scrape_unreadable_identity
           demo_fetch demo_clock demo_isoformat accept_brackets nfkc_id
           bracket_request empty_state demo_page "Invalid IPv6 URL").
  - reflexivity.
  - reflexivity.
Defined.

(** ** Further properties of the site identity *)

Lemma char_in_filter c f (s : string) :
  f c = true -> char_in c (str_filter f s) = char_in c s.
Proof.
  intros Hc. unfold char_in. induction s as [|d s IH]; simpl; [done |].
  destruct (f d) eqn:Hd; simpl; [by rewrite IH |].
  rewrite IH. destruct (Ascii.eqb_spec c d) as [->|]; [congruence | done].
Qed.

(** X9: a url whose authority has an opening bracket and no closing one,
    or a closing one and no opening one, has no site identity: computing
    it raises the error of [urlparse], whatever the scheme and the path. *)
Theorem unbalanced_bracket_has_no_identity
    check_bracketed_netloc normalize_NFKC sch a p :
  valid_scheme sch = true ->
  valid_authority a = true ->
  valid_rest p = true ->
  char_in "[" a = negb (char_in "]" a) ->
  get_domain_hash check_bracketed_netloc normalize_NFKC (make_url sch a p)
  = Raise "Invalid IPv6 URL".
Proof.
  intros Hs Ha Hp Hb. unfold get_domain_hash, urlparse_netloc.
  rewrite split_netloc_make_url by done.
  unfold check_brackets, remove_unsafe. rewrite !char_in_filter by done.
  rewrite Hb. by destruct (char_in "]" a).
Qed.

Lemma unbalanced_bracket_witness :
  get_domain_hash accept_brackets nfkc_id (make_url "http" "[::1" "/x")
  = Raise "Invalid IPv6 URL".
Proof.
  apply (unbalanced_bracket_has_no_identity accept_brackets nfkc_id
           "http" "[::1" "/x"); reflexivity.
Defined.

Lemma partition_colon_app s a b :
  partition_colon s = Some (a, b) -> s = (a +:+ String ":" b)%string.
Proof.
  revert a. induction s as [|c s IH]; intros a; simpl; [done |].
  destruct (Ascii.eqb_spec c ":") as [->|Hc].
  - by intros [= <- <-].
  - destruct (partition_colon s) as [[a' b']|]; [| done].
    intros [= <- <-]. simpl. by rewrite (IH a' eq_refl).
Qed.

Lemma substring_of_suffix pattern (a b : string) :
  substring_of pattern (a +:+ b) = false -> substring_of pattern b = false.
Proof.
  induction a as [|c a IH]; simpl; [done |].
  intros [_ H]%orb_false_iff. by apply IH.
Qed.

Lemma substring_of_prefix pattern (s : string) :
  substring_of pattern s = false -> String.prefix pattern s = false.
Proof. destruct s; simpl; by intros [? _]%orb_false_iff. Qed.

Lemma split_netloc_no_slashes (u : string) :
  String.prefix "//" u = false -> split_netloc u = EmptyString.
Proof.
  destruct u as [|c1 r]; [done |]. destruct r as [|c2 r].
  { intros _. by destruct c1 as [[] [] [] [] [] [] [] []]. }
  destruct (Ascii.eqb_spec c1 "/") as [->|H1].
  - destruct (Ascii.eqb_spec c2 "/") as [->|H2].
    + simpl. by destruct r.
    + intros _. destruct c2 as [[] [] [] [] [] [] [] []]; done.
  - intros _. destruct c1 as [[] [] [] [] [] [] [] []]; done.
Qed.

(** X10: a url in which [//] does not occur (once leading blanks and
    embedded tabs and line ends are dropped, as [urlparse] does) has an
    empty authority: all such urls, a bare [example.com/path] among them,
    share one identity, the digest of the empty string. *)
Theorem url_without_authority check_bracketed_netloc normalize_NFKC u :
  substring_of "//" (remove_unsafe (lstrip u)) = false ->
  get_domain_hash check_bracketed_netloc normalize_NFKC u
  = Ok "d41d8cd98f00b204e9800998ecf8427e"%string.
Proof.
  intros Hno. unfold get_domain_hash, urlparse_netloc.
  assert (split_netloc (drop_scheme (remove_unsafe (lstrip u))) = EmptyString)
    as ->.
  { apply split_netloc_no_slashes, substring_of_prefix.
    unfold drop_scheme.
    destruct (partition_colon (remove_unsafe (lstrip u))) as [[pre rest]|] eqn:Hp;
      [| done].
    destruct pre as [|c pre]; [done |].
    destruct (is_alpha c && str_forallb is_scheme_char (String c pre)); [| done].
    apply partition_colon_app in Hp. rewrite Hp in Hno.
    apply substring_of_suffix in Hno. simpl in Hno. exact Hno. }
  by rewrite <- md5_empty.
Qed.

Lemma url_without_authority_witness :
  get_domain_hash accept_brackets nfkc_id "example.com/path"
  = Ok "d41d8cd98f00b204e9800998ecf8427e"%string
  /\ get_domain_hash accept_brackets nfkc_id "mailto:someone@example.com"
     = Ok "d41d8cd98f00b204e9800998ecf8427e"%string.
Proof.
  split.
  - apply (url_without_authority accept_brackets nfkc_id "example.com/path").
    reflexivity.
  - apply (url_without_authority accept_brackets nfkc_id
             "mailto:someone@example.com").
    reflexivity.
Defined.

(** A lowercase hexadecimal digit. *)
Definition is_hex_char (c : ascii) : bool :=
  is_digit c || ((97 <=? code c) && (code c <=? 102)).

Lemma le_bytes_length n x : length (MD5.le_bytes n x) = n.
Proof. revert x. induction n as [|n IH]; intros x; simpl; [done | by rewrite IH]. Qed.

Lemma le_bytes_range n x : Forall (fun b => 0 <= b < 256) (MD5.le_bytes n x).
Proof.
  revert x. induction n as [|n IH]; intros x; simpl; constructor; [| apply IH].
  change 255 with (Z.ones 8). rewrite Z.land_ones by lia.
  apply Z.mod_pos_bound. lia.
Qed.

Lemma hex_digit_hex q : 0 <= q < 16 -> is_hex_char (MD5.hex_digit q) = true.
Proof.
  intros Hq.
  assert (q = 0 \/ q = 1 \/ q = 2 \/ q = 3 \/ q = 4 \/ q = 5 \/ q = 6 \/ q = 7
          \/ q = 8 \/ q = 9 \/ q = 10 \/ q = 11 \/ q = 12 \/ q = 13 \/ q = 14
          \/ q = 15) as Hcases by lia.
  repeat (destruct Hcases as [->|Hcases]; [reflexivity |]).
  by subst.
Qed.

Lemma hex_of_bytes_shape bs :
  Forall (fun b => 0 <= b < 256) bs ->
  String.length (MD5.hex_of_bytes bs) = (2 * length bs)%nat
  /\ str_forallb is_hex_char (MD5.hex_of_bytes bs) = true.
Proof.
  induction 1 as [|b bs Hb Hbs [IHl IHf]]; [done |].
  cbn [MD5.hex_of_bytes String.length str_forallb length].
  split; [rewrite IHl; lia |].
  rewrite IHf, !hex_digit_hex; [done | |].
  - change 15 with (Z.ones 4). rewrite Z.land_ones by lia.
    apply Z.mod_pos_bound. lia.
  - rewrite Z.shiftr_div_pow2 by lia. change (2 ^ 4) with 16.
    split; [apply Z.div_pos; lia | apply Z.div_lt_upper_bound; lia].
Qed.

(** X11: whenever a url has a site identity, the identity is a string of
    32 lowercase hexadecimal digits, whatever the url. *)
Theorem domain_hash_shape check_bracketed_netloc normalize_NFKC u h :
  get_domain_hash check_bracketed_netloc normalize_NFKC u = Ok h ->
  String.length h = 32%nat /\ str_forallb is_hex_char h = true.
Proof.
  unfold get_domain_hash.
  destruct (urlparse_netloc check_bracketed_netloc normalize_NFKC u)
    as [msg|domain]; [done |].
  intros [= <-]. unfold MD5.hexdigest, MD5.digest.
  match goal with
  | |- context [MD5.hex_of_bytes ?bs] =>
      destruct (hex_of_bytes_shape bs) as [Hl Hf]
  end.
  { repeat (apply Forall_app; split); apply le_bytes_range. }
  split; [| exact Hf]. rewrite Hl, !length_app, !le_bytes_length. done.
Qed.

Lemma domain_hash_shape_witness :
  String.length demo_hash = 32%nat /\ str_forallb is_hex_char demo_hash = true.
Proof.
  apply (domain_hash_shape accept_brackets nfkc_id "https://example.com/a").
  vm_compute. reflexivity.
Defined.

(** * Further properties of the crawl *)

Lemma prefix_refl (s : string) : String.prefix s s = true.
Proof. induction s as [|c s IH]; simpl; [done |]. by destruct (ascii_dec c c). Qed.


Section CrawlProperties.

Variable remote : string -> result page_data.
Variable start_url : string.
Variable options : crawl_options.

Local Abbreviation body := (crawl_body remote start_url options).
Local Abbreviation loop := (crawl_loop remote start_url options).
Local Abbreviation cond := (crawl_cond options).
Local Abbreviation run_crawl := (crawl_site remote start_url options).
Local Abbreviation in_scope := (fun u => String.prefix start_url u = true).
Local Abbreviation is_string := (fun l => exists s, href l = HrefStr s).

(** What holds of every state the loop goes through carries to its end,
    where the loop condition fails. *)
Lemma crawl_loop_ind (P : crawl_state -> Prop) fuel st st' :
  (forall st0, cond st0 = true -> P st0 -> P (body st0)) ->
  P st -> loop fuel st = Some st' -> P st' /\ cond st' = false.
Proof.
  intros Hstep. revert st. induction fuel as [|fuel IH]; intros st HP; simpl.
  - destruct (cond st) eqn:Hc; [done |]. by intros [= <-].
  - destruct (cond st) eqn:Hc; [| by intros [= <-]].
    apply IH. by apply Hstep.
Qed.

(** The queue holds urls in scope only; the urls fetched are in scope and
    pass the include filter; and the first url fetched, if any, is the
    start url. *)
Definition crawl_scope_inv (st : crawl_state) : Prop :=
  Forall in_scope (to_visit st)
  /\ Forall (fun u => in_scope u /\ not_included options u = false) (fetched st)
  /\ ((fetched st = [] /\ Forall (fun u => u = start_url) (to_visit st))
      \/ exists rest, fetched st = start_url :: rest).

(** Every url visited was fetched or rejected by a filter; the start url
    and, when links are followed, every link in scope that the loop over
    the links of a fetched page went through, are visited or queued. *)
Definition crawl_closed_inv (st : crawl_state) : Prop :=
  (forall u, u ∈ visited st ->
     u ∈ fetched st \/ excluded options u = true
     \/ not_included options u = true)
  /\ (start_url ∈ visited st \/ start_url ∈ to_visit st)
  /\ (default false (followLinks options) = true ->
      forall u d pre l post s,
        u ∈ fetched st -> remote u = Ok d ->
        default [] (pd_links d) = pre ++ l :: post ->
        Forall is_string pre -> href l = HrefStr s -> in_scope s ->
        s ∈ visited st \/ s ∈ to_visit st).

Lemma crawl_scope_init : crawl_scope_inv (crawl_init start_url).
Proof.
  split; [| split]; simpl.
  - constructor; [apply prefix_refl | done].
  - done.
  - left. split; [done |]. by constructor.
Qed.

Lemma crawl_scope_step st :
  cond st = true -> crawl_scope_inv st -> crawl_scope_inv (body st).
Proof.
  intros Hc (Hq & Hf & Hfirst).
  destruct (crawl_cond_true _ _ Hc) as [(url & rest & Hto) _].
  rewrite Hto in Hq, Hfirst. apply Forall_cons in Hq as [Hurl Hrest].
  destruct (crawl_body_split remote start_url options _ _ _ Hto)
    as [(v & -> & _)|(_ & _ & Hinc & ->)].
  - unfold crawl_scope_inv. simpl.
    split; [done |]. split; [done |].
    destruct Hfirst as [[Hnil Hall]|Hsome]; [left | by right].
    split; [done |]. by apply Forall_cons in Hall as [_ ?].
  - destruct (crawl_fetch_queue remote start_url options url
                {| visited := {[url]} ∪ visited st; to_visit := rest;
                   results := results st; fetched := fetched st |})
      as (added & -> & Hscope & _).
    unfold crawl_scope_inv. simpl. split; [by apply Forall_app |].
    split; [apply Forall_app; split; [done | by constructor] |].
    right. destruct Hfirst as [[-> Hall]|[rest' ->]].
    + apply Forall_cons in Hall as [-> _]. by exists [].
    + by exists (rest' ++ [url]).
Qed.

Lemma crawl_closed_init : crawl_closed_inv (crawl_init start_url).
Proof.
  split; [| split]; simpl.
  - intros u Hu. by apply elem_of_empty in Hu.
  - right. apply elem_of_cons. by left.
  - intros _ u d pre l post s Hu. by apply elem_of_nil in Hu.
Qed.

Lemma crawl_closed_step st :
  cond st = true -> crawl_closed_inv st -> crawl_closed_inv (body st).
Proof.
  intros Hc (Hvis & Hstart & Hlinks).
  destruct (crawl_cond_true _ _ Hc) as [(url & rest & Hto) _].
  rewrite Hto in Hstart, Hlinks.
  destruct (crawl_body_split remote start_url options _ _ _ Hto)
    as [(v & -> & Hurl & Hsub & Hv)|(Hnew & _ & _ & ->)].
  - assert (forall u, u ∈ visited st \/ u ∈ url :: rest -> u ∈ v \/ u ∈ rest)
      as Hmove.
    { intros u [Hu|[->|Hu]%elem_of_cons];
        [left; by apply Hsub | by left | by right]. }
    split; [| split]; simpl.
    + intros u Hu. destruct (Hv u Hu) as [Hold|[-> Hrej]];
        [by apply Hvis | by right].
    + by apply Hmove.
    + intros Hfollow u d pre l post s Hu Hd Hl Hpre Hs Hin.
      by eapply Hmove, Hlinks.
  - destruct (crawl_fetch_queue remote start_url options url
                {| visited := {[url]} ∪ visited st; to_visit := rest;
                   results := results st; fetched := fetched st |})
      as (added & -> & _ & Hall & _).
    simpl in *.
    assert (forall u, u ∈ visited st \/ u ∈ url :: rest ->
              u ∈ {[url]} ∪ visited st \/ u ∈ rest ++ added) as Hmove.
    { intros u [Hu|[->|Hu]%elem_of_cons].
      - left. by apply elem_of_union_r.
      - left. apply elem_of_union_l. by apply elem_of_singleton.
      - right. apply elem_of_app. by left. }
    split; [| split].
    + intros u [Hu|Hu]%elem_of_union.
      * apply elem_of_singleton in Hu as ->. left. apply elem_of_app. right.
        apply elem_of_cons. by left.
      * destruct (Hvis u Hu) as [?|?]; [| by right].
        left. apply elem_of_app. by left.
    + by apply Hmove.
    + intros Hfollow u d pre l post s [Hu|Hu]%elem_of_app Hd Hl Hpre Hs Hin.
      * by eapply Hmove, Hlinks.
      * apply list_elem_of_singleton in Hu as ->.
        destruct (Hall Hfollow d pre l post s Hd Hl Hpre Hs Hin) as [?|?];
          [by left |].
        right. apply elem_of_app. by right.
Qed.

(** What is known of the state a finished crawl ends in. *)
Lemma crawl_site_facts fuel report urls :
  run_crawl fuel = Some (report, urls) ->
  exists st,
    report = make_report st /\ urls = fetched st
    /\ crawl_inv remote options st /\ crawl_scope_inv st
    /\ crawl_closed_inv st /\ cond st = false.
Proof.
  unfold crawl_site.
  destruct (loop fuel (crawl_init start_url)) as [st|] eqn:Hrun; [| done].
  intros [= <- <-]. exists st. split; [done |]. split; [done |].
  split; [eapply crawl_loop_inv; [apply crawl_init_inv | exact Hrun] |].
  destruct (crawl_loop_ind crawl_scope_inv _ _ _ crawl_scope_step
              crawl_scope_init Hrun) as [Hscope Hend].
  destruct (crawl_loop_ind crawl_closed_inv _ _ _ crawl_closed_step
              crawl_closed_init Hrun) as [Hclosed _].
  done.
Qed.


(** X13: the crawl stays in scope.  Every url fetched starts with the
    start url and, when include patterns are given, contains one of them;
    and the first url fetched, if any, is the start url itself. *)
Theorem crawl_stays_in_scope fuel report urls :
  run_crawl fuel = Some (report, urls) ->
  Forall (fun u =>
            String.prefix start_url u = true
            /\ (include_patterns options ≠ [] ->
                exists p, p ∈ include_patterns options
                          /\ substring_of p u = true)) urls
  /\ (urls = [] \/ exists rest, urls = start_url :: rest).
Proof.
  intros Hrun.
  destruct (crawl_site_facts _ _ _ Hrun)
    as (st & -> & -> & _ & (_ & Hf & Hfirst) & _).
  split.
  - eapply Forall_impl; [exact Hf |]. intros u [Hs Hi]. split; [done |].
    intros Hne. unfold not_included in Hi.
    destruct (include_patterns options) as [|p ps] eqn:Hp; [done |].
    simpl in Hi. apply negb_false_iff, orb_true_iff in Hi as [Hi|Hi].
    + exists p. split; [apply elem_of_cons; by left | done].
    + apply existsb_exists in Hi as (p' & Hin & Hsub).
      exists p'. split; [| done]. apply elem_of_cons. right.
      by apply list_elem_of_In.
  - destruct Hfirst as [[-> _]|?]; [by left | by right].
Qed.

(** A crawl whose start url is rejected, or whose budget is not positive,
    ends with nothing recorded. *)
Lemma crawl_empty_run fuel report urls :
  excluded options start_url = true
  \/ not_included options start_url = true
  \/ max_pages options <= 0 ->
  run_crawl fuel = Some (report, urls) ->
  report = {| totalPages := 0; successfulPages := 0; failedPages := 0;
              pages := [] |}
  /\ urls = [].
Proof.
  intros Hrej Hrun.
  destruct (crawl_site_facts _ _ _ Hrun)
    as (st & -> & -> & (Hlen & _ & _ & _ & Hr & Hex)
        & (_ & Hf & Hfirst) & _).
  assert (fetched st = []) as Hnil.
  { destruct Hfirst as [[? _]|[rest Hsome]]; [done |].
    rewrite Hsome in Hex, Hf, Hlen.
    apply Forall_cons in Hex as [Hex _]. apply Forall_cons in Hf as [[_ Hi] _].
    destruct Hrej as [?|[?|Hmax]]; [congruence | congruence |].
    simpl in Hlen. lia. }
  rewrite Hnil in Hr. unfold make_report. rewrite Hr, Hnil. done.
Qed.

(** The run of a crawl that has nothing to follow from its start url. *)
Lemma crawl_one_page_run :
  0 < max_pages options ->
  excluded options start_url = false ->
  not_included options start_url = false ->
  default false (followLinks options) = false
  \/ (exists e, remote start_url = Raise e)
  \/ (exists d, remote start_url = Ok d /\ default [] (pd_links d) = []) ->
  run_crawl 0 = None
  /\ forall fuel,
       exists report,
         run_crawl (S fuel) = Some (report, [start_url])
         /\ pages report = [outcome remote start_url]
         /\ totalPages report = 1%nat.
Proof.
  intros Hmax Hex Hinc Hno.
  assert (cond (crawl_init start_url) = true) as Hc.
  { unfold crawl_cond. simpl. by apply Z.ltb_lt. }
  unfold crawl_site. simpl. rewrite Hc. split; [done |]. intros fuel.
  assert (body (crawl_init start_url)
          = {| visited := {[start_url]} ∪ ∅; to_visit := [];
               results := [outcome remote start_url];
               fetched := [start_url] |}) as ->.
  { unfold crawl_body. simpl.
    rewrite bool_decide_eq_false_2 by apply not_elem_of_empty.
    rewrite Hex, Hinc.
    destruct (crawl_fetch_queue remote start_url options start_url
                {| visited := {[start_url]} ∪ ∅; to_visit := [];
                   results := []; fetched := [] |})
      as (added & -> & _ & _ & Hnil).
    destruct (Hnil Hno) as [-> ->]. done. }
  eexists. destruct fuel; simpl; (split; [reflexivity | done]).
Qed.

(** X14: a crawl that cannot start.  When the start url is rejected by the
    exclude or the include filter, or the page budget is zero or negative,
    the crawl ends with an empty report and fetches nothing. *)
Theorem crawl_rejected_start :
  excluded options start_url = true
  \/ not_included options start_url = true
  \/ max_pages options <= 0 ->
  (exists fuel, run_crawl fuel <> None)
  /\ (forall fuel report urls,
        run_crawl fuel = Some (report, urls) ->
        report = {| totalPages := 0; successfulPages := 0; failedPages := 0;
                    pages := [] |}
        /\ urls = []).
Proof.
  intros Hrej. split.
  - destruct (crawl_loop_terminates remote start_url options
                (crawl_init start_url)) as (fuel & st & Hrun).
    exists fuel. unfold crawl_site. by rewrite Hrun.
  - intros fuel report urls. by apply crawl_empty_run.
Qed.

(** X15: a crawl with nothing to follow.  With a positive budget and a
    start url that passes the filters, when links are not followed, or the
    fetch of the start url raises, or its page has no links, the crawl
    ends, fetches the start url only and reports its outcome alone. *)
Theorem crawl_single_page :
  0 < max_pages options ->
  excluded options start_url = false ->
  not_included options start_url = false ->
  default false (followLinks options) = false
  \/ (exists e, remote start_url = Raise e)
  \/ (exists d, remote start_url = Ok d /\ default [] (pd_links d) = []) ->
  (exists fuel, run_crawl fuel <> None)
  /\ (forall fuel report urls,
        run_crawl fuel = Some (report, urls) ->
        urls = [start_url]
        /\ pages report = [outcome remote start_url]
        /\ totalPages report = 1%nat).
Proof.
  intros Hmax Hex Hinc Hno.
  destruct (crawl_one_page_run Hmax Hex Hinc Hno) as [Hzero Hpos]. split.
  - exists 1%nat. destruct (Hpos O) as (report & Hrun & _). by rewrite Hrun.
  - intros fuel report urls Hrun. destruct fuel as [|fuel]; [congruence |].
    destruct (Hpos fuel) as (report' & Hrun' & Hpages & Htotal).
    rewrite Hrun in Hrun'. by injection Hrun' as -> ->.
Qed.

(** X16: a crawl that stops under its budget is complete.  When fewer
    pages were recorded than the budget allows, the start url was fetched
    unless a filter rejects it, and with links followed every link that
    the loop over the links of a page fetched with success went through
    (every link of the page up to the first one whose [href] is not a
    string, hence every link when all are strings), if it is in scope and
    passes the filters, was fetched too. *)
Theorem crawl_complete_under_budget fuel report urls :
  run_crawl fuel = Some (report, urls) ->
  Z.of_nat (totalPages report) < max_pages options ->
  (start_url ∈ urls \/ excluded options start_url = true
   \/ not_included options start_url = true)
  /\ (default false (followLinks options) = true ->
      forall u d pre l post s,
        PageSuccess u d ∈ pages report ->
        default [] (pd_links d) = pre ++ l :: post ->
        Forall (fun l' => exists s', href l' = HrefStr s') pre ->
        href l = HrefStr s ->
        String.prefix start_url s = true ->
        excluded options s = false ->
        not_included options s = false ->
        s ∈ urls).
Proof.
  intros Hrun Hunder.
  destruct (crawl_site_facts _ _ _ Hrun)
    as (st & -> & -> & (_ & _ & _ & _ & Hr & _) & _
        & (Hvis & Hstart & Hlinks) & Hend).
  simpl in *.
  assert (to_visit st = []) as Hq.
  { unfold crawl_cond in Hend. apply andb_false_iff in Hend as [Hq|Hn].
    - by destruct (to_visit st).
    - apply Z.ltb_ge in Hn. lia. }
  rewrite Hq in Hstart, Hlinks. split.
  - destruct Hstart as [Hs|Hs]; [by apply Hvis | by apply elem_of_nil in Hs].
  - intros Hfollow u d pre l post s Hin Hl Hpre Hs Hscope Hex Hinc.
    rewrite Hr in Hin. apply list_elem_of_In, in_flat_map in Hin
      as (u' & Hu' & Hin).
    apply list_elem_of_In in Hu', Hin. unfold entries in Hin.
    apply elem_of_cons in Hin as [Hout|Hin]; cycle 1.
    { destruct (link_failure_cases remote options u') as [Hx | [e Hx]];
        rewrite Hx in Hin; [by apply elem_of_nil in Hin |].
      by apply list_elem_of_singleton in Hin. }
    unfold outcome in Hout. destruct (remote u') as [e|d'] eqn:Hd; [done |].
    injection Hout as -> ->.
    destruct (Hlinks Hfollow u' d' pre l post s Hu' Hd Hl Hpre Hs Hscope)
      as [Hv|Hv]; [| by apply elem_of_nil in Hv].
    destruct (Hvis _ Hv) as [?|[?|?]]; [done | congruence | congruence].
Qed.

End CrawlProperties.

(** The crawl of the start page that has an SVG anchor, with a budget of
    three pages: the second link of the page stops the loop over its
    links, so [/b], the third link, is never queued. *)
Definition svg_pages : list page_result :=
  svg_start_pages
  ++ [ PageSuccess "https://site.test/a" {| pd_status := 200; pd_links := None |} ].

Example svg_crawl_three :
  crawl_site svg_remote demo_start (svg_options 5) 10
  = Some ({| totalPages := 3; successfulPages := 2; failedPages := 1;
             pages := svg_pages |},
          [demo_start; "https://site.test/a"%string]).
Proof. vm_compute. reflexivity. Qed.


Lemma crawl_stays_in_scope_witness :
  Forall (fun u =>
            String.prefix demo_start u = true
            /\ (include_patterns demo_options ≠ [] ->
                exists p, p ∈ include_patterns demo_options
                          /\ substring_of p u = true)) demo_urls
  /\ (demo_urls = [] \/ exists rest, demo_urls = demo_start :: rest).
Proof.
  apply (crawl_stays_in_scope demo_remote demo_start demo_options 10
           {| totalPages := 3; successfulPages := 2; failedPages := 1;
              pages := demo_pages |} demo_urls).
  exact demo_crawl.
Defined.

Lemma crawl_rejected_start_witness :
  (exists fuel,
     crawl_site demo_remote "https://site.test/admin" demo_options fuel <> None)
  /\ (forall fuel report urls,
        crawl_site demo_remote "https://site.test/admin" demo_options fuel
        = Some (report, urls) ->
        report = {| totalPages := 0; successfulPages := 0; failedPages := 0;
                    pages := [] |}
        /\ urls = []).
Proof.
  apply (crawl_rejected_start demo_remote "https://site.test/admin" demo_options).
  left. reflexivity.
Defined.

(** The options of a crawl that does not follow links. *)
Definition no_follow_options : crawl_options :=
  {| maxPages := None; includePatterns := None; excludePatterns := None;
     followLinks := None |}.

Lemma crawl_single_page_witness :
  (exists fuel, crawl_site demo_remote demo_start no_follow_options fuel <> None)
  /\ (forall fuel report urls,
        crawl_site demo_remote demo_start no_follow_options fuel
        = Some (report, urls) ->
        urls = [demo_start]
        /\ pages report = [outcome demo_remote demo_start]
        /\ totalPages report = 1%nat).
Proof.
  apply (crawl_single_page demo_remote demo_start no_follow_options).
  - reflexivity.
  - reflexivity.
  - reflexivity.
  - left. reflexivity.
Defined.

Lemma crawl_complete_witness :
  (demo_start ∈ [demo_start; "https://site.test/a"%string]
   \/ excluded (svg_options 5) demo_start = true
   \/ not_included (svg_options 5) demo_start = true)
  /\ (default false (followLinks (svg_options 5)) = true ->
      forall u d pre l post s,
        PageSuccess u d ∈ svg_pages ->
        default [] (pd_links d) = pre ++ l :: post ->
        Forall (fun l' => exists s', href l' = HrefStr s') pre ->
        href l = HrefStr s ->
        String.prefix demo_start s = true ->
        excluded (svg_options 5) s = false ->
        not_included (svg_options 5) s = false ->
        s ∈ [demo_start; "https://site.test/a"%string]).
Proof.
  apply (crawl_complete_under_budget svg_remote demo_start (svg_options 5) 10
           {| totalPages := 3; successfulPages := 2; failedPages := 1;
              pages := svg_pages |}
           [demo_start; "https://site.test/a"%string]).
  - exact svg_crawl_three.
  - vm_compute. reflexivity.
Defined.

(** ** Requests do not interfere *)

Lemma field_outcome_stored page asv e1 e2 sel :
  stored_adapted e1 = stored_adapted e2 ->
  field_outcome page asv e1 sel = field_outcome page asv e2 sel.
Proof. intros H. unfold field_outcome. by rewrite H. Qed.

Section Independence.

Variable fetch : fetch_call -> result Page.
Variable clock : nat -> Z.
Variable isoformat : Z -> string.
Variable check_bracketed_netloc : string -> option string.
Variable normalize_NFKC : string -> string.

Local Abbreviation run_scrape :=
  (scrape fetch clock isoformat check_bracketed_netloc normalize_NFKC).
Local Abbreviation domain_hash_of :=
  (get_domain_hash check_bracketed_netloc normalize_NFKC).

Lemma scrape_same_selectors req s :
  exists resp s',
    run_scrape req s = (Ok resp, s')
    /\ same_selectors (adaptive_store s) (adaptive_store s').
Proof.
  destruct (scrape_store_cases fetch clock isoformat check_bracketed_netloc
              normalize_NFKC req s) as (resp & s' & Hrun & Hcases).
  exists resp, s'. split; [done |].
  destruct Hcases as [(-> & _)|(page & items & h & s_end & _ & _ & _ & _ & _
                                & -> & _ & _ & (Hsame & _) & _)];
    [apply same_selectors_refl | exact Hsame].
Qed.

(** X17: an earlier request, whatever it is, does not change what a later
    one returns for a field from the same page: the value and the adapted
    selector are those of the later request run alone. *)
Theorem scrape_independent_of_earlier req0 req s page items h key sel :
  fetch (make_call req) = Ok page ->
  selectors req = Some items ->
  NoDup items.*1 ->
  (key, sel) ∈ items ->
  domain_hash_of (url req) = Ok h ->
  exists resp0 s0 resp_after s_after resp_alone s_alone,
    run_scrape req0 s = (Ok resp0, s0)
    /\ run_scrape req s0 = (Ok resp_after, s_after)
    /\ run_scrape req s = (Ok resp_alone, s_alone)
    /\ data_of resp_after key = data_of resp_alone key
    /\ adapted_of resp_after key = adapted_of resp_alone key.
Proof.
  intros Hf Hsel Hnd Hin Hh.
  destruct (scrape_same_selectors req0 s) as (resp0 & s0 & Hrun0 & Hsame).
  destruct (scrape_field_outcome fetch clock isoformat check_bracketed_netloc
              normalize_NFKC req s0 page items h key sel Hf Hsel Hnd Hin Hh)
    as (resp1 & s1 & Hrun1 & _ & Hd1 & Hu1).
  destruct (scrape_field_outcome fetch clock isoformat check_bracketed_netloc
              normalize_NFKC req s page items h key sel Hf Hsel Hnd Hin Hh)
    as (resp2 & s2 & Hrun2 & _ & Hd2 & Hu2).
  exists resp0, s0, resp1, s1, resp2, s2.
  split; [done |]. split; [done |]. split; [done |].
  rewrite Hd1, Hu1, Hd2, Hu2.
  rewrite (field_outcome_stored page (auto_save req)
             (entry_of (adaptive_store s0) h key)
             (entry_of (adaptive_store s) h key) sel); [done |].
  by apply stored_adapted_same.
Qed.

End Independence.

Lemma scrape_independent_witness :
  exists resp0 s0 resp_after s_after resp_alone s_alone,
    demo_scrape (demo_request [("title", "h1")] true) (stored_state "h2")
    = (Ok resp0, s0)
    /\ demo_scrape (demo_request [("title", "h1"); ("body", "p")] false) s0
       = (Ok resp_after, s_after)
    /\ demo_scrape (demo_request [("title", "h1"); ("body", "p")] false)
         (stored_state "h2")
       = (Ok resp_alone, s_alone)
    /\ data_of resp_after "title" = data_of resp_alone "title"
    /\ adapted_of resp_after "title" = adapted_of resp_alone "title".
Proof.
  apply (scrape_independent_of_earlier
           demo_fetch demo_clock demo_isoformat accept_brackets nfkc_id
           (demo_request [("title", "h1")] true)
           (demo_request [("title", "h1"); ("body", "p")] false)
           (stored_state "h2") demo_page
           [("title", "h1"); ("body", "p")]%string demo_hash "title" "h1").
  - reflexivity.
  - reflexivity.
  - simpl. apply NoDup_cons. split; [| apply NoDup_singleton].
    intros Hx. apply list_elem_of_singleton in Hx. discriminate.
  - apply elem_of_cons. left. reflexivity.
  - vm_compute. reflexivity.
Defined.

Section UpdateFrame.

Variable fetch : fetch_call -> result Page.
Variable clock : nat -> Z.
Variable isoformat : Z -> string.
Variable check_bracketed_netloc : string -> option string.
Variable normalize_NFKC : string -> string.

Local Abbreviation run_scrape :=
  (scrape fetch clock isoformat check_bracketed_netloc normalize_NFKC).
Local Abbreviation domain_hash_of :=
  (get_domain_hash check_bracketed_netloc normalize_NFKC).

(** X18: an update of another site, or of another field of the same site,
    does not change what a request returns for a field: the value and the
    adapted selector are those of the request without the update. *)
Theorem update_elsewhere_then_scrape
    req s page items h key sel h' key' other :
  fetch (make_call req) = Ok page ->
  selectors req = Some items ->
  NoDup items.*1 ->
  (key, sel) ∈ items ->
  domain_hash_of (url req) = Ok h ->
  h' ≠ h \/ key' ≠ key ->
  exists resp_after s_after resp_alone s_alone,
    run_scrape req (set_store (update_adaptive_selector h' key' other) s)
    = (Ok resp_after, s_after)
    /\ run_scrape req s = (Ok resp_alone, s_alone)
    /\ data_of resp_after key = data_of resp_alone key
    /\ adapted_of resp_after key = adapted_of resp_alone key.
Proof.
  intros Hf Hsel Hnd Hin Hh Hother.
  destruct (scrape_field_outcome fetch clock isoformat check_bracketed_netloc
              normalize_NFKC req
              (set_store (update_adaptive_selector h' key' other) s)
              page items h key sel Hf Hsel Hnd Hin Hh)
    as (resp1 & s1 & Hrun1 & _ & Hd1 & Hu1).
  destruct (scrape_field_outcome fetch clock isoformat check_bracketed_netloc
              normalize_NFKC req s page items h key sel Hf Hsel Hnd Hin Hh)
    as (resp2 & s2 & Hrun2 & _ & Hd2 & Hu2).
  exists resp1, s1, resp2, s2.
  split; [done |]. split; [done |].
  rewrite Hd1, Hu1, Hd2, Hu2. simpl. rewrite update_is_put_entry.
  destruct Hother as [Hne|Hne].
  - by rewrite entry_of_put_site.
  - by rewrite entry_of_put.
Qed.

End UpdateFrame.

Lemma update_elsewhere_witness :
  exists resp_after s_after resp_alone s_alone,
    demo_scrape (demo_request [("title", "h1")] true)
      (set_store (update_adaptive_selector demo_hash "price" manual_selector)
         (stored_state "p"))
    = (Ok resp_after, s_after)
    /\ demo_scrape (demo_request [("title", "h1")] true) (stored_state "p")
       = (Ok resp_alone, s_alone)
    /\ data_of resp_after "title" = data_of resp_alone "title"
    /\ adapted_of resp_after "title" = adapted_of resp_alone "title".
Proof.
  apply (update_elsewhere_then_scrape
           demo_fetch demo_clock demo_isoformat accept_brackets nfkc_id
           (demo_request [("title", "h1")] true) (stored_state "p")
           demo_page [("title", "h1")] demo_hash "title" "h1"
           demo_hash "price" manual_selector).
  - reflexivity.
  - reflexivity.
  - simpl. apply NoDup_singleton.
  - apply list_elem_of_singleton. reflexivity.
  - vm_compute. reflexivity.
  - right. discriminate.
Defined.

(** * The page worker: [scrape_page] *)

(** The object that the page evaluates to for its metadata; a missing
    [meta] element gives an absent field. *)
Record page_metadata := {
  md_title : string;
  md_description : option string;
  md_language : string;
  md_author : option string
}.

(** What the worker asks of the browser for one page: the user agent of the
    context, the handler routed for every request of the page if any (it
    aborts the request when it answers [true], and lets it go on
    otherwise), the url to go to, the time to wait after the load if any,
    and whether to take a screenshot of the full page. *)
Record browser_request := {
  br_user_agent : string;
  br_route : option (string -> bool);
  br_url : string;
  br_wait : option Z;
  br_screenshot : bool
}.

(** What the worker reads back: the status of the response, the content of
    the page, the inner text of its body, its metadata, its anchors, and
    the bytes of the screenshot when one was taken. *)
Record browser_view := {
  bv_status : Z;
  bv_html : string;
  bv_text : string;
  bv_metadata : page_metadata;
  bv_links : list link;
  bv_screenshot : list Z
}.

Record evidence := {
  ev_hash : string;
  ev_timestamp : string;
  ev_browserUsed : bool
}.

(** The dictionary that [scrape_page] returns. *)
Record scrape_result := {
  sr_url : string;
  sr_status : Z;
  sr_metadata : page_metadata;
  sr_html : option string;
  sr_markdown : option string;
  sr_links : option (list link);
  sr_screenshot : option string;
  sr_evidence : evidence
}.

(** The keys of [options] that [scrape_page] reads. *)
Record page_options := {
  userAgent : option string;
  blockAds : option bool;
  waitFor : option Z;
  formats : option (list string)
}.

Definition default_user_agent : string :=
  "Mozilla/5.0 (Windows NT 10.0; Win64; x64) AppleWebKit/537.36".

Definition ad_words : list string :=
  [ "doubleclick"; "google-analytics"; "facebook" ]%string.

(** The handler of lines 57-59: abort when one of the words occurs in the
    url of the request. *)
Definition ad_route (request_url : string) : bool :=
  existsb (fun ad => substring_of ad request_url) ad_words.

(** ['f' in options.get('formats', [])]. *)
Definition has_format (f : string) (options : page_options) : bool :=
  bool_decide (f ∈ default [] (formats options)).

Definition browser_request_of (url : string) (options : page_options)
  : browser_request :=
  {| br_user_agent := default default_user_agent (userAgent options);
     br_route := if default true (blockAds options) then Some ad_route else None;
     br_url := url;
     br_wait := match waitFor options with
                | Some wait_time => if wait_time =? 0 then None else Some wait_time
                | None => None
                end;
     br_screenshot := has_format "screenshot" options |}.

Section ScrapePage.

(** The browser session of lines 38-94, which raises when one of its steps
    does; [hashlib.sha256(_).hexdigest()]; and
    [datetime.utcnow().isoformat()] at the time of the call. *)
Variable browse : browser_request -> result browser_view.
Variable sha256_hexdigest : list Z -> string.
Variable utcnow_isoformat : string.

Definition scrape_page (url : string) (options : page_options)
  : result scrape_result :=
  match browse (browser_request_of url options) with
  | Raise e => Raise e
  | Ok view =>
      let screenshot :=
        if has_format "screenshot" options then Some (bv_screenshot view)
        else None in
      Ok {| sr_url := url;
            sr_status := bv_status view;
            sr_metadata := bv_metadata view;
            sr_html := if has_format "html" options
                       then Some (bv_html view) else None;
            sr_markdown := if has_format "markdown" options
                           then Some (bv_text view) else None;
            sr_links := if has_format "links" options
                        then Some (bv_links view) else None;
            sr_screenshot := match screenshot with
                             | Some bytes =>
                                 if truthy bytes
                                 then Some (MD5.hex_of_bytes bytes)
                                 else None
                             | None => None
                             end;
            sr_evidence := {| ev_hash := sha256_hexdigest (encode (bv_html view));
                              ev_timestamp := utcnow_isoformat;
                              ev_browserUsed := true |} |}
  end.

(** ** [crawl_site] over [scrape_page] *)

(** The one dictionary [options] that [crawl_site] reads and passes on to
    [scrape_page]. *)
Record worker_options := {
  wo_crawl : crawl_options;
  wo_page : page_options
}.

(** What [crawl_site] reads in the result of [scrape_page]. *)
Definition page_data_of (r : scrape_result) : page_data :=
  {| pd_status := sr_status r; pd_links := sr_links r |}.

(** [scrape_page.remote(url, options)] as called by [crawl_site]. *)
Definition scrape_page_remote (options : worker_options) (url : string)
  : result page_data :=
  match scrape_page url (wo_page options) with
  | Raise e => Raise e
  | Ok r => Ok (page_data_of r)
  end.

Definition crawl_site_worker (start_url : string) (options : worker_options)
    (fuel : nat) : option (crawl_report * list string) :=
  crawl_site (scrape_page_remote options) start_url (wo_crawl options) fuel.

(** X19: a crawl follows links only when [links] is among the formats.
    Without it the result of [scrape_page] carries no links, so whatever
    [followLinks] says the crawl fetches nothing (when the start url is
    rejected or the budget is not positive) or the start url alone, and
    then reports its outcome alone. *)
Theorem crawl_needs_links_format start_url options fuel report urls :
  has_format "links" (wo_page options) = false ->
  crawl_site_worker start_url options fuel = Some (report, urls) ->
  (urls = [] /\ pages report = [])
  \/ (urls = [start_url]
      /\ pages report = [outcome (scrape_page_remote options) start_url]).
Proof.
  intros Hfmt Hrun. unfold crawl_site_worker in Hrun.
  assert (excluded (wo_crawl options) start_url = true
          \/ not_included (wo_crawl options) start_url = true
          \/ max_pages (wo_crawl options) <= 0
          \/ (0 < max_pages (wo_crawl options)
              /\ excluded (wo_crawl options) start_url = false
              /\ not_included (wo_crawl options) start_url = false))
    as [Hrej|[Hrej|[Hrej|(Hmax & Hex & Hinc)]]].
  { destruct (excluded (wo_crawl options) start_url); [by left |].
    destruct (not_included (wo_crawl options) start_url); [by right; left |].
    destruct (decide (0 < max_pages (wo_crawl options)));
      [by right; right; right | right; right; left; lia]. }
  1-3: left;
    destruct (crawl_empty_run (scrape_page_remote options) start_url
                (wo_crawl options) fuel report urls) as [-> ->];
    [tauto | done | done].
  right.
  destruct (crawl_one_page_run (scrape_page_remote options) start_url
              (wo_crawl options) Hmax Hex Hinc) as [Hzero Hpos].
  { right. unfold scrape_page_remote, scrape_page.
    destruct (browse (browser_request_of start_url (wo_page options)))
      as [e|view]; [left; by exists e | right].
    eexists. split; [reflexivity |]. simpl. by rewrite Hfmt. }
  destruct fuel as [|fuel]; [congruence |].
  destruct (Hpos fuel) as (report' & Hrun' & Hpages & _).
  rewrite Hrun in Hrun'. by injection Hrun' as -> ->.
Qed.

End ScrapePage.

Lemma prefix_spec (p s : string) :
  String.prefix p s = true <-> exists post, s = (p +:+ post)%string.
Proof.
  revert s. induction p as [|c p IH]; intros s.
  { split; [intros _; by exists s | intros _; by destruct s]. }
  destruct s as [|d s]; simpl.
  { split; [done | intros [post Hp]; discriminate]. }
  destruct (ascii_dec c d) as [->|Hne].
  - rewrite IH. split; intros [post Hp]; exists post; [by rewrite Hp |].
    by injection Hp.
  - split; [done | intros [post Hp]]. injection Hp as Hc _. congruence.
Qed.

(** [pattern in s]: the pattern occurs somewhere in the string. *)
Lemma substring_of_spec (p s : string) :
  substring_of p s = true
  <-> exists pre post, s = (pre +:+ p +:+ post)%string.
Proof.
  induction s as [|c s IH].
  - cbn [substring_of]. rewrite orb_false_r, prefix_spec. split.
    + intros [post Hp]. by exists EmptyString, post.
    + intros ([|d pre] & post & Hp); [by exists post | discriminate].
  - cbn [substring_of]. rewrite orb_true_iff, prefix_spec, IH. split.
    + intros [[post Hp]|(pre & post & Hp)].
      * by exists EmptyString, post.
      * exists (String c pre), post. by rewrite Hp.
    + intros ([|d pre] & post & Hp).
      * left. by exists post.
      * right. injection Hp as _ Hp. by exists pre, post.
Qed.

(** X20: which requests the page blocks.  Unless [blockAds] is given and
    false, a handler is routed for every request of the page, and it
    aborts exactly the requests whose url contains [doubleclick],
    [google-analytics] or [facebook] anywhere, in the host or not.  With
    [blockAds] false no handler is routed. *)
Theorem ad_block_matches_anywhere url options :
  match br_route (browser_request_of url options) with
  | Some handler =>
      blockAds options ≠ Some false
      /\ forall u,
           handler u = true
           <-> exists pre post,
                 u = (pre +:+ "doubleclick" +:+ post)%string
                 \/ u = (pre +:+ "google-analytics" +:+ post)%string
                 \/ u = (pre +:+ "facebook" +:+ post)%string
  | None => blockAds options = Some false
  end.
Proof.
  assert (forall u,
            ad_route u = true
            <-> exists pre post,
                  u = (pre +:+ "doubleclick" +:+ post)%string
                  \/ u = (pre +:+ "google-analytics" +:+ post)%string
                  \/ u = (pre +:+ "facebook" +:+ post)%string) as Hroute.
  { intros u. unfold ad_route, ad_words. cbn [existsb].
    rewrite orb_false_r, !orb_true_iff, !substring_of_spec. split.
    - intros [(pre & post & ->)|[(pre & post & ->)|(pre & post & ->)]];
        exists pre, post; [by left | by right; left | by right; right].
    - intros (pre & post & [-> | [-> | ->]]);
        [left | right; left | right; right]; by exists pre, post. }
  unfold browser_request_of. simpl.
  destruct (blockAds options) as [[|]|]; simpl; done.
Qed.

(** The options of a call that gives none. *)
Definition no_page_options : page_options :=
  {| userAgent := None; blockAds := None; waitFor := None; formats := None |}.

Lemma ad_block_witness :
  exists handler,
    br_route (browser_request_of "https://shop.example/" no_page_options)
    = Some handler
    /\ handler "https://shop.example/help/facebook-login" = true
    /\ handler "https://www.google-analytics.com/collect" = true.
Proof.
  pose proof (ad_block_matches_anywhere "https://shop.example/" no_page_options)
    as [_ Hroute].
  eexists. split; [reflexivity |]. split.
  - apply Hroute. exists "https://shop.example/help/"%string, "-login"%string.
    right. right. reflexivity.
  - apply Hroute. exists "https://www."%string, ".com/collect"%string.
    right. left. reflexivity.
Defined.

(** A browser that shows the same page for every url, with the links of
    the small site. *)
Definition demo_browse (r : browser_request) : result browser_view :=
  Ok {| bv_status := 200;
        bv_html := "<html><a href='/a'>a</a></html>";
        bv_text := "a";
        bv_metadata := {| md_title := "Demo"; md_description := None;
                          md_language := "en"; md_author := None |};
        bv_links := demo_links;
        bv_screenshot := [] |}.

(** Links are to be followed, but [links] is not among the formats. *)
Definition demo_worker_options : worker_options :=
  {| wo_crawl := {| maxPages := Some 5; includePatterns := None;
                    excludePatterns := None; followLinks := Some true |};
     wo_page := {| userAgent := None; blockAds := None; waitFor := None;
                   formats := Some ["html"; "markdown"]%string |} |}.

Definition demo_sha256 (bytes : list Z) : string := "sha256".

Lemma crawl_needs_links_format_witness :
  ([demo_start] = [] /\
   [PageSuccess demo_start {| pd_status := 200; pd_links := None |}] = [])
  \/ ([demo_start] = [demo_start]
      /\ [PageSuccess demo_start {| pd_status := 200; pd_links := None |}]
         = [outcome (scrape_page_remote demo_browse demo_sha256 "1970-01-01T00:00:00"
                       demo_worker_options) demo_start]).
Proof.
  apply (crawl_needs_links_format demo_browse demo_sha256 "1970-01-01T00:00:00"
           demo_start demo_worker_options 3
           {| totalPages := 1; successfulPages := 1; failedPages := 0;
              pages := [PageSuccess demo_start
                          {| pd_status := 200; pd_links := None |}] |}
           [demo_start]).
  - reflexivity.
  - vm_compute. reflexivity.
Defined.
